(** * The FDTD field-update engine of [src/fdtd.py], embedded in Rocq

    The engine is a Python class working on NumPy arrays of IEEE-754 binary64
    numbers.  The embedding keeps that data model:

    - a Python [float] / NumPy [float64] is a [spec_float] of the Standard
      Library, with the binary64 operations ([F64]);
    - the Python operators the engine uses on numbers ([/], [//], [int()],
      comparisons) are written out with the exceptions they raise ([Py]);
    - one-dimensional NumPy arrays are lists, with Python's indexing, slicing
      and broadcasting rules ([Np]);
    - the objects the caller hands to the engine ([Layer], [Source]) live in a
      store and are held by reference, as in Python; methods are state
      transformers that return the state together with a result or the
      exception raised. *)

From Stdlib Require Import ZArith Lia Bool String DecimalString.
From Stdlib Require Import Floats.SpecFloat.
From stdpp Require Import base option list gmap strings.

Local Open Scope Z_scope.

(** ** Binary64 arithmetic *)

Module F64.

Definition prec : Z := 53.
Definition emax : Z := 1024.

Definition float : Type := spec_float.

Definition add : float -> float -> float := SFadd prec emax.
Definition sub : float -> float -> float := SFsub prec emax.
Definition mul : float -> float -> float := SFmul prec emax.
Definition div : float -> float -> float := SFdiv prec emax.
Definition sqrt : float -> float := SFsqrt prec emax.
Definition eqb : float -> float -> bool := SFeqb.
Definition ltb : float -> float -> bool := SFltb.
Definition leb : float -> float -> bool := SFleb.

(** The integer [z] rounded to the nearest binary64 number (ties to even). *)
Definition of_Z (z : Z) : float := binary_normalize prec emax z 0 false.

Definition zero : float := S754_zero false.
Definition one : float := Eval vm_compute in of_Z 1.
Definition half : float := Eval vm_compute in div (of_Z 1) (of_Z 2).

(** The decimal literal [n/d] of the source text, correctly rounded (used
    for literals such as [0.01 = 1/100]). *)
Definition dec (n d : Z) : float := div (of_Z n) (of_Z d).

Definition is_zero (x : float) : bool :=
  match x with S754_zero _ => true | _ => false end.

Definition is_nan (x : float) : bool :=
  match x with S754_nan => true | _ => false end.

Definition is_infinity (x : float) : bool :=
  match x with S754_infinity _ => true | _ => false end.

(** Neither an infinity nor a NaN. *)
Definition is_finite (x : float) : bool :=
  match x with S754_zero _ | S754_finite _ _ _ => true | _ => false end.

Definition sign_bit (x : float) : bool :=
  match x with
  | S754_zero s | S754_infinity s | S754_finite s _ _ => s
  | S754_nan => false
  end.

(** C's [fmod]: the remainder of the exact quotient truncated towards zero;
    it is always representable, and carries the sign of [x]. *)
Definition fmod (x y : float) : float :=
  match x, y with
  | S754_nan, _ | _, S754_nan => S754_nan
  | S754_infinity _, _ => S754_nan
  | _, S754_zero _ => S754_nan
  | _, S754_infinity _ => x
  | S754_zero _, _ => x
  | S754_finite sx mx ex, S754_finite _ my ey =>
      let e := Z.min ex ey in
      let X := Z.shiftl (Zpos mx) (ex - e) in
      let Y := Z.shiftl (Zpos my) (ey - e) in
      match X mod Y with
      | Zpos r => binary_round prec emax sx r e
      | _ => S754_zero sx
      end
  end.

(** C's [floor]. *)
Definition floor (x : float) : float :=
  match x with
  | S754_finite s m e =>
      if 0 <=? e then x
      else
        let q := Z.shiftr (Zpos m) (- e) in
        let exact := Z.shiftl q (- e) =? Zpos m in
        if s then binary_normalize prec emax (- (if exact then q else q + 1)) 0 true
        else binary_normalize prec emax q 0 false
  | _ => x
  end.

(** The integer part of a finite number (truncation towards zero). *)
Definition trunc (x : float) : option Z :=
  match x with
  | S754_zero _ => Some 0
  | S754_finite s m e =>
      let a := if 0 <=? e then Z.shiftl (Zpos m) e else Z.shiftr (Zpos m) (- e) in
      Some (if s then - a else a)
  | _ => None
  end.

End F64.

Abbreviation float := F64.float.

(** ** Exceptions and results *)

Inductive exn : Set :=
  | AreaSizeError | SpaceStepError | ScValueError
  | TimeDurationError | TimeStepError | BoundaryTypeError
  | ZeroDivisionError | ValueError | OverflowError
  | IndexError | TypeError | AttributeError.

(** The five errors of the constructor's validation. *)
Definition is_validation_error (e : exn) : bool :=
  match e with
  | AreaSizeError | SpaceStepError | ScValueError
  | TimeDurationError | TimeStepError => true
  | _ => false
  end.

Inductive Res (A : Type) : Type :=
  | Ok (a : A)
  | Raise (e : exn).
Arguments Ok {A} a.
Arguments Raise {A} e.

Definition res_bind {A B} (f : A -> Res B) (r : Res A) : Res B :=
  match r with Ok a => f a | Raise e => Raise e end.

#[global] Instance res_ret : MRet Res := fun _ a => Ok a.
#[global] Instance res_mbind : MBind Res := fun _ _ f r => res_bind f r.

(** ** Python's operators on numbers *)

(** A Python number: a [float] or an [int] ([bool] is a subclass of [int]
    and behaves as the integers 0 and 1). *)
Inductive pynum : Type :=
  | PFloat (x : float)
  | PInt (z : Z).

Module Py.

(** int -> float conversion, as the arithmetic operators do it. *)
Definition float_of_int (z : Z) : Res float :=
  let x := F64.of_Z z in
  if F64.is_infinity x then Raise OverflowError else Ok x.

Definition to_float (a : pynum) : Res float :=
  match a with PFloat x => Ok x | PInt z => float_of_int z end.

(** [a / b] on floats. *)
Definition truediv (a b : float) : Res float :=
  if F64.eqb b F64.zero then Raise ZeroDivisionError else Ok (F64.div a b).

(** C truth value of a double: [if (x)]. *)
Definition truthy (x : float) : bool := negb (F64.eqb x F64.zero).

(** CPython's [_float_div_mod], quotient part. *)
Definition float_div_mod (vx wx : float) : float :=
  let mod_ := F64.fmod vx wx in
  let div := F64.div (F64.sub vx mod_) wx in
  let div :=
    if truthy mod_ then
      if negb (eqb (F64.ltb wx F64.zero) (F64.ltb mod_ F64.zero))
      then F64.sub div F64.one else div
    else div in
  if truthy div then
    let floordiv := F64.floor div in
    if F64.ltb F64.half (F64.sub div floordiv)
    then F64.add floordiv F64.one else floordiv
  else S754_zero (F64.sign_bit (F64.div vx wx)).

(** [a // b] with a float divisor ([float_floor_div]). *)
Definition floordiv (a : pynum) (b : float) : Res float :=
  vx ← to_float a;
  if F64.eqb b F64.zero then Raise ZeroDivisionError
  else Ok (float_div_mod vx b).

(** [int(x)] on a float. *)
Definition int (x : float) : Res Z :=
  match F64.trunc x with
  | Some z => Ok z
  | None => if F64.is_nan x then Raise ValueError else Raise OverflowError
  end.

(** [int(a // b)]. *)
Definition int_floordiv (a : pynum) (b : float) : Res Z :=
  q ← floordiv a b; int q.

(** [int(a / b)]. *)
Definition int_truediv (a b : float) : Res Z :=
  q ← truediv a b; int q.

(** [str(n)] for a length. *)
Definition str (n : nat) : string := NilZero.string_of_uint (Nat.to_uint n).

End Py.

(** ** One-dimensional NumPy arrays *)

Module Np.

Abbreviation array := (list float).

(** Position of index [i] in a sequence of length [n]; negative indices
    count from the end, anything else out of range is an [IndexError]. *)
Definition index (n : nat) (i : Z) : option nat :=
  let len := Z.of_nat n in
  if (0 <=? i) && (i <? len) then Some (Z.to_nat i)
  else if (- len <=? i) && (i <? 0) then Some (Z.to_nat (i + len))
  else None.

(** [a[i]] *)
Definition getitem (a : array) (i : Z) : Res float :=
  match index (length a) i with
  | Some k => match a !! k with Some x => Ok x | None => Raise IndexError end
  | None => Raise IndexError
  end.

(** [a[i] = v] *)
Definition setitem (a : array) (i : Z) (v : float) : Res array :=
  match index (length a) i with
  | Some k => Ok (<[k:=v]> a)
  | None => Raise IndexError
  end.

(** A slice bound clipped to the sequence, as [slice.indices] does for
    step 1; [dflt] stands for an omitted bound. *)
Definition bound (n : nat) (dflt : nat) (i : option Z) : nat :=
  match i with
  | None => dflt
  | Some i =>
      let len := Z.of_nat n in
      Z.to_nat (if i <? 0 then Z.max 0 (i + len) else Z.min i len)
  end.

(** [a[start:stop]] *)
Definition slice {A} (start stop : option Z) (a : list A) : list A :=
  let b := bound (length a) 0 start in
  let e := bound (length a) (length a) stop in
  take (e - b) (drop b a).

(** Whether position [i] lies in [start:stop] of a sequence of length [n]. *)
Definition in_slice (n : nat) (start stop : option Z) (i : nat) : bool :=
  (bound n 0 start <=? i)%nat && (i <? bound n n stop)%nat.

(** [a[start:stop] = v] for a scalar [v]. *)
Definition setslice_scalar {A} (start stop : option Z) (v : A) (a : list A) : list A :=
  let b := bound (length a) 0 start in
  let e := bound (length a) (length a) stop in
  if (b <? e)%nat then take b a ++ replicate (e - b) v ++ drop e a else a.

(** [a[start:stop] = rhs] for an array [rhs]: the shapes must agree, a
    one-element [rhs] is broadcast. *)
Definition setslice (start stop : option Z) (rhs : array) (a : array) : Res array :=
  let b := bound (length a) 0 start in
  let e := bound (length a) (length a) stop in
  let n := (e - b)%nat in
  if (length rhs =? n)%nat then
    if (b <? e)%nat then Ok (take b a ++ rhs ++ drop e a) else Ok a
  else match rhs with
       | [x] => Ok (setslice_scalar start stop x a)
       | _ => Raise ValueError
       end.

(** An elementwise binary operation on two arrays, with broadcasting. *)
Definition map2 (f : float -> float -> float) (a b : array) : Res array :=
  if (length a =? length b)%nat then Ok (zip_with f a b)
  else match a, b with
       | [x], _ => Ok (map (f x) b)
       | _, [y] => Ok (map (fun x => f x y) a)
       | _, _ => Raise ValueError
       end.

Definition add := map2 F64.add.
Definition sub := map2 F64.sub.
Definition mul := map2 F64.mul.
Definition div := map2 F64.div.

(** array (op) scalar and scalar (op) array *)
Definition rscalar (f : float -> float -> float) (a : array) (s : float) : array :=
  map (fun x => f x s) a.
Definition lscalar (f : float -> float -> float) (s : float) (a : array) : array :=
  map (f s) a.

(** [np.zeros(n)], [np.ones(n)] *)
Definition full (v : float) (n : Z) : Res array :=
  if n <? 0 then Raise ValueError else Ok (replicate (Z.to_nat n) v).
Definition zeros := full F64.zero.
Definition ones := full F64.one.

End Np.

(** [list.pop(i)] for a non-negative index. *)
Definition list_pop {A} (i : nat) (l : list A) : Res (list A) :=
  if (i <? length l)%nat then Ok (delete i l) else Raise IndexError.

(** ** The collaborating objects *)

(** Objects created by the caller are named by references into a store. *)
Abbreviation ref := nat.

Module Layer.
(** Modelled from the spec: the class [Layer] of [layer.py], which is not under
    [src/]. "Layer: name, area: (start, end) physical-length pair, eps, mu,
    sigma scalar material values." *)
Record t : Type := mk {
  name : string;
  area : float * float;
  eps : float;
  mu : float;
  sigma : float }.

Definition set_name (v : string) (l : t) : t :=
  mk v (area l) (eps l) (mu l) (sigma l).
End Layer.

Module Source.
(** Modelled from the spec: the class [Source] of [source.py], which is not
    under [src/]. "Source: position (physical length, converted to grid index
    at registration time), cached eps, mu, Sc, dt snapshotted from the Grid
    State at registration time, and an excitation function producing a field
    value given a fractional spatial offset and a (possibly fractional) time
    index."  [waveform] is that function, which may read every attribute of
    its object; the cached attributes hold whatever the constructor left
    there until [add_source] assigns them. *)
Record t : Type := mk {
  position : pynum;
  eps : float;
  mu : float;
  Sc : float;
  dt : float;
  waveform : pynum -> float -> float -> float -> float -> float -> float -> float }.

Definition set_position (v : pynum) (s : t) : t :=
  mk v (eps s) (mu s) (Sc s) (dt s) (waveform s).
Definition set_eps (v : float) (s : t) : t :=
  mk (position s) v (mu s) (Sc s) (dt s) (waveform s).
Definition set_mu (v : float) (s : t) : t :=
  mk (position s) (eps s) v (Sc s) (dt s) (waveform s).
Definition set_Sc (v : float) (s : t) : t :=
  mk (position s) (eps s) (mu s) v (dt s) (waveform s).
Definition set_dt (v : float) (s : t) : t :=
  mk (position s) (eps s) (mu s) (Sc s) v (waveform s).

(** Modelled from the spec: the method [Source.E(offset, time)], a pure
    function of the object's attributes and its two arguments. *)
Definition E (s : t) (offset time : float) : float :=
  waveform s (position s) (eps s) (mu s) (Sc s) (dt s) offset time.

(** An attribute used as an array index must be an [int]. *)
Definition index (s : t) : Res Z :=
  match position s with PInt z => Ok z | PFloat _ => Raise IndexError end.
End Source.

Module Probe.
(** Modelled from the spec: the class [Probe] of [probe.py], which is not under
    [src/]. "Probe: position (grid index), a preallocated time series of
    length time_counts storing sampled (E,H) pairs ... filled incrementally
    one sample per step." *)
Record t : Type := mk {
  position : Z;
  series : list (float * float);
  filled : nat }.

(** Modelled from the spec: the constructor [Probe(position, time_counts)],
    which preallocates a series of length [time_counts]. *)
Definition new (position time_counts : Z) : t :=
  mk position (replicate (Z.to_nat time_counts) (F64.zero, F64.zero)) 0.

(** Modelled from the spec: the method [Probe.add_data(E, H)], which stores
    the pair sampled at the probe's position as the next entry of the
    series. *)
Definition add_data (E H : Np.array) (p : t) : Res t :=
  e ← Np.getitem E (position p);
  h ← Np.getitem H (position p);
  if (filled p <? length (series p))%nat
  then Ok (mk (position p) (<[filled p := (e, h)]> (series p)) (S (filled p)))
  else Raise IndexError.
End Probe.

Inductive Edge : Set := LeftEdge | RightEdge.

Module ABCBase.
(** Modelled from the spec: the class [ABCBase] of [boundary.py], which is not
    under [src/]. "An absorbing boundary maintains internal history of recent
    neighboring field values and a coefficient derived from local eps, mu,
    Sc."  The three rules are those of the concrete subclass. *)
Record t : Type := mk {
  edge : Edge;
  eps : float;
  mu : float;
  Sc : float;
  coefficient : float;
  history : list float;
  coefficient_rule : float -> float -> float -> float;
  edge_rule : float -> list float -> Np.array -> Np.array -> float;
  history_rule : list float -> Np.array -> Np.array -> list float }.

Definition set_eps (v : float) (b : t) : t :=
  mk (edge b) v (mu b) (Sc b) (coefficient b) (history b)
     (coefficient_rule b) (edge_rule b) (history_rule b).
Definition set_mu (v : float) (b : t) : t :=
  mk (edge b) (eps b) v (Sc b) (coefficient b) (history b)
     (coefficient_rule b) (edge_rule b) (history_rule b).
Definition set_Sc (v : float) (b : t) : t :=
  mk (edge b) (eps b) (mu b) v (coefficient b) (history b)
     (coefficient_rule b) (edge_rule b) (history_rule b).

(** Modelled from the spec: [b.update_coefficient()], which recomputes the
    coefficient from the object's [eps], [mu] and [Sc]. *)
Definition update_coefficient (b : t) : t :=
  mk (edge b) (eps b) (mu b) (Sc b)
     (coefficient_rule b (eps b) (mu b) (Sc b)) (history b)
     (coefficient_rule b) (edge_rule b) (history_rule b).

Definition edge_index (b : t) : Z :=
  match edge b with LeftEdge => 0 | RightEdge => -1 end.

(** Modelled from the spec: [update_field] of an absorbing boundary, which
    "computes a new edge value from its retained history of nearby field
    values and its coefficient, then updates its retained history for the
    next call". *)
Definition update_field (E H : Np.array) (b : t) : Res (Np.array * t) :=
  E' ← Np.setitem E (edge_index b) (edge_rule b (coefficient b) (history b) E H);
  Ok (E', mk (edge b) (eps b) (mu b) (Sc b) (coefficient b)
              (history_rule b (history b) E' H)
              (coefficient_rule b) (edge_rule b) (history_rule b)).
End ABCBase.

(** Modelled from the spec: the classes of [boundary.py], which is not under
    [src/]: each edge is "one of the variants fixed-value (sets edge field to
    zero, stateless), absorbing".  [PEC LeftEdge] is [PECLeft()], [PEC
    RightEdge] is [PECRight()]; [NotBoundary] stands for an object that is no
    [Boundary] at all, which the setters accept.  The two boundary objects
    are held by value: the default ones are stateless, and one absorbing
    object is not shared between the two edges. *)
Inductive Boundary : Type :=
  | PEC (e : Edge)
  | ABC (b : ABCBase.t)
  | NotBoundary.

Definition PECLeft : Boundary := PEC LeftEdge.
Definition PECRight : Boundary := PEC RightEdge.

(** Modelled from the spec: [boundary.update_field(E, H)], which writes into
    [E] in place: "a fixed-value boundary sets its edge element of E to zero
    (stateless)"; an object without that method raises. *)
Definition update_field (E H : Np.array) (b : Boundary) : Res (Np.array * Boundary) :=
  match b with
  | PEC LeftEdge => E' ← Np.setitem E 0 F64.zero; Ok (E', b)
  | PEC RightEdge => E' ← Np.setitem E (-1) F64.zero; Ok (E', b)
  | ABC a => '(E', a') ← ABCBase.update_field E H a; Ok (E', ABC a')
  | NotBoundary => Raise AttributeError
  end.

Module Boundaries.
Record t : Type := mk {
  left : Boundary;
  right : Boundary }.
End Boundaries.

(** ** The engine object and the world around it *)

(** The attributes [analyze] creates; they do not exist before it has run.
    [current_time] starts as the int [0], which every operator applied to it
    converts to the float [0.0]; the timer is kept as the flag
    [timer_active]. *)
Record RunAttrs : Type := mkRun {
  ceze : Np.array;
  cezh : Np.array;
  current_time : float;
  timer_active : bool }.

(** The attributes of an [FDTD] instance ([self.__dx] is [dx], ...).  The
    display and the progress bar are rendering collaborators and carry no
    simulation state.  [sources] and [layers] hold references to the
    caller's objects; the probes are created by the engine itself and are
    held by value. *)
Record FDTD : Type := mkFDTD {
  dx : float;
  area_size : Z;
  Sc : float;
  time_duration : float;
  dt : float;
  time_counts : Z;
  E : Np.array;
  H : Np.array;
  eps : Np.array;
  sigma : Np.array;
  mu : Np.array;
  borders : list float;
  boundary : Boundaries.t;
  sources : list ref;
  probes : list Probe.t;
  layers : list ref;
  run : option RunAttrs }.

Definition set_E (v : Np.array) (s : FDTD) : FDTD :=
  mkFDTD (dx s) (area_size s) (Sc s) (time_duration s) (dt s) (time_counts s)
    v (H s) (eps s) (sigma s) (mu s) (borders s) (boundary s) (sources s)
    (probes s) (layers s) (run s).
Definition set_H (v : Np.array) (s : FDTD) : FDTD :=
  mkFDTD (dx s) (area_size s) (Sc s) (time_duration s) (dt s) (time_counts s)
    (E s) v (eps s) (sigma s) (mu s) (borders s) (boundary s) (sources s)
    (probes s) (layers s) (run s).
Definition set_eps (v : Np.array) (s : FDTD) : FDTD :=
  mkFDTD (dx s) (area_size s) (Sc s) (time_duration s) (dt s) (time_counts s)
    (E s) (H s) v (sigma s) (mu s) (borders s) (boundary s) (sources s)
    (probes s) (layers s) (run s).
Definition set_sigma (v : Np.array) (s : FDTD) : FDTD :=
  mkFDTD (dx s) (area_size s) (Sc s) (time_duration s) (dt s) (time_counts s)
    (E s) (H s) (eps s) v (mu s) (borders s) (boundary s) (sources s)
    (probes s) (layers s) (run s).
Definition set_mu (v : Np.array) (s : FDTD) : FDTD :=
  mkFDTD (dx s) (area_size s) (Sc s) (time_duration s) (dt s) (time_counts s)
    (E s) (H s) (eps s) (sigma s) v (borders s) (boundary s) (sources s)
    (probes s) (layers s) (run s).
Definition set_borders (v : list float) (s : FDTD) : FDTD :=
  mkFDTD (dx s) (area_size s) (Sc s) (time_duration s) (dt s) (time_counts s)
    (E s) (H s) (eps s) (sigma s) (mu s) v (boundary s) (sources s)
    (probes s) (layers s) (run s).
Definition set_boundary (v : Boundaries.t) (s : FDTD) : FDTD :=
  mkFDTD (dx s) (area_size s) (Sc s) (time_duration s) (dt s) (time_counts s)
    (E s) (H s) (eps s) (sigma s) (mu s) (borders s) v (sources s)
    (probes s) (layers s) (run s).
Definition set_sources (v : list ref) (s : FDTD) : FDTD :=
  mkFDTD (dx s) (area_size s) (Sc s) (time_duration s) (dt s) (time_counts s)
    (E s) (H s) (eps s) (sigma s) (mu s) (borders s) (boundary s) v
    (probes s) (layers s) (run s).
Definition set_probes (v : list Probe.t) (s : FDTD) : FDTD :=
  mkFDTD (dx s) (area_size s) (Sc s) (time_duration s) (dt s) (time_counts s)
    (E s) (H s) (eps s) (sigma s) (mu s) (borders s) (boundary s) (sources s)
    v (layers s) (run s).
Definition set_layers (v : list ref) (s : FDTD) : FDTD :=
  mkFDTD (dx s) (area_size s) (Sc s) (time_duration s) (dt s) (time_counts s)
    (E s) (H s) (eps s) (sigma s) (mu s) (borders s) (boundary s) (sources s)
    (probes s) v (run s).
Definition set_run (v : option RunAttrs) (s : FDTD) : FDTD :=
  mkFDTD (dx s) (area_size s) (Sc s) (time_duration s) (dt s) (time_counts s)
    (E s) (H s) (eps s) (sigma s) (mu s) (borders s) (boundary s) (sources s)
    (probes s) (layers s) v.

(** The store of caller-created objects together with the engine. *)
Record World : Type := mkWorld {
  layer_objs : gmap ref Layer.t;
  source_objs : gmap ref Source.t;
  self : FDTD }.

(** ** Methods as state transformers

    A method call takes the world to a new world and either returns a value
    or raises; what was mutated before an exception stays mutated. *)

Definition M (A : Type) : Type := World -> World * Res A.

Definition m_ret {A} (a : A) : M A := fun w => (w, Ok a).
Definition m_bind {A B} (f : A -> M B) (m : M A) : M B :=
  fun w => match m w with
           | (w', Ok a) => f a w'
           | (w', Raise e) => (w', Raise e)
           end.

#[global] Instance M_ret : MRet M := @m_ret.
#[global] Instance M_bind : MBind M := @m_bind.

Definition lift {A} (r : Res A) : M A := fun w => (w, r).
Definition raise {A} (e : exn) : M A := lift (Raise e).
(** Read an attribute of [self]. *)
Definition attr {A} (f : FDTD -> A) : M A := fun w => (w, Ok (f (self w))).
(** Assign attributes of [self]. *)
Definition assign (f : FDTD -> FDTD) : M unit :=
  fun w => (mkWorld (layer_objs w) (source_objs w) (f (self w)), Ok tt).

(** Reading through a reference.  The references the engine holds always
    name an object; one that does not is answered with [AttributeError]. *)
Definition deref_layer (r : ref) : M Layer.t :=
  fun w => (w, match layer_objs w !! r with
               | Some l => Ok l
               | None => Raise AttributeError
               end).
Definition deref_source (r : ref) : M Source.t :=
  fun w => (w, match source_objs w !! r with
               | Some l => Ok l
               | None => Raise AttributeError
               end).
Definition mutate_layer (r : ref) (f : Layer.t -> Layer.t) : M unit :=
  fun w => (mkWorld (alter f r (layer_objs w)) (source_objs w) (self w), Ok tt).
Definition mutate_source (r : ref) (f : Source.t -> Source.t) : M unit :=
  fun w => (mkWorld (layer_objs w) (alter f r (source_objs w)) (self w), Ok tt).

(** [for x in l: body(x)] *)
Fixpoint for_each {A} (l : list A) (body : A -> M unit) : M unit :=
  match l with
  | [] => mret tt
  | x :: l' => _ ← body x; for_each l' body
  end.

(** The attributes [analyze] creates, or the [AttributeError] of reading one
    that does not exist yet. *)
Definition run_attrs : M RunAttrs :=
  fun w => (w, match run (self w) with
               | Some r => Ok r
               | None => Raise AttributeError
               end).

(** A value passed where the engine expects probe positions. *)
#[warnings="-register-all"]
Inductive pyval : Type :=
  | PyNum (n : pynum)
  | PyStr (s : string)
  | PyBytes (s : string)
  | PyNone
  | PyList (l : list pyval)
  | PyTuple (l : list pyval).

(** [case float():] matches instances of [float]. *)
Definition matches_float (v : pyval) : bool :=
  match v with PyNum (PFloat _) => true | _ => false end.

(** [case [*args]:] matches sequences other than [str], [bytes] and
    [bytearray]. *)
Definition matches_sequence (v : pyval) : bool :=
  match v with PyList _ | PyTuple _ => true | _ => false end.

(** ** The platform: constants and the power function *)

(** [constants.py] is not under [src/]: the speed of light [c] and the vacuum
    wave impedance [W_0] are taken as given, [c] being non-zero.  [pow_half x]
    is [x ** .5], the platform's power function at exponent one half. *)
Class Platform : Type := {
  W_0 : float;
  c : float;
  pow_half : float -> float;
  c_nonzero : F64.eqb c F64.zero = false }.

Definition gtb (x y : float) : bool := F64.ltb y x.

Section Engine.
Context `{Platform}.

(** *** Construction and validation *)

Definition validate_area (area_size space_step : float) : Res bool :=
  if F64.leb area_size F64.zero then Raise AreaSizeError
  else if gtb space_step area_size then Raise SpaceStepError
  else Ok true.

Definition validate_time (space_step time_duration Sc : float) : Res bool :=
  if F64.leb time_duration F64.zero then Raise TimeDurationError
  else
    dt ← Py.truediv (F64.mul space_step Sc) c;
    if gtb dt time_duration then Raise TimeStepError
    else Ok true.

Definition validate_Sc (Sc : float) : Res unit :=
  if F64.leb Sc F64.zero then Raise ScValueError else Ok tt.

Definition validate_init_data (area_size space_step time_duration Sc : float)
  : Res bool :=
  _ ← validate_area area_size space_step;
  _ ← validate_Sc Sc;
  _ ← validate_time space_step time_duration Sc;
  Ok true.

(** [FDTD(area_size, space_step, time_duration, Sc)]; memory is unbounded,
    so an allocation fails for a negative size only. *)
Definition FDTD_init (area_size space_step time_duration Sc : float) : Res FDTD :=
  _ ← validate_init_data area_size space_step time_duration Sc;
  let dx := space_step in
  n ← Py.int_floordiv (PFloat area_size) dx;
  dt ← Py.truediv (F64.mul dx Sc) c;
  time_counts ← Py.int_floordiv (PFloat time_duration) dt;
  E ← Np.zeros n;
  H ← Np.zeros (n - 1);
  eps ← Np.ones n;
  sigma ← Np.zeros n;
  mu ← Np.ones (n - 1);
  Ok (mkFDTD dx n Sc time_duration dt time_counts E H eps sigma mu []
        (Boundaries.mk PECLeft PECRight) [] [] [] None).

(** *** Boundaries *)

Definition set_left_boundary (b : Boundary) : M bool :=
  bd ← attr boundary;
  _ ← assign (set_boundary (Boundaries.mk b (Boundaries.right bd)));
  mret true.

Definition set_right_boundary (b : Boundary) : M bool :=
  bd ← attr boundary;
  _ ← assign (set_boundary (Boundaries.mk (Boundaries.left bd) b));
  mret true.

Definition is_boundary (b : Boundary) : bool :=
  match b with NotBoundary => false | _ => true end.

(** The body of [if isinstance(b, ABCBase): ...] for the boundary read by
    [get] and written by [put], whose adjacent grid cell has index [i]. *)
Definition refresh_absorbing (i : Z) (get : Boundaries.t -> Boundary)
    (put : Boundary -> Boundaries.t -> Boundaries.t) : M unit :=
  bd ← attr boundary;
  match get bd with
  | ABC a =>
      eps_ ← attr eps;
      e ← lift (Np.getitem eps_ i);
      let a := ABCBase.set_eps e a in
      _ ← assign (set_boundary (put (ABC a) bd));
      mu_ ← attr mu;
      m ← lift (Np.getitem mu_ i);
      Sc_ ← attr Sc;
      let a := ABCBase.update_coefficient (ABCBase.set_Sc Sc_ (ABCBase.set_mu m a)) in
      assign (set_boundary (put (ABC a) bd))
  | _ => mret tt
  end.

Definition update_boundary : M bool :=
  _ ← refresh_absorbing 0 Boundaries.left
        (fun b bd => Boundaries.mk b (Boundaries.right bd));
  _ ← refresh_absorbing (-1) Boundaries.right
        (fun b bd => Boundaries.mk (Boundaries.left bd) b);
  bd ← attr boundary;
  if negb (is_boundary (Boundaries.left bd)) || negb (is_boundary (Boundaries.right bd))
  then raise BoundaryTypeError
  else mret true.

(** *** Starting a run *)

(** [(1 - sigma) / (1 + sigma)] *)
Definition coeff_ceze (sigma : Np.array) : Res Np.array :=
  Np.div (Np.lscalar F64.sub F64.one sigma) (Np.lscalar F64.add F64.one sigma).

(** [W_0 / (eps * (1 + sigma))] *)
Definition coeff_cezh (eps sigma : Np.array) : Res Np.array :=
  d ← Np.mul eps (Np.lscalar F64.add F64.one sigma);
  Ok (Np.lscalar F64.div W_0 d).

(** [analyze], up to the point where the timer is started; the event loop
    that then calls [next_iteration] on every tick is the external driver. *)
Definition analyze : M bool :=
  _ ← update_boundary;
  sigma_ ← attr sigma;
  eps_ ← attr eps;
  ceze_ ← lift (coeff_ceze sigma_);
  cezh_ ← lift (coeff_cezh eps_ sigma_);
  _ ← assign (set_run (Some (mkRun ceze_ cezh_ F64.zero true)));
  mret true.

(** *** One step *)

(** The body of the first [for source in self.__sources] loop. *)
Definition inject_H (r : RunAttrs) (src_ref : ref) : M unit :=
  src ← deref_source src_ref;
  p ← lift (Source.index src);
  H_ ← attr H;
  old ← lift (Np.getitem H_ (p - 1));
  Sc_ ← attr Sc;
  mu_ ← attr mu;
  m ← lift (Np.getitem mu_ (p - 1));
  dt_ ← attr dt;
  t ← lift (Py.truediv (current_time r) dt_);
  let v := F64.mul (F64.div Sc_ (F64.mul W_0 m)) (Source.E src F64.zero t) in
  H' ← lift (Np.setitem H_ (p - 1) (F64.sub old v));
  assign (set_H H').

(** The body of the second [for source in self.__sources] loop. *)
Definition inject_E (r : RunAttrs) (src_ref : ref) : M unit :=
  src ← deref_source src_ref;
  p ← lift (Source.index src);
  E_ ← attr E;
  old ← lift (Np.getitem E_ p);
  Sc_ ← attr Sc;
  eps_ ← attr eps;
  e ← lift (Np.getitem eps_ p);
  mu_ ← attr mu;
  m ← lift (Np.getitem mu_ p);
  dt_ ← attr dt;
  t ← lift (Py.truediv (current_time r) dt_);
  let v := F64.mul (F64.div Sc_ (pow_half (F64.mul e m)))
             (Source.E src (SFopp F64.half) (F64.add t F64.half)) in
  E' ← lift (Np.setitem E_ p (F64.add old v));
  assign (set_E E').

(** [boundary.update_field(self.__E, self.__H)] for one edge. *)
Definition update_left : M unit :=
  bd ← attr boundary; E_ ← attr E; H_ ← attr H;
  '(E', b') ← lift (update_field E_ H_ (Boundaries.left bd));
  _ ← assign (set_E E');
  assign (set_boundary (Boundaries.mk b' (Boundaries.right bd))).

Definition update_right : M unit :=
  bd ← attr boundary; E_ ← attr E; H_ ← attr H;
  '(E', b') ← lift (update_field E_ H_ (Boundaries.right bd));
  _ ← assign (set_E E');
  assign (set_boundary (Boundaries.mk (Boundaries.left bd) b')).

(** [for probe in self.__probes: probe.add_data(E, H)]: the probes before
    the one that raises keep their new sample. *)
Fixpoint probes_add_data (E H : Np.array) (ps : list Probe.t)
  : list Probe.t * Res unit :=
  match ps with
  | [] => ([], Ok tt)
  | p :: ps' =>
      match Probe.add_data E H p with
      | Ok p' => let '(ps'', r) := probes_add_data E H ps' in (p' :: ps'', r)
      | Raise e => (p :: ps', Raise e)
      end
  end.

Definition sample_probes : M unit :=
  E_ ← attr E; H_ ← attr H; ps ← attr probes;
  let '(ps', r) := probes_add_data E_ H_ ps in
  _ ← assign (set_probes ps');
  lift r.

Definition next_iteration : M bool :=
  r ← run_attrs;
  dt_ ← attr dt;
  k ← lift (Py.int_floordiv (PFloat (current_time r)) dt_);
  time_counts_ ← attr time_counts;
  if k <? time_counts_ then
    (* self.__H = self.__H + (E[1:] - E[:-1]) * Sc / (W_0 * mu) *)
    H_ ← attr H; E_ ← attr E; Sc_ ← attr Sc; mu_ ← attr mu;
    dE ← lift (Np.sub (Np.slice (Some 1) None E_) (Np.slice None (Some (-1)) E_));
    q ← lift (Np.div (Np.rscalar F64.mul dE Sc_) (Np.lscalar F64.mul W_0 mu_));
    H' ← lift (Np.add H_ q);
    _ ← assign (set_H H');
    srcs ← attr sources;
    _ ← for_each srcs (inject_H r);
    (* self.__E[1:-1] = ceze[1:-1] * E[1:-1] + (H[1:] - H[:-1]) * Sc * cezh[1:-1] *)
    E_ ← attr E; H_ ← attr H;
    a ← lift (Np.mul (Np.slice (Some 1) (Some (-1)) (ceze r))
                     (Np.slice (Some 1) (Some (-1)) E_));
    dH ← lift (Np.sub (Np.slice (Some 1) None H_) (Np.slice None (Some (-1)) H_));
    b ← lift (Np.mul (Np.rscalar F64.mul dH Sc_)
                     (Np.slice (Some 1) (Some (-1)) (cezh r)));
    rhs ← lift (Np.add a b);
    E' ← lift (Np.setslice (Some 1) (Some (-1)) rhs E_);
    _ ← assign (set_E E');
    _ ← update_left;
    _ ← update_right;
    srcs ← attr sources;
    _ ← for_each srcs (inject_E r);
    _ ← sample_probes;
    _ ← assign (set_run
           (Some (mkRun (ceze r) (cezh r) (F64.add (current_time r) dt_)
                        (timer_active r))));
    mret true
  else
    (* self.timer.stop() *)
    _ ← assign (set_run (Some (mkRun (ceze r) (cezh r) (current_time r) false)));
    mret true.

(** *** Registration *)

(** [self.__probes.append(Probe(int(position // self.__dx), self.__time_counts))] *)
Definition append_probe (position : pynum) : M unit :=
  dx_ ← attr dx;
  i ← lift (Py.int_floordiv position dx_);
  time_counts_ ← attr time_counts;
  ps ← attr probes;
  assign (set_probes (ps ++ [Probe.new i time_counts_])).

Definition add_probes (probes_position : pyval) : M bool :=
  _ ← match probes_position with
      | PyNum (PFloat x) => append_probe (PFloat x)
      | PyList args | PyTuple args =>
          for_each args (fun probe_position =>
            match probe_position with
            | PyNum n => append_probe n
            | _ => raise TypeError
            end)
      | _ => raise TypeError
      end;
  mret true.

Definition add_source (source : ref) : M bool :=
  src ← deref_source source;
  dx_ ← attr dx;
  i ← lift (Py.int_floordiv (Source.position src) dx_);
  _ ← mutate_source source (Source.set_position (PInt i));
  eps_ ← attr eps;
  e ← lift (Np.getitem eps_ i);
  _ ← mutate_source source (Source.set_eps e);
  mu_ ← attr mu;
  m ← lift (Np.getitem mu_ i);
  _ ← mutate_source source (Source.set_mu m);
  Sc_ ← attr Sc;
  _ ← mutate_source source (Source.set_Sc Sc_);
  dt_ ← attr dt;
  _ ← mutate_source source (Source.set_dt dt_);
  srcs ← attr sources;
  _ ← assign (set_sources (srcs ++ [source]));
  mret true.

(** [begin, end = int(layer.area[0] / dx), int(layer.area[1] / dx)] *)
Definition layer_range (l : Layer.t) : M (Z * Z) :=
  dx_ ← attr dx;
  b ← lift (Py.int_truediv (Layer.area l).1 dx_);
  e ← lift (Py.int_truediv (Layer.area l).2 dx_);
  mret (b, e).

(** The three slice assignments of [add_layer] and [delete_layer]. *)
Definition fill_range (b e : Z) (eps' mu' sigma' : float) : M unit :=
  eps_ ← attr eps;
  _ ← assign (set_eps (Np.setslice_scalar (Some b) (Some e) eps' eps_));
  mu_ ← attr mu;
  _ ← assign (set_mu (Np.setslice_scalar (Some b) (Some e) mu' mu_));
  sigma_ ← attr sigma;
  assign (set_sigma (Np.setslice_scalar (Some b) (Some e) sigma' sigma_)).

Definition layer_name (n : nat) : string := "Layer" +:+ Py.str n.

Definition add_layer (layer : ref) : M bool :=
  ls ← attr layers;
  _ ← deref_layer layer;
  _ ← mutate_layer layer (Layer.set_name (layer_name (length ls)));
  _ ← assign (set_layers (ls ++ [layer]));
  l ← deref_layer layer;
  '(b, e) ← layer_range l;
  _ ← fill_range b e (Layer.eps l) (Layer.mu l) (Layer.sigma l);
  bs ← attr borders;
  _ ← assign (set_borders (bs ++ [(Layer.area l).1]));
  bs ← attr borders;
  _ ← assign (set_borders (bs ++ [(Layer.area l).2]));
  mret true.

(** The body of [if layer.name == name:] for the layer at index [i]. *)
Definition remove_layer (i : nat) (l : Layer.t) : M unit :=
  '(b, e) ← layer_range l;
  _ ← fill_range b e F64.one F64.one F64.zero;
  bs ← attr borders;
  bs' ← lift (list_pop (2 * i + 1) bs);
  _ ← assign (set_borders bs');
  bs ← attr borders;
  bs' ← lift (list_pop (2 * i) bs);
  _ ← assign (set_borders bs');
  ls ← attr layers;
  ls' ← lift (list_pop i ls);
  assign (set_layers ls').

(** [for i, layer in enumerate(self.__layers): if layer.name == name: ...; break],
    over the entries from index [i] on. *)
Fixpoint delete_from (name : string) (i : nat) (rest : list ref) : M unit :=
  match rest with
  | [] => mret tt
  | r :: rest' =>
      l ← deref_layer r;
      if String.eqb (Layer.name l) name then remove_layer i l
      else delete_from name (S i) rest'
  end.

Definition delete_layer (name : string) : M bool :=
  ls ← attr layers;
  _ ← delete_from name 0 ls;
  mret true.

End Engine.

(** The world after a method call, whatever it returned. *)
Definition exec {A} (m : M A) (w : World) : World := (m w).1.

(** [preserves f m]: whatever [m] does, and whether or not it raises, the
    observation [f] of the world is the same afterwards. *)
Definition preserves {A B} (f : World -> B) (m : M A) : Prop :=
  forall w w' r, m w = (w', r) -> f w' = f w.

(** ** The vocabulary of the statements *)

Section Statements.
Context `{Platform}.

(** The derived time step [space_step * Sc / c] (the division cannot raise,
    [c] being non-zero). *)
Definition derived_dt (space_step Sc : float) : float :=
  F64.div (F64.mul space_step Sc) c.





(** The array lengths of a grid of size [area_size]. *)
Definition grid_lengths (st : FDTD) : Prop :=
  Z.of_nat (length (E st)) = area_size st /\
  Z.of_nat (length (eps st)) = area_size st /\
  Z.of_nat (length (sigma st)) = area_size st /\
  Z.of_nat (length (H st)) = area_size st - 1 /\
  Z.of_nat (length (mu st)) = area_size st - 1.

(** Every reference the engine holds names an object of the store. *)
Definition store_ok (w : World) : Prop :=
  Forall (fun r => is_Some (layer_objs w !! r)) (layers (self w)) /\
  Forall (fun r => is_Some (source_objs w !! r)) (sources (self w)).

(** No registered layer is called [name]. *)
Definition name_unused (name : string) (w : World) : Prop :=
  forall r l, r ∈ layers (self w) -> layer_objs w !! r = Some l ->
              Layer.name l <> name.

(** [new] is [old] with the entries of [start:stop] set to [v]. *)
Definition filled_with (start stop : option Z) (v : float) (old new : Np.array)
  : Prop :=
  length new = length old /\
  forall i : nat,
    new !! i = if Np.in_slice (length old) start stop i then Some v else old !! i.

(** The grid holds the vacuum values (1, 1, 0) over [b:e]. *)
Definition vacuum_over (b e : Z) (s : FDTD) : Prop :=
  (forall i x, Np.in_slice (length (eps s)) (Some b) (Some e) i = true ->
               eps s !! i = Some x -> x = F64.one) /\
  (forall i x, Np.in_slice (length (mu s)) (Some b) (Some e) i = true ->
               mu s !! i = Some x -> x = F64.one) /\
  (forall i x, Np.in_slice (length (sigma s)) (Some b) (Some e) i = true ->
               sigma s !! i = Some x -> x = F64.zero).

(** Entry [i] of an array ([0.0] beyond its end, where no formula below
    reads it). *)
Definition entry (a : Np.array) (i : nat) : float := default F64.zero (a !! i).

(** Operation 1 in the spec's words, entry by entry:
    [H[i] + (E[i+1] - E[i]) * Sc / (W_0 * mu[i])] over the whole array. *)
Definition yee_H (s : FDTD) : Np.array :=
  imap (fun i h =>
          F64.add h
            (F64.div (F64.mul (F64.sub (entry (E s) (S i)) (entry (E s) i)) (Sc s))
                     (F64.mul W_0 (entry (mu s) i))))
       (H s).

(** Operation 3 in the spec's words, entry by entry: an interior entry
    becomes [ceze[i] * E[i] + (H[i] - H[i-1]) * Sc * cezh[i]], the first
    and the last entry stay. *)
Definition yee_E (r : RunAttrs) (s : FDTD) : Np.array :=
  imap (fun i e =>
          if (0 <? i)%nat && (S i <? length (E s))%nat then
            F64.add (F64.mul (entry (ceze r) i) e)
              (F64.mul (F64.mul (F64.sub (entry (H s) i) (entry (H s) (i - 1))) (Sc s))
                       (entry (cezh r) i))
          else e)
       (E s).

(** Operation 2 in the spec's words, for a source with grid index [p]:
    [H[p - 1]] decreased by
    [Sc / (W_0 * mu[p - 1]) * excitation(0, current_time / dt)]. *)
Definition H_decreased (r : RunAttrs) (s : FDTD) (src : Source.t) (p : Z)
  : Res Np.array :=
  h ← Np.getitem (H s) (p - 1);
  m ← Np.getitem (mu s) (p - 1);
  t ← Py.truediv (current_time r) (dt s);
  Np.setitem (H s) (p - 1)
    (F64.sub h (F64.mul (F64.div (Sc s) (F64.mul W_0 m))
                        (Source.E src F64.zero t))).

(** Operation 5 in the spec's words, for a source with grid index [p]:
    [E[p]] increased by
    [Sc / sqrt(eps[p] * mu[p]) * excitation(-0.5, current_time / dt + 0.5)],
    the square root being the platform's [x ** .5]. *)
Definition E_increased (r : RunAttrs) (s : FDTD) (src : Source.t) (p : Z)
  : Res Np.array :=
  e0 ← Np.getitem (E s) p;
  e ← Np.getitem (eps s) p;
  m ← Np.getitem (mu s) p;
  t ← Py.truediv (current_time r) (dt s);
  Np.setitem (E s) p
    (F64.add e0 (F64.mul (F64.div (Sc s) (pow_half (F64.mul e m)))
                         (Source.E src (SFopp F64.half) (F64.add t F64.half)))).

Definition source_decreases_H (r : RunAttrs) (src_ref : ref) : M unit :=
  src ← deref_source src_ref;
  p ← lift (Source.index src);
  s ← attr id;
  H' ← lift (H_decreased r s src p);
  assign (set_H H').

Definition source_increases_E (r : RunAttrs) (src_ref : ref) : M unit :=
  src ← deref_source src_ref;
  p ← lift (Source.index src);
  s ← attr id;
  E' ← lift (E_increased r s src p);
  assign (set_E E').

(** The seven operations of a step, in the spec's order. *)
Definition op1_update_H : M unit := assign (fun s => set_H (yee_H s) s).
Definition op2_inject_H (r : RunAttrs) : M unit :=
  srcs ← attr sources; for_each srcs (source_decreases_H r).
Definition op3_update_E (r : RunAttrs) : M unit :=
  assign (fun s => set_E (yee_E r s) s).
Definition op4_boundaries : M unit := _ ← update_left; update_right.
Definition op5_inject_E (r : RunAttrs) : M unit :=
  srcs ← attr sources; for_each srcs (source_increases_E r).
Definition op6_probes : M unit := sample_probes.
Definition op7_advance (r : RunAttrs) : M unit :=
  dt_ ← attr dt;
  assign (set_run (Some (mkRun (ceze r) (cezh r)
                           (F64.add (current_time r) dt_) (timer_active r)))).

Definition step_in_order (r : RunAttrs) : M bool :=
  _ ← op1_update_H;
  _ ← op2_inject_H r;
  _ ← op3_update_E r;
  _ ← op4_boundaries;
  _ ← op5_inject_E r;
  _ ← op6_probes;
  _ ← op7_advance r;
  mret true.

(** Operation 4 in the spec's words: the [update_field] of the left
    boundary object runs on [E] and [H], then that of the right one on the
    result; [E] and the two boundary objects are what they return. *)
Definition boundaries_applied (w1 w2 : World) : Prop :=
  exists (E1 : Np.array) (bl br : Boundary),
    update_field (E (self w1)) (H (self w1)) (Boundaries.left (boundary (self w1)))
      = Ok (E1, bl) /\
    update_field E1 (H (self w1)) (Boundaries.right (boundary (self w1)))
      = Ok (E (self w2), br) /\
    w2 = mkWorld (layer_objs w1) (source_objs w1)
           (set_boundary (Boundaries.mk bl br) (set_E (E (self w2)) (self w1))).

(** Operation 6 in the spec's words, for one probe: [p'] is [p] with the
    pair ([E[position]], [H[position]]) stored as the next entry of its
    series. *)
Definition sample_recorded (E_ H_ : Np.array) (p p' : Probe.t) : Prop :=
  exists e h : float,
    Np.getitem E_ (Probe.position p) = Ok e /\
    Np.getitem H_ (Probe.position p) = Ok h /\
    (Probe.filled p < length (Probe.series p))%nat /\
    p' = Probe.mk (Probe.position p)
           (<[Probe.filled p := (e, h)]> (Probe.series p)) (S (Probe.filled p)).

(** ... and for all of them: every probe has recorded its sample of the
    fields, and nothing else has changed. *)
Definition probes_sampled (w1 w2 : World) : Prop :=
  Forall2 (sample_recorded (E (self w1)) (H (self w1)))
    (probes (self w1)) (probes (self w2)) /\
  w2 = mkWorld (layer_objs w1) (source_objs w1)
         (set_probes (probes (self w2)) (self w1)).

(** What the H injections leave alone. *)
Definition frame_H (w : World) :=
  (E (self w), mu (self w), Sc (self w), dt (self w), length (H (self w))).

(** The array shapes of a constructed engine whose run has been started. *)
Definition shapes_ok (r : RunAttrs) (s : FDTD) : Prop :=
  length (E s) = S (length (H s)) /\
  length (mu s) = length (H s) /\
  length (ceze r) = length (E s) /\
  length (cezh r) = length (E s).

(** Every entry is a zero ([+0.0] or [-0.0]). *)
Definition all_zero (a : Np.array) : Prop :=
  Forall (fun x => F64.is_zero x = true) a.

Definition all_finite (a : Np.array) : Prop :=
  Forall (fun x => F64.is_finite x = true) a.

(** The state of the no-source invariant: no sources, zero conductivity,
    the default fixed-value boundaries, all-zero fields, and update
    coefficients as [analyze] computes them from the current [sigma] and
    [eps]. *)
Definition ground_state (w : World) : Prop :=
  sources (self w) = [] /\
  all_zero (sigma (self w)) /\
  boundary (self w) = Boundaries.mk PECLeft PECRight /\
  all_zero (E (self w)) /\
  all_zero (H (self w)) /\
  (forall r, run (self w) = Some r ->
             coeff_ceze (sigma (self w)) = Ok (ceze r) /\
             coeff_cezh (eps (self w)) (sigma (self w)) = Ok (cezh r)).

(** A number one can divide a zero by and get a zero. *)
Definition usable_divisor (d : float) : bool :=
  negb (F64.is_zero d) && negb (F64.is_nan d).

(** The Courant number is finite, every divisor [W_0 * mu[i]] of the H
    update is usable, and every coefficient [cezh[i]] is finite. *)
Definition benign_medium (w : World) : Prop :=
  F64.is_finite (Sc (self w)) = true /\
  Forall (fun m => usable_divisor (F64.mul W_0 m) = true) (mu (self w)) /\
  (forall r, run (self w) = Some r -> all_finite (cezh r)).

(** The world after [n] calls of [next_iteration] by the driver, a call that
    raises leaving the world as it is at that point. *)
Definition after_steps (n : nat) (w : World) : World :=
  Nat.iter n (exec next_iteration) w.

Definition stays_zero (w : World) : Prop :=
  forall n, all_zero (E (self (after_steps n w))) /\
            all_zero (H (self (after_steps n w))).


(** [next_iteration]'s world once the run is over: only the timer changes. *)
Definition timer_stopped (r : RunAttrs) (w : World) : World :=
  mkWorld (layer_objs w) (source_objs w)
    (set_run (Some (mkRun (ceze r) (cezh r) (current_time r) false)) (self w)).

End Statements.

(** ** The states an engine can be in *)

(** The world of a new engine: the caller has created no object yet. *)
Definition empty_world (s : FDTD) : World := mkWorld ∅ ∅ s.

(** The calls of the engine's interface. *)
Inductive call : Type :=
  | CallAnalyze
  | CallNextIteration
  | CallUpdateBoundary
  | CallSetLeftBoundary (b : Boundary)
  | CallSetRightBoundary (b : Boundary)
  | CallAddProbes (v : pyval)
  | CallAddSource (r : ref)
  | CallAddLayer (r : ref)
  | CallDeleteLayer (name : string).

Section Reachable.
Context `{Platform}.

Definition perform (c : call) : M bool :=
  match c with
  | CallAnalyze => analyze
  | CallNextIteration => next_iteration
  | CallUpdateBoundary => update_boundary
  | CallSetLeftBoundary b => set_left_boundary b
  | CallSetRightBoundary b => set_right_boundary b
  | CallAddProbes v => add_probes v
  | CallAddSource r => add_source r
  | CallAddLayer r => add_layer r
  | CallDeleteLayer name => delete_layer name
  end.

(** A world is reachable when it comes from a successful construction by
    calls of the interface, each of which may raise, and by the caller
    creating new [Layer] and [Source] objects. *)
Inductive reachable : World -> Prop :=
  | reach_new (a s t sc : float) (st : FDTD) :
      FDTD_init a s t sc = Ok st -> reachable (empty_world st)
  | reach_call (w : World) (c : call) :
      reachable w -> reachable (exec (perform c) w)
  | reach_layer (w : World) (r : ref) (l : Layer.t) :
      reachable w -> layer_objs w !! r = None ->
      reachable (mkWorld (<[r := l]> (layer_objs w)) (source_objs w) (self w))
  | reach_source (w : World) (r : ref) (x : Source.t) :
      reachable w -> source_objs w !! r = None ->
      reachable (mkWorld (layer_objs w) (<[r := x]> (source_objs w)) (self w)).

(** The array shapes of the constructor, and those of [analyze] once a run
    has been started. *)
Definition shaped (s : FDTD) : Prop :=
  length (E s) = S (length (H s)) /\
  length (mu s) = length (H s) /\
  length (eps s) = length (E s) /\
  length (sigma s) = length (E s) /\
  forall r, run s = Some r ->
            length (ceze r) = length (E s) /\ length (cezh r) = length (E s).

(** The lengths of the five arrays. *)
Definition lengths (s : FDTD) : nat * nat * nat * nat * nat :=
  (length (E s), length (H s), length (eps s), length (mu s), length (sigma s)).

(** What a step has to keep for the shapes to stay. *)
Definition view (w : World) : nat * nat * nat * nat * nat * option RunAttrs :=
  (lengths (self w), run (self w)).

(** What holds of every reachable world: the references are live and the
    arrays have their shapes. *)
Definition well_formed (w : World) : Prop :=
  store_ok w /\ shaped (self w).

(** [keeps P m]: whatever [m] does, and whether or not it raises, it takes
    a world with [P] to a world with [P]. *)
Definition keeps {A} (P : World -> Prop) (m : M A) : Prop :=
  forall w w' r, P w -> m w = (w', r) -> P w'.

End Reachable.

(** ** Vocabulary of the further properties *)

(** What [update_boundary] makes of a boundary object whose edge cell has
    the material values [e] and [m]. *)
Definition refreshed (e m sc : float) (b : Boundary) : Boundary :=
  match b with
  | ABC a =>
      ABC (ABCBase.update_coefficient
             (ABCBase.set_Sc sc (ABCBase.set_mu m (ABCBase.set_eps e a))))
  | _ => b
  end.

(** [advances R m]: whatever [m] does, and whether or not it raises, the
    world it ends in is related by [R] to the world it started in. *)
Definition advances {A} (R : World -> World -> Prop) (m : M A) : Prop :=
  forall w w' r, m w = (w', r) -> R w w'.

(** Nothing registered is lost: the sources list only grows at its end and
    the number of probes does not go down. *)
Definition keeps_registered (w w' : World) : Prop :=
  sources (self w) `prefix_of` sources (self w') /\
  (length (probes (self w)) <= length (probes (self w')))%nat.

(** ** A concrete platform and concrete runs *)

(** SI values of the two constants.  The correctly rounded square root
    stands in for [x ** .5]; the platform's power function can differ from
    it in the last bit and at [-0.0] and [-inf], and the runs below call it
    at [1.0] only, where the two agree. *)
#[local] Instance si_platform : Platform := {|
  W_0 := F64.dec 376730313668 1000000000;
  c := F64.of_Z 299792458;
  pow_half := F64.sqrt;
  c_nonzero := eq_refl |}.

(** [FDTD(1.0, 0.01, 1e-8, 1.0)] *)
Definition scenario : Res FDTD :=
  FDTD_init (F64.dec 1 1) (F64.dec 1 100) (F64.dec 1 100000000) (F64.dec 1 1).

Definition lit_0_2 : float := F64.dec 2 10.
Definition lit_0_7 : float := F64.dec 7 10.

(** A grid of four cells: [FDTD(1.0, 0.25, 1e-8, 1.0)], or the engine as
    allocated by hand should the construction fail. *)
Definition four_cells : FDTD := Eval vm_compute in
  match FDTD_init F64.one (F64.dec 1 4) (F64.dec 1 100000000) F64.one with
  | Ok s => s
  | Raise _ =>
      mkFDTD F64.zero 0 F64.zero F64.zero F64.zero 0 [] [] [] [] [] []
        (Boundaries.mk PECLeft PECRight) [] [] [] None
  end.

(** Two layers: [slab] covers the whole area with [eps = 2], [cover] its
    first half with [eps = 3]. *)
Definition slab : Layer.t := Eval vm_compute in
  Layer.mk EmptyString (F64.zero, F64.one) (F64.of_Z 2) F64.one F64.zero.
Definition cover : Layer.t := Eval vm_compute in
  Layer.mk EmptyString (F64.zero, F64.half) (F64.of_Z 3) F64.one F64.zero.

(** A source at position 0.3 with a constant excitation. *)
Definition beacon : Source.t := Eval vm_compute in
  Source.mk (PFloat (F64.dec 3 10)) F64.zero F64.zero F64.zero F64.zero
    (fun _ _ _ _ _ _ _ => F64.one).

(** The four-cell engine with the two layers and the source created but not
    registered. *)
Definition fresh_world : World :=
  mkWorld (<[0%nat := slab]> (<[1%nat := cover]> ∅)) (<[0%nat := beacon]> ∅) four_cells.

(** ... and with [slab] registered. *)
Definition slab_world : World := Eval vm_compute in
  exec (add_layer 0%nat) fresh_world.

(** A layer without permeability over the whole area, and the four-cell
    engine with it registered and the run started. *)
Definition void : Layer.t := Eval vm_compute in
  Layer.mk EmptyString (F64.zero, F64.one) F64.one F64.zero F64.zero.
Definition void_world : World := Eval vm_compute in
  exec analyze (exec (add_layer 0%nat) (mkWorld (<[0%nat := void]> ∅) ∅ four_cells)).

(** The four-cell vacuum engine with the run started. *)
Definition quiet_world : World := Eval vm_compute in
  exec analyze (empty_world four_cells).

(** The four-cell engine with the source registered and the run started,
    and the same engine after the eleven steps of its run. *)
Definition started_world : World := Eval vm_compute in
  exec analyze (exec (add_source 0%nat) fresh_world).
Definition finished_world : World := Eval vm_compute in
  Nat.iter 11 (exec next_iteration) started_world.


(** The four-cell engine with the source and a probe at position 0.7
    registered, and the run started. *)
Definition probed_world : World := Eval vm_compute in
  exec analyze
    (exec (add_probes (PyNum (PFloat lit_0_7))) (exec (add_source 0%nat) fresh_world)).

(** An absorbing boundary for the left edge, with rules of its own, and the
    four-cell engine with it as its left boundary. *)
Definition sponge : ABCBase.t := Eval vm_compute in
  ABCBase.mk LeftEdge F64.zero F64.zero F64.zero F64.zero []
    (fun _ _ sc => sc) (fun _ _ _ _ => F64.zero) (fun h _ _ => h).
Definition sponge_world : World := Eval vm_compute in
  exec (set_left_boundary (ABC sponge)) fresh_world.

(** A grid of one cell, [FDTD(1.0, 1.0, 1.0, 1.0)], with [sponge] as its left
    boundary. *)
Definition one_cell : FDTD := Eval vm_compute in
  match FDTD_init F64.one F64.one F64.one F64.one with
  | Ok s => s
  | Raise _ => four_cells
  end.
Definition one_cell_world : World := Eval vm_compute in
  exec (set_left_boundary (ABC sponge)) (empty_world one_cell).

(** Four cells of width 2, [FDTD(8.0, 2.0, 1e-6, 1.0)], and a source at
    position 2.5. *)
Definition coarse : FDTD := Eval vm_compute in
  match FDTD_init (F64.of_Z 8) (F64.of_Z 2) (F64.dec 1 1000000) F64.one with
  | Ok s => s
  | Raise _ => four_cells
  end.
Definition rover : Source.t := Eval vm_compute in
  Source.mk (PFloat (F64.dec 5 2)) F64.zero F64.zero F64.zero F64.zero
    (fun _ _ _ _ _ _ _ => F64.one).
Definition coarse_world : World := mkWorld ∅ (<[0%nat := rover]> ∅) coarse.

(** A layer whose area starts at NaN; the four-cell engine with it and
    [slab] created, and then after [add_layer] of the first, which raises,
    and [add_layer] of the second. *)
Definition broken : Layer.t := Eval vm_compute in
  Layer.mk EmptyString (S754_nan, F64.one) F64.one F64.one F64.zero.
Definition broken_world : World :=
  mkWorld (<[0%nat := broken]> (<[1%nat := slab]> ∅)) ∅ four_cells.
Definition skewed_world : World := Eval vm_compute in
  exec (add_layer 1%nat) (exec (add_layer 0%nat) broken_world).

(** * Properties *)

(** ** Evaluating the monad *)

Lemma bind_unfold {A B} (m : M A) (f : A -> M B) (w : World) :
  (m ≫= f) w = match m w with
               | (w', Ok a) => f a w'
               | (w', Raise e) => (w', Raise e)
               end.
Proof. reflexivity. Qed.

Lemma bind_ok {A B} (m : M A) (f : A -> M B) (w w' : World) (a : A) :
  m w = (w', Ok a) -> (m ≫= f) w = f a w'.
Proof. intros Hm. rewrite bind_unfold, Hm. reflexivity. Qed.

Section Run.
Context {A B : Type}.
Implicit Types (k : A -> M B) (w : World).

Lemma run_ret (b : B) w : mret (M:=M) b w = (w, Ok b).
Proof. reflexivity. Qed.

Lemma run_bind_ret (a : A) k w : (mret a ≫= k) w = k a w.
Proof. reflexivity. Qed.

Lemma run_bind_lift_ok (a : A) k w : (lift (Ok a) ≫= k) w = k a w.
Proof. reflexivity. Qed.

Lemma run_bind_lift_raise (e : exn) k w : (lift (Raise e) ≫= k) w = (w, Raise e).
Proof. reflexivity. Qed.

Lemma run_bind_raise (e : exn) k w : (raise e ≫= k) w = (w, Raise e).
Proof. reflexivity. Qed.

Lemma run_bind_attr (g : FDTD -> A) k w : (attr g ≫= k) w = k (g (self w)) w.
Proof. reflexivity. Qed.

Lemma run_bind_assign (g : FDTD -> FDTD) (k : unit -> M B) w :
  (assign g ≫= k) w = k tt (mkWorld (layer_objs w) (source_objs w) (g (self w))).
Proof. reflexivity. Qed.

Lemma run_assign (g : FDTD -> FDTD) w :
  assign g w = (mkWorld (layer_objs w) (source_objs w) (g (self w)), Ok tt).
Proof. reflexivity. Qed.

Lemma run_bind_mutate_layer (r : ref) (g : Layer.t -> Layer.t) (k : unit -> M B) w :
  (mutate_layer r g ≫= k) w =
  k tt (mkWorld (alter g r (layer_objs w)) (source_objs w) (self w)).
Proof. reflexivity. Qed.

Lemma run_bind_mutate_source (r : ref) (g : Source.t -> Source.t) (k : unit -> M B) w :
  (mutate_source r g ≫= k) w =
  k tt (mkWorld (layer_objs w) (alter g r (source_objs w)) (self w)).
Proof. reflexivity. Qed.

Lemma run_bind_deref_layer (r : ref) (l : Layer.t) (k : Layer.t -> M B) w :
  layer_objs w !! r = Some l -> (deref_layer r ≫= k) w = k l w.
Proof. intros Hl. rewrite bind_unfold. unfold deref_layer. rewrite Hl. reflexivity. Qed.

Lemma run_bind_deref_source (r : ref) (x : Source.t) (k : Source.t -> M B) w :
  source_objs w !! r = Some x -> (deref_source r ≫= k) w = k x w.
Proof. intros Hl. rewrite bind_unfold. unfold deref_source. rewrite Hl. reflexivity. Qed.

Lemma run_bind_run_attrs (r : RunAttrs) (k : RunAttrs -> M B) w :
  run (self w) = Some r -> (run_attrs ≫= k) w = k r w.
Proof. intros Hr. rewrite bind_unfold. unfold run_attrs. rewrite Hr. reflexivity. Qed.

Lemma run_bind_assoc {C} (m : M C) (f : C -> M A) k w :
  ((m ≫= f) ≫= k) w = (m ≫= (fun c => f c ≫= k)) w.
Proof. rewrite !bind_unfold. destruct (m w) as [w' [c|e]]; reflexivity. Qed.

End Run.

(** Run the next statements of a method on the current world. *)
Ltac mrun_step :=
  first
    [ rewrite run_bind_assoc
    | rewrite run_bind_ret
    | rewrite run_bind_lift_ok
    | rewrite run_bind_lift_raise
    | rewrite run_bind_raise
    | rewrite run_bind_attr
    | rewrite run_bind_assign
    | rewrite run_bind_mutate_layer
    | rewrite run_bind_mutate_source
    | rewrite run_assign
    | rewrite run_ret ];
  cbn [self layer_objs source_objs
       dx area_size Sc time_duration dt time_counts E H eps sigma mu borders
       boundary sources probes layers run
       set_E set_H set_eps set_sigma set_mu set_borders set_boundary
       set_sources set_probes set_layers set_run].
Ltac mrun := repeat mrun_step.

(** Case analysis on the next fallible computation of a method. *)
Ltac mlift Hx :=
  match goal with
  | |- context [(lift ?x ≫= _) _] => destruct x eqn:Hx
  end.

(** ** Construction *)

Section Construction.
Context `{Platform}.

Lemma truediv_c (x : float) : Py.truediv x c = Ok (F64.div x c).
Proof. unfold Py.truediv. rewrite c_nonzero. reflexivity. Qed.

Lemma int_raises (x : float) (e : exn) :
  Py.int x = Raise e -> is_validation_error e = false.
Proof.
  unfold Py.int. destruct (F64.trunc x); [discriminate|].
  destruct (F64.is_nan x); intros [= <-]; reflexivity.
Qed.

Lemma int_floordiv_raises (a : pynum) (b : float) (e : exn) :
  Py.int_floordiv a b = Raise e -> is_validation_error e = false.
Proof.
  unfold Py.int_floordiv, Py.floordiv, Py.to_float, Py.float_of_int.
  destruct a as [x|z]; simpl.
  - destruct (F64.eqb b F64.zero); simpl.
    + intros [= <-]; reflexivity.
    + apply int_raises.
  - destruct (F64.is_infinity (F64.of_Z z)); simpl.
    + intros [= <-]; reflexivity.
    + destruct (F64.eqb b F64.zero); simpl.
      * intros [= <-]; reflexivity.
      * apply int_raises.
Qed.

Lemma full_raises (v : float) (n : Z) (e : exn) :
  Np.full v n = Raise e -> is_validation_error e = false.
Proof. unfold Np.full. destruct (n <? 0); [intros [= <-]; reflexivity | discriminate]. Qed.

Lemma full_ok (v : float) (n : Z) (a : Np.array) :
  Np.full v n = Ok a -> 0 <= n /\ a = replicate (Z.to_nat n) v.
Proof.
  unfold Np.full. destruct (Z.ltb_spec n 0); [discriminate|].
  intros [= <-]. split; [lia | reflexivity].
Qed.

(** What the constructor does once the validation has passed. *)
Lemma FDTD_init_after_validation (a s t sc : float) :
  validate_init_data a s t sc = Ok true ->
  FDTD_init a s t sc =
    (n ← Py.int_floordiv (PFloat a) s;
     time_counts ← Py.int_floordiv (PFloat t) (derived_dt s sc);
     E ← Np.zeros n;
     H ← Np.zeros (n - 1);
     eps ← Np.ones n;
     sigma ← Np.zeros n;
     mu ← Np.ones (n - 1);
     Ok (mkFDTD s n sc t (derived_dt s sc) time_counts E H eps sigma mu []
           (Boundaries.mk PECLeft PECRight) [] [] [] None)).
Proof.
  intros Hv. unfold FDTD_init. rewrite Hv. simpl.
  destruct (Py.int_floordiv (PFloat a) s); simpl; [|reflexivity].
  rewrite truediv_c. reflexivity.
Qed.

Lemma validation_passed_no_validation_error (a s t sc : float) (e : exn) :
  validate_init_data a s t sc = Ok true ->
  FDTD_init a s t sc = Raise e -> is_validation_error e = false.
Proof.
  intros Hv. rewrite (FDTD_init_after_validation _ _ _ _ Hv).
  destruct (Py.int_floordiv (PFloat a) s) as [n|] eqn:Hn; simpl;
    [|intros [= <-]; eauto using int_floordiv_raises].
  destruct (Py.int_floordiv (PFloat t) _) as [tc|] eqn:Ht; simpl;
    [|intros [= <-]; eauto using int_floordiv_raises].
  unfold Np.zeros, Np.ones.
  repeat match goal with
         | |- context [Np.full ?v ?k] =>
             let Hq := fresh "Hq" in
             destruct (Np.full v k) eqn:Hq; simpl;
             [|intros [= <-]; eauto using full_raises]
         end.
  discriminate.
Qed.

End Construction.

Section ValidationOrder.
Context `{Platform}.

Lemma validate_init_data_cases (a s t sc : float) :
  validate_init_data a s t sc =
    if F64.leb a F64.zero then Raise AreaSizeError
    else if gtb s a then Raise SpaceStepError
    else if F64.leb sc F64.zero then Raise ScValueError
    else if F64.leb t F64.zero then Raise TimeDurationError
    else if gtb (derived_dt s sc) t then Raise TimeStepError
    else Ok true.
Proof.
  unfold validate_init_data, validate_area, validate_Sc, validate_time.
  destruct (F64.leb a F64.zero); [reflexivity|].
  destruct (gtb s a); [reflexivity|]. simpl.
  destruct (F64.leb sc F64.zero); [reflexivity|]. simpl.
  destruct (F64.leb t F64.zero); [reflexivity|].
  rewrite truediv_c. simpl. fold (derived_dt s sc).
  destruct (gtb (derived_dt s sc) t); reflexivity.
Qed.

Lemma FDTD_init_validation_raises (a s t sc : float) (e : exn) :
  validate_init_data a s t sc = Raise e -> FDTD_init a s t sc = Raise e.
Proof. intros Hv. unfold FDTD_init. rewrite Hv. reflexivity. Qed.

(** The outcome of the constructor is the validation's error, or else free
    of validation errors. *)
Lemma FDTD_init_outcome (a s t sc : float) :
  (exists e, validate_init_data a s t sc = Raise e /\ FDTD_init a s t sc = Raise e) \/
  (validate_init_data a s t sc = Ok true /\
   forall e, FDTD_init a s t sc = Raise e -> is_validation_error e = false).
Proof.
  destruct (validate_init_data a s t sc) as [[]|e] eqn:Hv.
  - right. split; [reflexivity|].
    intros e. apply validation_passed_no_validation_error, Hv.
  - exfalso. revert Hv. rewrite validate_init_data_cases.
    repeat match goal with |- context [if ?b then _ else _] => destruct b end;
      discriminate.
  - left. exists e. split; [reflexivity|].
    apply FDTD_init_validation_raises, Hv.
Qed.






End ValidationOrder.



Section GridSize.
Context `{Platform}.

(** The engine a successful construction returns. *)
Lemma FDTD_init_inv (a s t sc : float) (st : FDTD) :
  FDTD_init a s t sc = Ok st ->
  exists n tc : Z,
    Py.int_floordiv (PFloat a) s = Ok n /\ 1 <= n /\
    st = mkFDTD s n sc t (derived_dt s sc) tc
           (replicate (Z.to_nat n) F64.zero) (replicate (Z.to_nat (n - 1)) F64.zero)
           (replicate (Z.to_nat n) F64.one) (replicate (Z.to_nat n) F64.zero)
           (replicate (Z.to_nat (n - 1)) F64.one) []
           (Boundaries.mk PECLeft PECRight) [] [] [] None.
Proof.
  intros Hi.
  destruct (FDTD_init_outcome a s t sc) as [(e & _ & Hr)|[Hv _]]; [congruence|].
  rewrite (FDTD_init_after_validation _ _ _ _ Hv) in Hi.
  destruct (Py.int_floordiv (PFloat a) s) as [n|]; simpl in Hi; [|discriminate].
  destruct (Py.int_floordiv (PFloat t) _) as [tc|]; simpl in Hi; [|discriminate].
  unfold Np.zeros, Np.ones in Hi.
  destruct (Np.full F64.zero n) as [E0|] eqn:HE; simpl in Hi; [|discriminate].
  destruct (Np.full F64.zero (n - 1)) as [H0'|] eqn:HH; simpl in Hi; [|discriminate].
  destruct (Np.full F64.one n) as [eps0|] eqn:Heps; simpl in Hi; [|discriminate].
  destruct (Np.full F64.one (n - 1)) as [mu0|] eqn:Hmu; simpl in Hi; [|discriminate].
  injection Hi as <-.
  apply full_ok in HE as [? ->], HH as [? ->], Heps as [? ->], Hmu as [? ->].
  exists n, tc. repeat split; [lia].
Qed.

(** C6 (amended): a construction that succeeds has a grid size [N], the
    integer the constructor computes from [area_size // space_step], with
    [N >= 1]; [E], [eps], [sigma] have length [N] and [H], [mu] have length
    [N - 1]. *)
Theorem grid_size (a s t sc : float) (st : FDTD) :
  FDTD_init a s t sc = Ok st ->
  Py.int_floordiv (PFloat a) s = Ok (area_size st) /\
  1 <= area_size st /\
  grid_lengths st.
Proof.
  intros Hi. destruct (FDTD_init_inv _ _ _ _ _ Hi) as (n & tc & Hn & Hn1 & ->).
  unfold grid_lengths. cbn [area_size E H eps sigma mu].
  rewrite !length_replicate. repeat split; first [assumption | lia].
Qed.

End GridSize.

(** C6, as stated, fails at [FDTD(1.0, 1.0, 1.0, 1.0)]: the construction
    succeeds with [N = 1], below the claimed minimum of 2, and [H] is empty. *)
Lemma grid_size_counterexample :
  exists st, FDTD_init F64.one F64.one F64.one F64.one = Ok st /\
             area_size st = 1 /\ ~ 2 <= area_size st /\ H st = [] /\ mu st = [].
Proof.
  eexists. split; [vm_compute; reflexivity|]. simpl.
  repeat split; lia.
Qed.

Lemma grid_size_witness :
  exists st, scenario = Ok st /\ 1 <= area_size st /\ grid_lengths st.
Proof.
  destruct scenario as [st|e] eqn:Hs; [|vm_compute in Hs; discriminate].
  exists st. split; [reflexivity|].
  exact (proj2 (grid_size _ _ _ _ st Hs)).
Defined.

(** C8, evaluated on the code: on [FDTD(1.0, 0.01, 1e-8, 1.0)] the grid has
    99 cells and [add_probes([0.2, 0.7])] creates two probes, at grid indices
    20 and 69, each with a series of length [time_counts]; [add_layer]'s
    conversion [int(0.7 / 0.01)] of the same position gives 70. *)
Theorem probes_scenario :
  exists st w,
    scenario = Ok st /\
    area_size st = 99 /\
    add_probes (PyList [PyNum (PFloat lit_0_2); PyNum (PFloat lit_0_7)])
      (empty_world st) = (w, Ok true) /\
    map Probe.position (probes (self w)) = [20; 69] /\
    map (fun p => Z.of_nat (length (Probe.series p))) (probes (self w))
      = [time_counts st; time_counts st] /\
    Py.int_truediv lit_0_7 (dx st) = Ok 70.
Proof.
  do 2 eexists. split; [vm_compute; reflexivity|].
  split; [reflexivity|].
  split; [vm_compute; reflexivity|].
  split; [reflexivity|].
  split; vm_compute; reflexivity.
Qed.

(** ** Stepping past the end of the run *)

Section Finished.
Context `{Platform}.

(** The [else] branch: once [int(current_time // dt)] has reached
    [time_counts], a call of [next_iteration] returns [True] without raising
    and changes nothing but the timer, which it stops: [E], [H], [eps],
    [mu], [sigma], the probes with their series and the current time are as
    before. *)
Theorem next_iteration_finished (w : World) (r : RunAttrs) (k : Z) :
  run (self w) = Some r ->
  Py.int_floordiv (PFloat (current_time r)) (dt (self w)) = Ok k ->
  time_counts (self w) <= k ->
  next_iteration w = (timer_stopped r w, Ok true) /\
  E (self (timer_stopped r w)) = E (self w) /\
  H (self (timer_stopped r w)) = H (self w) /\
  eps (self (timer_stopped r w)) = eps (self w) /\
  mu (self (timer_stopped r w)) = mu (self w) /\
  sigma (self (timer_stopped r w)) = sigma (self w) /\
  probes (self (timer_stopped r w)) = probes (self w) /\
  current_time <$> run (self (timer_stopped r w)) = current_time <$> run (self w).
Proof.
  intros Hrun Hk Hle. split.
  - unfold next_iteration.
    rewrite (bind_ok run_attrs _ w w r) by (unfold run_attrs; rewrite Hrun; reflexivity).
    rewrite (bind_ok (attr dt) _ w w (dt (self w))) by reflexivity.
    rewrite (bind_ok (lift _) _ w w k) by (unfold lift; rewrite Hk; reflexivity).
    rewrite (bind_ok (attr time_counts) _ w w (time_counts (self w))) by reflexivity.
    destruct (Z.ltb_spec k (time_counts (self w))); [lia|].
    reflexivity.
  - rewrite Hrun. repeat split; reflexivity.
Qed.

(** ... and so does every further call: the state is left no more. *)
Lemma finished_stays (w : World) (r : RunAttrs) (k : Z) (n : nat) :
  run (self w) = Some r ->
  Py.int_floordiv (PFloat (current_time r)) (dt (self w)) = Ok k ->
  time_counts (self w) <= k ->
  after_steps (S n) w = timer_stopped r w.
Proof.
  intros Hrun Hk Hle. induction n as [|n IH].
  - change (after_steps 1 w) with (exec next_iteration w). unfold exec.
    rewrite (proj1 (next_iteration_finished w r k Hrun Hk Hle)). reflexivity.
  - change (after_steps (S (S n)) w) with (exec next_iteration (after_steps (S n) w)).
    rewrite IH. unfold exec.
    rewrite (proj1 (next_iteration_finished (timer_stopped r w)
                      (mkRun (ceze r) (cezh r) (current_time r) false) k
                      eq_refl Hk Hle)).
    reflexivity.
Qed.

End Finished.


(** ** Registration of probes and layers *)

Section Registration.
Context `{Platform}.

(** C10: [add_probes] raises [TypeError] when its argument is neither a
    [float] instance nor a sequence matched by [[*args]] (a string is not);
    in particular a position given as an [int] raises [TypeError]; the
    world, and so the probe collection, is unchanged. *)
Theorem add_probes_type_error :
  (forall (v : pyval) (w : World),
      matches_float v = false -> matches_sequence v = false ->
      add_probes v w = (w, Raise TypeError)) /\
  (forall (z : Z) (w : World),
      add_probes (PyNum (PInt z)) w = (w, Raise TypeError)).
Proof.
  split.
  - intros v w Hf Hs. destruct v as [[x|z]|s|s| |l|l]; try discriminate; reflexivity.
  - reflexivity.
Qed.

Lemma delete_from_unused (name : string) (rest : list ref) (i : nat) (w : World) :
  Forall (fun r => exists l, layer_objs w !! r = Some l /\ Layer.name l <> name) rest ->
  delete_from name i rest w = (w, Ok tt).
Proof.
  intros Hall. revert i. induction Hall as [|r rest (l & Hl & Hn) _ IH]; intros i.
  - reflexivity.
  - simpl. rewrite (bind_ok (deref_layer r) _ w w l)
      by (unfold deref_layer; rewrite Hl; reflexivity).
    apply String.eqb_neq in Hn. rewrite Hn. apply IH.
Qed.

(** C9: for a name that no registered layer carries, [delete_layer] returns
    [True] without raising and leaves the whole world unchanged: the layer
    list, the borders list and the [eps], [mu], [sigma] arrays. *)
Theorem delete_layer_unknown (name : string) (w : World) :
  store_ok w -> name_unused name w ->
  delete_layer name w = (w, Ok true).
Proof.
  intros [Hlive _] Hun. unfold delete_layer.
  rewrite (bind_ok (attr layers) _ w w (layers (self w))) by reflexivity.
  rewrite (bind_ok (delete_from name 0 _) _ w w tt); [reflexivity|].
  apply delete_from_unused. apply Forall_forall. intros r Hr.
  rewrite Forall_forall in Hlive. destruct (Hlive r Hr) as [l Hl].
  exists l. split; [exact Hl|]. eapply Hun; eauto.
Qed.

End Registration.

(** ** What a method leaves alone *)

Section Preservation.
Context {B : Type} (f : World -> B).

Lemma preserves_bind {A C} (m : M A) (k : A -> M C) :
  preserves f m -> (forall a, preserves f (k a)) -> preserves f (m ≫= k).
Proof.
  intros Hm Hk w w' r. rewrite bind_unfold.
  destruct (m w) as [w1 [a|e]] eqn:Hmw.
  - intros Hka. rewrite (Hk _ _ _ _ Hka). eapply Hm, Hmw.
  - intros [= <- <-]. eapply Hm, Hmw.
Qed.

Lemma preserves_ret {A} (a : A) : preserves f (mret a).
Proof. intros w w' r [= <- <-]. reflexivity. Qed.

Lemma preserves_lift {A} (x : Res A) : preserves f (lift x).
Proof. intros w w' r [= <- <-]. reflexivity. Qed.

Lemma preserves_raise {A} (e : exn) : preserves f (raise (A:=A) e).
Proof. apply preserves_lift. Qed.

Lemma preserves_attr {A} (g : FDTD -> A) : preserves f (attr g).
Proof. intros w w' r [= <- <-]. reflexivity. Qed.

Lemma preserves_run_attrs : preserves f run_attrs.
Proof. intros w w' r [= <- <-]. reflexivity. Qed.

Lemma preserves_deref_layer (r : ref) : preserves f (deref_layer r).
Proof. intros w w' x [= <- <-]. reflexivity. Qed.

Lemma preserves_deref_source (r : ref) : preserves f (deref_source r).
Proof. intros w w' x [= <- <-]. reflexivity. Qed.

Lemma preserves_assign (g : FDTD -> FDTD) :
  (forall w, f (mkWorld (layer_objs w) (source_objs w) (g (self w))) = f w) ->
  preserves f (assign g).
Proof. intros Hg w w' r [= <- <-]. apply Hg. Qed.

Lemma preserves_mutate_layer (r : ref) (g : Layer.t -> Layer.t) :
  (forall w, f (mkWorld (alter g r (layer_objs w)) (source_objs w) (self w)) = f w) ->
  preserves f (mutate_layer r g).
Proof. intros Hg w w' x [= <- <-]. apply Hg. Qed.

Lemma preserves_mutate_source (r : ref) (g : Source.t -> Source.t) :
  (forall w, f (mkWorld (layer_objs w) (alter g r (source_objs w)) (self w)) = f w) ->
  preserves f (mutate_source r g).
Proof. intros Hg w w' x [= <- <-]. apply Hg. Qed.

Lemma preserves_for_each {A} (l : list A) (body : A -> M unit) :
  (forall a, preserves f (body a)) -> preserves f (for_each l body).
Proof.
  intros Hb. induction l as [|a l IH]; simpl.
  - apply preserves_ret.
  - apply preserves_bind; [apply Hb | intros _; apply IH].
Qed.

End Preservation.

(** Decompose a method into its statements and discharge each one. *)
Ltac preserve_step :=
  first
    [ apply preserves_bind; [|intros ?]
    | apply preserves_ret
    | apply preserves_lift
    | apply preserves_raise
    | apply preserves_attr
    | apply preserves_run_attrs
    | apply preserves_deref_layer
    | apply preserves_deref_source
    | apply preserves_assign; intros ?; reflexivity
    | apply preserves_mutate_layer; intros ?; reflexivity
    | apply preserves_mutate_source; intros ?; reflexivity
    | apply preserves_for_each; intros ?
    | match goal with
      | |- preserves _ (let '(_, _) := ?x in _) => destruct x
      | |- preserves _ (match ?x with _ => _ end) => destruct x
      | |- preserves _ (if ?x then _ else _) => destruct x
      end ].
Ltac preserve := repeat preserve_step.

Section Snapshot.
Context `{Platform}.

Lemma add_layer_source_objs (layer : ref) : preserves source_objs (add_layer layer).
Proof. unfold add_layer, layer_range, fill_range. preserve. Qed.

(** C5: [add_source] converts the source's position to a grid index by
    floor division by [dx], stores the index back into the source object,
    and copies [eps[index]], [mu[index]], [Sc] and [dt] of the grid as it is
    at registration into the source; a later [add_layer] leaves the source
    object, and so these cached values, as they are. *)
Theorem add_source_snapshot (source : ref) (src : Source.t) (w w' : World) :
  source_objs w !! source = Some src ->
  add_source source w = (w', Ok true) ->
  exists (i : Z) (e m : float),
    Py.int_floordiv (Source.position src) (dx (self w)) = Ok i /\
    Np.getitem (eps (self w)) i = Ok e /\
    Np.getitem (mu (self w)) i = Ok m /\
    source_objs w' !! source =
      Some (Source.mk (PInt i) e m (Sc (self w)) (dt (self w)) (Source.waveform src)) /\
    sources (self w') = sources (self w) ++ [source] /\
    forall (layer : ref) (w'' : World) (res : Res bool),
      add_layer layer w' = (w'', res) ->
      source_objs w'' !! source = source_objs w' !! source.
Proof.
  intros Hsrc. unfold add_source.
  rewrite (bind_ok (deref_source source) _ w w src)
    by (unfold deref_source; rewrite Hsrc; reflexivity).
  rewrite (bind_ok (attr dx) _ w w (dx (self w))) by reflexivity.
  rewrite bind_unfold. unfold lift at 1.
  destruct (Py.int_floordiv (Source.position src) (dx (self w))) as [i|] eqn:Hi;
    [|discriminate].
  rewrite bind_unfold. unfold mutate_source at 1.
  rewrite bind_unfold. unfold attr at 1. cbn [self].
  rewrite bind_unfold. unfold lift at 1.
  destruct (Np.getitem (eps (self w)) i) as [e|] eqn:He; [|discriminate].
  rewrite bind_unfold. unfold mutate_source at 1.
  rewrite bind_unfold. unfold attr at 1. cbn [self].
  rewrite bind_unfold. unfold lift at 1.
  destruct (Np.getitem (mu (self w)) i) as [m|] eqn:Hm; [|discriminate].
  intros [= <-]. exists i, e, m.
  split; [reflexivity|]. split; [exact He|]. split; [exact Hm|].
  split; [|split; [reflexivity|]].
  - cbn [source_objs layer_objs self].
    rewrite !lookup_alter_eq, Hsrc. destruct src; reflexivity.
  - intros layer w'' res Hl. f_equal. eapply add_layer_source_objs, Hl.
Qed.

End Snapshot.

(** ** Slices *)

Section Slices.
Context {A : Type}.
Implicit Types (a : list A) (start stop : option Z).

Lemma bound_le (n d : nat) (i : option Z) : (d <= n)%nat -> (Np.bound n d i <= n)%nat.
Proof. unfold Np.bound. destruct i as [z|]; [|trivial]. intros _. case_match; lia. Qed.

Lemma length_setslice_scalar start stop (v : A) a :
  length (Np.setslice_scalar start stop v a) = length a.
Proof.
  unfold Np.setslice_scalar.
  pose proof (bound_le (length a) 0 start ltac:(lia)).
  pose proof (bound_le (length a) (length a) stop ltac:(lia)).
  destruct (Nat.ltb_spec (Np.bound (length a) 0 start)
              (Np.bound (length a) (length a) stop)); [|reflexivity].
  rewrite !length_app, length_take, length_replicate, length_drop. lia.
Qed.

Lemma lookup_setslice_scalar start stop (v : A) a (i : nat) :
  Np.setslice_scalar start stop v a !! i =
    if Np.in_slice (length a) start stop i then Some v else a !! i.
Proof.
  unfold Np.setslice_scalar, Np.in_slice.
  pose proof (bound_le (length a) 0 start ltac:(lia)) as Hb.
  pose proof (bound_le (length a) (length a) stop ltac:(lia)) as He.
  set (b := Np.bound (length a) 0 start) in *.
  set (e := Np.bound (length a) (length a) stop) in *.
  destruct (Nat.ltb_spec b e) as [Hlt|Hge].
  - destruct (Nat.leb_spec b i) as [Hbi|Hbi]; simpl.
    + rewrite lookup_app_r by (rewrite length_take; lia).
      rewrite length_take, Nat.min_l by lia.
      destruct (Nat.ltb_spec i e) as [Hie|Hie].
      * rewrite lookup_app_l by (rewrite length_replicate; lia).
        apply lookup_replicate_2. lia.
      * rewrite lookup_app_r by (rewrite length_replicate; lia).
        rewrite length_replicate, lookup_drop. f_equal. lia.
    + rewrite lookup_app_l by (rewrite length_take; lia).
      apply lookup_take_lt. lia.
  - destruct (Nat.leb_spec b i), (Nat.ltb_spec i e); simpl; try reflexivity. lia.
Qed.

Lemma setslice_scalar_overwrite start stop (v1 v2 : A) a :
  Np.setslice_scalar start stop v2 (Np.setslice_scalar start stop v1 a) =
  Np.setslice_scalar start stop v2 a.
Proof.
  apply list_eq. intros i.
  rewrite !lookup_setslice_scalar, length_setslice_scalar.
  destruct (Np.in_slice _ _ _ _); reflexivity.
Qed.

End Slices.

Lemma setslice_scalar_filled_with start stop (v : float) (a : Np.array) :
  filled_with start stop v a (Np.setslice_scalar start stop v a).
Proof.
  split; [apply length_setslice_scalar | intros i; apply lookup_setslice_scalar].
Qed.

Lemma setslice_scalar_same start stop (v : float) (a : Np.array) :
  (forall i x, Np.in_slice (length a) start stop i = true -> a !! i = Some x -> x = v) ->
  Np.setslice_scalar start stop v a = a.
Proof.
  intros Hv. apply list_eq. intros i. rewrite lookup_setslice_scalar.
  destruct (Np.in_slice _ _ _ _) eqn:Hin; [|reflexivity].
  destruct (a !! i) as [x|] eqn:Hx.
  - f_equal. symmetry. eauto.
  - exfalso. apply lookup_ge_None in Hx. unfold Np.in_slice in Hin.
    apply andb_true_iff in Hin as [_ Hin]. apply Nat.ltb_lt in Hin.
    pose proof (bound_le (length a) (length a) stop ltac:(lia)). lia.
Qed.

Lemma list_pop_last {A} (l : list A) (x : A) :
  list_pop (length l) (l ++ [x]) = Ok l.
Proof.
  unfold list_pop. rewrite length_app. simpl.
  destruct (Nat.ltb_spec (length l) (length l + 1)) as [_|]; [|lia].
  f_equal. induction l as [|y l IH]; simpl; [reflexivity|]. f_equal. exact IH.
Qed.

(** ** Adding and deleting a layer *)

Section RoundTrip.
Context `{Platform}.

Lemma add_layer_inv (layer : ref) (L : Layer.t) (w w1 : World) :
  layer_objs w !! layer = Some L ->
  add_layer layer w = (w1, Ok true) ->
  exists b e : Z,
    Py.int_truediv (Layer.area L).1 (dx (self w)) = Ok b /\
    Py.int_truediv (Layer.area L).2 (dx (self w)) = Ok e /\
    layer_objs w1 =
      alter (Layer.set_name (layer_name (length (layers (self w))))) layer (layer_objs w) /\
    source_objs w1 = source_objs w /\
    self w1 =
      set_borders (borders (self w) ++ [(Layer.area L).1; (Layer.area L).2])
        (set_sigma (Np.setslice_scalar (Some b) (Some e) (Layer.sigma L) (sigma (self w)))
           (set_mu (Np.setslice_scalar (Some b) (Some e) (Layer.mu L) (mu (self w)))
              (set_eps (Np.setslice_scalar (Some b) (Some e) (Layer.eps L) (eps (self w)))
                 (set_layers (layers (self w) ++ [layer]) (self w))))).
Proof.
  intros HL. unfold add_layer, layer_range, fill_range.
  mrun. rewrite (run_bind_deref_layer _ L) by exact HL.
  mrun. erewrite run_bind_deref_layer by (cbn [layer_objs]; rewrite lookup_alter_eq, HL; reflexivity).
  mrun. cbn.
  destruct (Py.int_truediv (Layer.area L).1 (dx (self w))) as [b|] eqn:Hb;
    [|mrun; discriminate].
  mrun.
  destruct (Py.int_truediv (Layer.area L).2 (dx (self w))) as [e|] eqn:He;
    [|mrun; discriminate].
  mrun. intros [= <-]. exists b, e. cbn. rewrite <- app_assoc. repeat split; reflexivity.
Qed.

Lemma delete_from_skip (name : string) (pre rest : list ref) (i : nat) (w : World) :
  Forall (fun r => exists l, layer_objs w !! r = Some l /\ Layer.name l <> name) pre ->
  delete_from name i (pre ++ rest) w = delete_from name (i + length pre) rest w.
Proof.
  intros Hall. revert i. induction Hall as [|r pre (l & Hl & Hn) _ IH]; intros i.
  - simpl. f_equal. lia.
  - simpl. rewrite (run_bind_deref_layer _ l) by exact Hl.
    apply String.eqb_neq in Hn. rewrite Hn, IH. f_equal. lia.
Qed.

(** C4 (amended): in a state whose borders list has two entries per
    registered layer, for a layer object [L] that is not registered yet and
    when no registered layer already carries the name [add_layer] gives to
    [L]: if [add_layer(L)] returns, then [delete_layer(L.name)] returns
    [True]; it sets [eps], [mu], [sigma] to the vacuum values (1, 1, 0) over
    [L]'s index range and leaves their other entries as they were before
    the [add_layer]; it removes the two borders entries [add_layer] appended
    and [L] from the layer list, which are then as before the [add_layer].
    The engine is back in its state before the [add_layer] when that state
    was vacuum over [L]'s index range. *)
Theorem layer_round_trip (layer : ref) (L : Layer.t) (w w1 : World) :
  layer_objs w !! layer = Some L ->
  store_ok w ->
  layer ∉ layers (self w) ->
  name_unused (layer_name (length (layers (self w)))) w ->
  length (borders (self w)) = (2 * length (layers (self w)))%nat ->
  add_layer layer w = (w1, Ok true) ->
  exists (b e : Z) (L1 : Layer.t) (w2 : World),
    Py.int_truediv (Layer.area L).1 (dx (self w)) = Ok b /\
    Py.int_truediv (Layer.area L).2 (dx (self w)) = Ok e /\
    layer_objs w1 !! layer = Some L1 /\
    Layer.name L1 = layer_name (length (layers (self w))) /\
    borders (self w1) = borders (self w) ++ [(Layer.area L).1; (Layer.area L).2] /\
    delete_layer (Layer.name L1) w1 = (w2, Ok true) /\
    borders (self w2) = borders (self w) /\
    layers (self w2) = layers (self w) /\
    filled_with (Some b) (Some e) F64.one (eps (self w)) (eps (self w2)) /\
    filled_with (Some b) (Some e) F64.one (mu (self w)) (mu (self w2)) /\
    filled_with (Some b) (Some e) F64.zero (sigma (self w)) (sigma (self w2)) /\
    (vacuum_over b e (self w) -> self w2 = self w).
Proof.
  intros HL [Hlive _] Hfresh Hun Hlen Hadd.
  destruct (add_layer_inv _ _ _ _ HL Hadd) as (b & e & Hb & He & Hlo & Hso & Hs).
  set (nm := layer_name (length (layers (self w)))) in *.
  exists b, e, (Layer.set_name nm L).
  destruct w1 as [lo1 so1 s1]. cbn [layer_objs source_objs self] in *. subst lo1 so1 s1.
  eexists. split; [exact Hb|]. split; [exact He|].
  split; [rewrite lookup_alter_eq, HL; reflexivity|].
  split; [reflexivity|]. split; [reflexivity|].
  cbn [Layer.name Layer.set_name].
  split.
  { unfold delete_layer. mrun.
    rewrite bind_unfold, delete_from_skip.
    2:{ apply Forall_forall. intros r Hr. rewrite Forall_forall in Hlive.
        destruct (Hlive r Hr) as [l Hl]. exists l. cbn [layer_objs].
        rewrite lookup_alter_ne by (intros ->; contradiction).
        split; [exact Hl|]. eapply Hun; eauto. }
    cbn [delete_from].
    erewrite run_bind_deref_layer
      by (cbn [layer_objs]; rewrite lookup_alter_eq, HL; reflexivity).
    cbn [Layer.name Layer.set_name]. rewrite String.eqb_refl.
    unfold remove_layer, layer_range, fill_range. mrun.
    cbn [Layer.area Layer.set_name]. rewrite Hb. mrun. rewrite He. mrun.
    replace (2 * (0 + length (layers (self w))) + 1)%nat
      with (length (borders (self w) ++ [(Layer.area L).1]))
      by (rewrite length_app; simpl; lia).
    replace (borders (self w) ++ [(Layer.area L).1; (Layer.area L).2])
      with ((borders (self w) ++ [(Layer.area L).1]) ++ [(Layer.area L).2])
      by (rewrite <- app_assoc; reflexivity).
    rewrite list_pop_last. mrun.
    replace (2 * (0 + length (layers (self w))))%nat
      with (length (borders (self w))) by lia.
    rewrite list_pop_last. mrun.
    rewrite Nat.add_0_l, list_pop_last. mrun. reflexivity. }
  cbn [self borders layers eps mu sigma set_layers set_borders set_eps set_mu set_sigma].
  rewrite !setslice_scalar_overwrite.
  split; [reflexivity|]. split; [reflexivity|].
  split; [apply setslice_scalar_filled_with|].
  split; [apply setslice_scalar_filled_with|].
  split; [apply setslice_scalar_filled_with|].
  intros (Heps & Hmu & Hsigma).
  cbn [set_layers set_borders set_eps set_mu set_sigma dx area_size Sc
       time_duration dt time_counts E H eps sigma mu borders boundary
       sources probes layers run].
  rewrite !setslice_scalar_same by assumption.
  destruct (self w). reflexivity.
Qed.

End RoundTrip.

(** C4, as stated, fails on the four-cell engine with [slab] registered
    ([eps = 2] everywhere): adding [cover] over the first half and deleting
    it again leaves [eps = 1] there, not the 2 of the state before the
    [add_layer]. *)
Lemma layer_round_trip_counterexample :
  exists (w1 w2 : World) (L1 : Layer.t),
    add_layer 1%nat slab_world = (w1, Ok true) /\
    layer_objs w1 !! 1%nat = Some L1 /\
    delete_layer (Layer.name L1) w1 = (w2, Ok true) /\
    eps (self slab_world) = replicate 4 (F64.of_Z 2) /\
    eps (self w2) = [F64.one; F64.one; F64.of_Z 2; F64.of_Z 2] /\
    eps (self w2) <> eps (self slab_world).
Proof.
  do 3 eexists.
  split; [vm_compute; reflexivity|].
  split; [vm_compute; reflexivity|].
  split; [vm_compute; reflexivity|].
  split; [vm_compute; reflexivity|].
  split; [vm_compute; reflexivity|].
  vm_compute. discriminate.
Qed.

Lemma layer_round_trip_witness :
  exists (b e : Z) (L1 : Layer.t) (w2 : World),
    Py.int_truediv (Layer.area cover).1 (dx (self fresh_world)) = Ok b /\
    Py.int_truediv (Layer.area cover).2 (dx (self fresh_world)) = Ok e /\
    layer_objs (exec (add_layer 1%nat) fresh_world) !! 1%nat = Some L1 /\
    Layer.name L1 = layer_name (length (layers (self fresh_world))) /\
    borders (self (exec (add_layer 1%nat) fresh_world)) =
      borders (self fresh_world) ++ [(Layer.area cover).1; (Layer.area cover).2] /\
    delete_layer (Layer.name L1) (exec (add_layer 1%nat) fresh_world) = (w2, Ok true) /\
    borders (self w2) = borders (self fresh_world) /\
    layers (self w2) = layers (self fresh_world) /\
    filled_with (Some b) (Some e) F64.one (eps (self fresh_world)) (eps (self w2)) /\
    filled_with (Some b) (Some e) F64.one (mu (self fresh_world)) (mu (self w2)) /\
    filled_with (Some b) (Some e) F64.zero (sigma (self fresh_world)) (sigma (self w2)) /\
    (vacuum_over b e (self fresh_world) -> self w2 = self fresh_world).
Proof.
  apply (layer_round_trip 1%nat cover fresh_world (exec (add_layer 1%nat) fresh_world)).
  - reflexivity.
  - split; apply Forall_nil_2.
  - apply not_elem_of_nil.
  - intros r l Hr. apply not_elem_of_nil in Hr. destruct Hr.
  - reflexivity.
  - vm_compute. reflexivity.
Defined.

Lemma add_source_snapshot_witness :
  exists (i : Z) (e m : float),
    Py.int_floordiv (Source.position beacon) (dx (self fresh_world)) = Ok i /\
    Np.getitem (eps (self fresh_world)) i = Ok e /\
    Np.getitem (mu (self fresh_world)) i = Ok m /\
    source_objs (exec (add_source 0%nat) fresh_world) !! 0%nat =
      Some (Source.mk (PInt i) e m (Sc (self fresh_world)) (dt (self fresh_world))
              (Source.waveform beacon)) /\
    sources (self (exec (add_source 0%nat) fresh_world)) =
      sources (self fresh_world) ++ [0%nat] /\
    forall (layer : ref) (w'' : World) (res : Res bool),
      add_layer layer (exec (add_source 0%nat) fresh_world) = (w'', res) ->
      source_objs w'' !! 0%nat =
      source_objs (exec (add_source 0%nat) fresh_world) !! 0%nat.
Proof.
  apply (add_source_snapshot 0%nat beacon fresh_world).
  - reflexivity.
  - vm_compute. reflexivity.
Defined.

(** The snapshot at work: the source registered at index 1 of the vacuum
    grid keeps [eps = 1] after [slab] has set the grid's [eps[1]] to 2. *)
Example snapshot_is_stale :
  let w := exec (add_layer 0%nat) (exec (add_source 0%nat) fresh_world) in
  Source.eps <$> source_objs w !! 0%nat = Some F64.one /\
  Source.position <$> source_objs w !! 0%nat = Some (PInt 1) /\
  Np.getitem (eps (self w)) 1 = Ok (F64.of_Z 2).
Proof. vm_compute. repeat split; reflexivity. Qed.

Lemma next_iteration_finished_witness :
  exists r : RunAttrs,
    run (self finished_world) = Some r /\
    next_iteration finished_world = (timer_stopped r finished_world, Ok true) /\
    E (self (timer_stopped r finished_world)) = E (self finished_world) /\
    probes (self (timer_stopped r finished_world)) = probes (self finished_world).
Proof.
  eexists. split; [vm_compute; reflexivity|].
  match goal with
  | |- context [timer_stopped ?r _] =>
      destruct (next_iteration_finished finished_world r 11)
        as (Hn & HE & _ & _ & _ & _ & Hp & _)
  end.
  - reflexivity.
  - vm_compute. reflexivity.
  - vm_compute. discriminate.
  - auto.
Defined.

Lemma add_probes_type_error_witness :
  add_probes (PyStr "0.2") fresh_world = (fresh_world, Raise TypeError) /\
  add_probes (PyNum (PInt 1)) fresh_world = (fresh_world, Raise TypeError) /\
  probes (self (exec (add_probes (PyNum (PInt 1))) fresh_world)) = [].
Proof.
  destruct add_probes_type_error as [Hv Hi].
  split; [apply Hv; reflexivity|].
  split; [apply Hi|].
  unfold exec. rewrite Hi. reflexivity.
Defined.

Lemma delete_layer_unknown_witness :
  delete_layer "Layer7" slab_world = (slab_world, Ok true).
Proof.
  apply delete_layer_unknown.
  - split; [|apply Forall_nil_2].
    apply Forall_cons_2; [|apply Forall_nil_2]. vm_compute. eauto.
  - intros r l Hr Hl.
    cbn in Hr. apply list_elem_of_singleton in Hr as ->.
    vm_compute in Hl. injection Hl as <-. discriminate.
Defined.

(** ** The all-zero ground state *)

Section ZeroArithmetic.
Implicit Types x y : float.

Lemma is_zero_add x y :
  F64.is_zero x = true -> F64.is_zero y = true -> F64.is_zero (F64.add x y) = true.
Proof. destruct x as [[]| | |], y as [[]| | |]; try discriminate; reflexivity. Qed.

Lemma is_zero_sub x y :
  F64.is_zero x = true -> F64.is_zero y = true -> F64.is_zero (F64.sub x y) = true.
Proof. destruct x as [[]| | |], y as [[]| | |]; try discriminate; reflexivity. Qed.

Lemma is_zero_mul_r x y :
  F64.is_zero x = true -> F64.is_finite y = true -> F64.is_zero (F64.mul x y) = true.
Proof. destruct x, y; try discriminate; reflexivity. Qed.

Lemma is_zero_mul_l x y :
  F64.is_finite x = true -> F64.is_zero y = true -> F64.is_zero (F64.mul x y) = true.
Proof. destruct x, y; try discriminate; reflexivity. Qed.

Lemma is_zero_div x y :
  F64.is_zero x = true -> usable_divisor y = true -> F64.is_zero (F64.div x y) = true.
Proof. destruct x, y; try discriminate; reflexivity. Qed.

End ZeroArithmetic.

Section ArrayFacts.
Implicit Types (P Q R : float -> Prop) (a b c : Np.array).

Lemma Forall_map_impl {A B} (g : A -> B) (S : A -> Prop) (T : B -> Prop) (l : list A) :
  (forall x, S x -> T (g x)) -> Forall S l -> Forall T (map g l).
Proof. intros Hg Hl. induction Hl; simpl; constructor; auto. Qed.

Lemma map2_Forall (f : float -> float -> float) P Q R a b c :
  (forall x y, P x -> Q y -> R (f x y)) ->
  Forall P a -> Forall Q b -> Np.map2 f a b = Ok c -> Forall R c.
Proof.
  intros Hf Ha Hb. unfold Np.map2.
  destruct (length a =? length b)%nat.
  - intros [= <-]. apply Forall_lookup. intros i z Hz.
    apply lookup_zip_with_Some in Hz as (x & y & -> & Hx & Hy).
    rewrite Forall_lookup in Ha, Hb. eauto.
  - destruct a as [|x [|x' a]].
    + destruct b as [|y [|y' b]]; try discriminate.
      intros [= <-]. constructor.
    + intros [= <-]. inversion Ha; subst.
      eapply Forall_map_impl; [|exact Hb]. auto.
    + destruct b as [|y [|y' b]]; try discriminate.
      intros [= <-]. inversion Hb; subst.
      apply (Forall_map_impl (fun x0 => f x0 y) P R (x :: x' :: a)); auto.
Qed.

Lemma slice_Forall {A} (P : A -> Prop) start stop (l : list A) :
  Forall P l -> Forall P (Np.slice start stop l).
Proof. intros Hl. unfold Np.slice. apply Forall_take, Forall_drop, Hl. Qed.

Lemma setslice_Forall P start stop rhs a c :
  Forall P a -> Forall P rhs -> Np.setslice start stop rhs a = Ok c -> Forall P c.
Proof.
  intros Ha Hr. unfold Np.setslice.
  assert (Hfill : forall mid, Forall P mid ->
            Forall P (take (Np.bound (length a) 0 start) a ++ mid ++
                      drop (Np.bound (length a) (length a) stop) a)).
  { intros mid Hmid. rewrite !Forall_app.
    auto using Forall_take, Forall_drop. }
  destruct (length rhs =? _)%nat.
  - destruct (_ <? _)%nat; intros [= <-]; auto.
  - destruct rhs as [|x [|x' rhs]]; try discriminate.
    intros [= <-]. unfold Np.setslice_scalar.
    destruct (_ <? _)%nat; [|assumption].
    apply Hfill, Forall_replicate. inversion Hr; assumption.
Qed.

Lemma setitem_Forall P a i v c :
  Forall P a -> P v -> Np.setitem a i v = Ok c -> Forall P c.
Proof.
  intros Ha Hv. unfold Np.setitem. destruct (Np.index _ _); [|discriminate].
  intros [= <-]. apply Forall_insert; assumption.
Qed.

Lemma rscalar_Forall (f : float -> float -> float) P R a s :
  (forall x, P x -> R (f x s)) -> Forall P a -> Forall R (Np.rscalar f a s).
Proof.
  intros Hf Ha. unfold Np.rscalar. eapply Forall_map_impl; [|exact Ha]. exact Hf.
Qed.

Lemma lscalar_Forall (f : float -> float -> float) P R s a :
  (forall x, P x -> R (f s x)) -> Forall P a -> Forall R (Np.lscalar f s a).
Proof.
  intros Hf Ha. unfold Np.lscalar. eapply Forall_map_impl; [|exact Ha]. exact Hf.
Qed.

End ArrayFacts.

Section GroundState.
Context `{Platform}.

Lemma ceze_all_one (sigma cz : Np.array) :
  all_zero sigma -> coeff_ceze sigma = Ok cz -> Forall (fun x => x = F64.one) cz.
Proof.
  intros Hs. unfold coeff_ceze, Np.div.
  apply (map2_Forall F64.div (fun x => x = F64.one) (fun x => x = F64.one)).
  - intros x y -> ->. reflexivity.
  - eapply lscalar_Forall; [|exact Hs]. intros x Hx. simpl in Hx.
    destruct x as [[]| | |]; try discriminate; reflexivity.
  - eapply lscalar_Forall; [|exact Hs]. intros x Hx. simpl in Hx.
    destruct x as [[]| | |]; try discriminate; reflexivity.
Qed.

Lemma ceze_all_finite (sigma cz : Np.array) :
  all_zero sigma -> coeff_ceze sigma = Ok cz -> all_finite cz.
Proof.
  intros Hs Hc. eapply Forall_impl; [eapply ceze_all_one; eauto|].
  intros x ->. reflexivity.
Qed.

(** The H update of an all-zero state. *)
Lemma H_update_zero (s : FDTD) (dE q H' : Np.array) :
  all_zero (E s) -> all_zero (H s) ->
  F64.is_finite (Sc s) = true ->
  Forall (fun m => usable_divisor (F64.mul W_0 m) = true) (mu s) ->
  Np.sub (Np.slice (Some 1) None (E s)) (Np.slice None (Some (-1)) (E s)) = Ok dE ->
  Np.div (Np.rscalar F64.mul dE (Sc s)) (Np.lscalar F64.mul W_0 (mu s)) = Ok q ->
  Np.add (H s) q = Ok H' ->
  all_zero H'.
Proof.
  intros HE HH HSc Hmu HdE Hq HH'.
  assert (all_zero dE) as HdE0.
  { eapply (map2_Forall F64.sub); [|apply slice_Forall, HE|apply slice_Forall, HE|exact HdE].
    intros x y; apply is_zero_sub. }
  assert (all_zero q) as Hq0.
  { eapply (map2_Forall F64.div); [| | |exact Hq].
    - intros x y; apply is_zero_div.
    - eapply rscalar_Forall; [|exact HdE0]. intros x Hx. apply is_zero_mul_r; assumption.
    - eapply lscalar_Forall; [|exact Hmu]. intros x Hx. exact Hx. }
  eapply (map2_Forall F64.add); [|exact HH|exact Hq0|exact HH'].
  intros x y; apply is_zero_add.
Qed.

(** The interior E update of an all-zero state. *)
Lemma E_update_zero (Sc_ : float) (E_ H_ cz ch a dH b rhs E' : Np.array) :
  all_zero E_ -> all_zero H_ -> F64.is_finite Sc_ = true ->
  all_finite cz -> all_finite ch ->
  Np.mul (Np.slice (Some 1) (Some (-1)) cz) (Np.slice (Some 1) (Some (-1)) E_) = Ok a ->
  Np.sub (Np.slice (Some 1) None H_) (Np.slice None (Some (-1)) H_) = Ok dH ->
  Np.mul (Np.rscalar F64.mul dH Sc_) (Np.slice (Some 1) (Some (-1)) ch) = Ok b ->
  Np.add a b = Ok rhs ->
  Np.setslice (Some 1) (Some (-1)) rhs E_ = Ok E' ->
  all_zero E'.
Proof.
  intros HE HH HSc Hcz Hch Ha HdH Hb Hrhs HE'.
  assert (all_zero a) as Ha0.
  { eapply (map2_Forall F64.mul); [|apply slice_Forall, Hcz|apply slice_Forall, HE|exact Ha].
    intros x y; apply is_zero_mul_l. }
  assert (all_zero dH) as HdH0.
  { eapply (map2_Forall F64.sub); [|apply slice_Forall, HH|apply slice_Forall, HH|exact HdH].
    intros x y; apply is_zero_sub. }
  assert (all_zero b) as Hb0.
  { eapply (map2_Forall F64.mul); [| |apply slice_Forall, Hch|exact Hb].
    - intros x y; apply is_zero_mul_r.
    - eapply rscalar_Forall; [|exact HdH0]. intros x Hx. apply is_zero_mul_r; assumption. }
  assert (all_zero rhs) as Hrhs0.
  { eapply (map2_Forall F64.add); [|exact Ha0|exact Hb0|exact Hrhs].
    intros x y; apply is_zero_add. }
  eapply setslice_Forall; [exact HE|exact Hrhs0|exact HE'].
Qed.

(** Leaving [next_iteration] with the fields [E'] and [H']. *)
Ltac leave_step :=
  intros [= <- <-]; split;
  [ unfold ground_state | unfold benign_medium ];
  cbn [self layer_objs source_objs dx area_size Sc time_duration dt time_counts
       E H eps sigma mu borders boundary sources probes layers run
       set_E set_H set_eps set_sigma set_mu set_borders set_boundary
       set_sources set_probes set_layers set_run];
  repeat split; try assumption; try congruence; intros;
  try match goal with
      | Hq : Some _ = Some _ |- _ =>
          injection Hq as <-; cbn [ceze cezh]; assumption
      | Hq : run _ = Some ?r0, Hr : run _ = Some ?r |- _ =>
          replace r0 with r by congruence; assumption
      end.

Lemma next_iteration_ground (w w' : World) (res : Res bool) :
  ground_state w -> benign_medium w ->
  next_iteration w = (w', res) ->
  ground_state w' /\ benign_medium w'.
Proof.
  intros (Hsrc & Hsig & Hbd & HE & HH & Hco) (HSc & Hmu & Hch).
  unfold next_iteration.
  destruct (run (self w)) as [r|] eqn:Hrun.
  2:{ rewrite bind_unfold. unfold run_attrs. rewrite Hrun. leave_step. }
  destruct (Hco r eq_refl) as [Hceze Hcezh].
  pose proof (Hch r eq_refl) as Hch'.
  assert (Hrun' : forall r0, Some r = Some r0 -> r0 = r) by (intros ? [= <-]; reflexivity).
  pose proof (ceze_all_finite _ _ Hsig Hceze) as Hcz.
  rewrite (run_bind_run_attrs r) by exact Hrun. mrun.
  mlift Hk; mrun; [|leave_step].
  match goal with |- context [if ?b then _ else _] => destruct b end; mrun.
  2:{ leave_step. }
  mlift HdE; mrun; [|leave_step].
  mlift Hq; mrun; [|leave_step].
  mlift HH'; mrun; [|leave_step].
  pose proof (H_update_zero _ _ _ _ HE HH HSc Hmu HdE Hq HH') as HH0.
  rewrite Hsrc. cbn [for_each]. mrun.
  mlift Ha; mrun; [|leave_step].
  mlift HdH; mrun; [|leave_step].
  mlift Hb; mrun; [|leave_step].
  mlift Hrhs; mrun; [|leave_step].
  mlift HE'; mrun; [|leave_step].
  pose proof (E_update_zero _ _ _ _ _ _ _ _ _ _ HE HH0 HSc Hcz Hch' Ha HdH Hb Hrhs HE') as HE0.
  assert (Hz : F64.is_zero F64.zero = true) by reflexivity.
  unfold update_left. mrun. rewrite Hbd.
  cbn [Boundaries.left Boundaries.right PECLeft PECRight update_field].
  destruct (Np.setitem _ 0 F64.zero) as [E1|e] eqn:HE1;
    cbn [mbind res_mbind res_bind]; mrun; [|leave_step].
  pose proof (setitem_Forall _ _ _ _ _ HE0 Hz HE1) as HE10.
  unfold update_right. mrun.
  cbn [Boundaries.left Boundaries.right PECLeft PECRight update_field].
  destruct (Np.setitem _ (-1) F64.zero) as [E2|e] eqn:HE2;
    cbn [mbind res_mbind res_bind]; mrun; [|leave_step].
  pose proof (setitem_Forall _ _ _ _ _ HE10 Hz HE2) as HE20.
  rewrite Hsrc. cbn [for_each]. mrun.
  unfold sample_probes. mrun.
  destruct (probes_add_data _ _ _) as [ps' [[]|e]]; mrun; leave_step.
Qed.

Lemma after_steps_ground (n : nat) (w : World) :
  ground_state w -> benign_medium w ->
  ground_state (after_steps n w) /\ benign_medium (after_steps n w).
Proof.
  intros Hg Hb. induction n as [|n [IHg IHb]]; [split; assumption|].
  unfold after_steps in *. simpl. unfold exec at 1 3.
  destruct (next_iteration _) as [w' res] eqn:Hn. simpl.
  eapply next_iteration_ground; eauto.
Qed.

(** C3 (amended): with no registered sources, [sigma] identically zero,
    both boundaries the default fixed-value variant, [E] and [H] all-zero
    and the update coefficients as [analyze] computes them, and provided
    the Courant number is finite, no product [W_0 * mu[i]] is zero or NaN
    and every coefficient [cezh[i]] is finite, any number of calls of
    [next_iteration] leaves [E] and [H] all-zero. *)
Theorem zero_ground_state (w : World) :
  ground_state w -> benign_medium w -> stays_zero w.
Proof.
  intros Hg Hb n.
  destruct (after_steps_ground n w Hg Hb) as [(_ & _ & _ & HE & HH & _) _].
  split; assumption.
Qed.

End GroundState.

(** C3, as stated, fails on the four-cell engine with the [void] layer
    ([mu = 0] everywhere): the state has no sources, zero conductivity, the
    default boundaries and all-zero fields, yet one step computes
    [0.0 / (W_0 * 0.0)] and fills [H] with NaN. *)
Lemma zero_ground_state_counterexample :
  ground_state void_world /\
  H (self (after_steps 1 void_world)) = [S754_nan; S754_nan; S754_nan] /\
  ~ stays_zero void_world.
Proof.
  split; [|split].
  - unfold ground_state. cbn.
    repeat split; try reflexivity; try (repeat constructor; fail);
      match goal with
      | Hq : Some _ = Some _ |- _ => injection Hq as <-; vm_compute; reflexivity
      end.
  - vm_compute. reflexivity.
  - intros Hs. destruct (Hs 1%nat) as [_ HH]. vm_compute in HH.
    inversion HH; discriminate.
Qed.

Lemma zero_ground_state_witness : stays_zero quiet_world.
Proof.
  apply zero_ground_state.
  - unfold ground_state. cbn.
    repeat split; try reflexivity; try (repeat constructor; fail);
      match goal with
      | Hq : Some _ = Some _ |- _ => injection Hq as <-; vm_compute; reflexivity
      end.
  - unfold benign_medium. cbn.
    split; [reflexivity|]. split.
    + repeat constructor.
    + intros r [= <-]. repeat constructor.
Defined.

(** ** One step, operation by operation *)

Section VectorOps.

Lemma map2_same_length (f : float -> float -> float) (a b : Np.array) :
  length a = length b -> Np.map2 f a b = Ok (zip_with f a b).
Proof. intros Hl. unfold Np.map2. rewrite Hl, Nat.eqb_refl. reflexivity. Qed.

Lemma bound_one (n d : nat) : Np.bound n d (Some 1) = Nat.min 1 n.
Proof. unfold Np.bound. change (1 <? 0) with false. lia. Qed.

Lemma bound_minus_one (n d : nat) : Np.bound n d (Some (-1)) = (n - 1)%nat.
Proof. unfold Np.bound. change (-1 <? 0) with true. lia. Qed.

Lemma lookup_slice {A} (start stop : option Z) (a : list A) (j : nat) :
  Np.slice start stop a !! j =
    if (j <? Np.bound (length a) (length a) stop - Np.bound (length a) 0 start)%nat
    then a !! (Np.bound (length a) 0 start + j)%nat
    else None.
Proof.
  unfold Np.slice. destruct (Nat.ltb_spec j (Np.bound (length a) (length a) stop -
                                            Np.bound (length a) 0 start)).
  - rewrite lookup_take_lt by assumption. apply lookup_drop.
  - apply lookup_take_ge. assumption.
Qed.

Lemma length_slice {A} (start stop : option Z) (a : list A) :
  length (Np.slice start stop a) =
    (Np.bound (length a) (length a) stop - Np.bound (length a) 0 start)%nat.
Proof.
  unfold Np.slice. rewrite length_take, length_drop.
  pose proof (bound_le (length a) (length a) stop ltac:(lia)). lia.
Qed.

(** [a[1:]], [a[:-1]] and [a[1:-1]], entry by entry. *)
Lemma lookup_tail (a : Np.array) (j : nat) :
  Np.slice (Some 1) None a !! j = a !! S j.
Proof.
  rewrite lookup_slice, bound_one. cbn [Np.bound].
  destruct (Nat.ltb_spec j (length a - Nat.min 1 (length a))).
  - f_equal. lia.
  - symmetry. apply lookup_ge_None. lia.
Qed.

Lemma lookup_init (a : Np.array) (j : nat) :
  Np.slice None (Some (-1)) a !! j = if (S j <? length a)%nat then a !! j else None.
Proof.
  rewrite lookup_slice, bound_minus_one. cbn [Np.bound].
  destruct (Nat.ltb_spec j (length a - 1 - 0)), (Nat.ltb_spec (S j) (length a));
    try lia; reflexivity.
Qed.

Lemma lookup_interior (a : Np.array) (j : nat) :
  Np.slice (Some 1) (Some (-1)) a !! j =
    if (S (S j) <? length a)%nat then a !! S j else None.
Proof.
  rewrite lookup_slice, bound_one, bound_minus_one.
  destruct (Nat.ltb_spec j (length a - 1 - Nat.min 1 (length a))),
           (Nat.ltb_spec (S (S j)) (length a)); try lia; [|reflexivity].
  f_equal. lia.
Qed.

Lemma length_tail (a : Np.array) : length (Np.slice (Some 1) None a) = (length a - 1)%nat.
Proof. rewrite length_slice, bound_one. cbn [Np.bound]. lia. Qed.

Lemma length_init (a : Np.array) :
  length (Np.slice None (Some (-1)) a) = (length a - 1)%nat.
Proof. rewrite length_slice, bound_minus_one. cbn [Np.bound]. lia. Qed.

Lemma length_interior (a : Np.array) :
  length (Np.slice (Some 1) (Some (-1)) a) = (length a - 2)%nat.
Proof. rewrite length_slice, bound_one, bound_minus_one. lia. Qed.

Lemma entry_lookup (a : Np.array) (i : nat) (x : float) :
  a !! i = Some x -> entry a i = x.
Proof. unfold entry. intros ->. reflexivity. Qed.

Lemma lookup_map {A B} (g : A -> B) (l : list A) (i : nat) :
  map g l !! i = g <$> l !! i.
Proof. revert i. induction l as [|x l IH]; intros [|i]; simpl; auto. Qed.

End VectorOps.

Section Elementwise.
Context `{Platform}.

(** The vectorised H update computes operation 1. *)
Lemma H_update_elementwise (s : FDTD) :
  length (E s) = S (length (H s)) -> length (mu s) = length (H s) ->
  exists dE q : Np.array,
    Np.sub (Np.slice (Some 1) None (E s)) (Np.slice None (Some (-1)) (E s)) = Ok dE /\
    Np.div (Np.rscalar F64.mul dE (Sc s)) (Np.lscalar F64.mul W_0 (mu s)) = Ok q /\
    Np.add (H s) q = Ok (yee_H s).
Proof.
  intros HE Hmu.
  assert (Hlen1 : length (Np.slice (Some 1) None (E s)) =
                  length (Np.slice None (Some (-1)) (E s)))
    by (rewrite length_tail, length_init; reflexivity).
  eexists. eexists.
  split; [apply map2_same_length, Hlen1|].
  assert (Hlen2 : length (Np.rscalar F64.mul
                    (zip_with F64.sub (Np.slice (Some 1) None (E s))
                       (Np.slice None (Some (-1)) (E s))) (Sc s)) =
                  length (Np.lscalar F64.mul W_0 (mu s))).
  { unfold Np.rscalar, Np.lscalar. rewrite !length_map, length_zip_with.
    rewrite length_tail, length_init. lia. }
  split; [apply map2_same_length, Hlen2|].
  unfold Np.add. rewrite map2_same_length.
  2:{ rewrite length_zip_with, <- Hlen2. unfold Np.rscalar.
      rewrite length_map, length_zip_with, length_tail, length_init. lia. }
  f_equal. apply list_eq. intros i. unfold yee_H.
  rewrite list_lookup_imap, !lookup_zip_with.
  unfold Np.rscalar, Np.lscalar. rewrite !lookup_map, lookup_zip_with.
  rewrite lookup_tail, lookup_init.
  destruct (H s !! i) as [h|] eqn:Hh; [|reflexivity]. simpl.
  apply lookup_lt_Some in Hh as Hi.
  destruct (lookup_lt_is_Some_2 (E s) (S i) ltac:(lia)) as [e1 He1].
  destruct (lookup_lt_is_Some_2 (E s) i ltac:(lia)) as [e0 He0].
  destruct (lookup_lt_is_Some_2 (mu s) i ltac:(lia)) as [m Hm].
  destruct (Nat.ltb_spec (S i) (length (E s))); [|lia].
  rewrite He1, He0, Hm. simpl.
  rewrite (entry_lookup _ _ _ He1), (entry_lookup _ _ _ He0), (entry_lookup _ _ _ Hm).
  reflexivity.
Qed.

(** The vectorised interior E update computes operation 3. *)
Lemma E_update_elementwise (r : RunAttrs) (s : FDTD) :
  length (E s) = S (length (H s)) ->
  length (ceze r) = length (E s) -> length (cezh r) = length (E s) ->
  exists a dH b rhs : Np.array,
    Np.mul (Np.slice (Some 1) (Some (-1)) (ceze r))
           (Np.slice (Some 1) (Some (-1)) (E s)) = Ok a /\
    Np.sub (Np.slice (Some 1) None (H s)) (Np.slice None (Some (-1)) (H s)) = Ok dH /\
    Np.mul (Np.rscalar F64.mul dH (Sc s))
           (Np.slice (Some 1) (Some (-1)) (cezh r)) = Ok b /\
    Np.add a b = Ok rhs /\
    Np.setslice (Some 1) (Some (-1)) rhs (E s) = Ok (yee_E r s).
Proof.
  intros HE Hcz Hch.
  eexists. eexists. eexists. eexists.
  split; [apply map2_same_length; rewrite !length_interior; lia|].
  split; [apply map2_same_length; rewrite length_tail, length_init; lia|].
  split.
  { apply map2_same_length. unfold Np.rscalar.
    rewrite length_map, length_zip_with, length_tail, length_init, length_interior. lia. }
  split.
  { apply map2_same_length. unfold Np.rscalar.
    rewrite !length_zip_with, length_map, length_zip_with.
    rewrite length_tail, length_init, !length_interior. lia. }
  set (rhs := zip_with F64.add _ _).
  assert (Hrhs : length rhs = (length (E s) - 2)%nat).
  { unfold rhs, Np.rscalar.
    rewrite !length_zip_with, length_map, length_zip_with.
    rewrite length_tail, length_init, !length_interior. lia. }
  assert (Hlook : forall j, (S (S j) < length (E s))%nat ->
            rhs !! j =
            Some (F64.add (F64.mul (entry (ceze r) (S j)) (entry (E s) (S j)))
                    (F64.mul (F64.mul (F64.sub (entry (H s) (S j)) (entry (H s) j)) (Sc s))
                             (entry (cezh r) (S j))))).
  { intros j Hj. unfold rhs, Np.rscalar.
    rewrite !lookup_zip_with, lookup_map, lookup_zip_with.
    rewrite !lookup_interior, lookup_tail, lookup_init.
    destruct (lookup_lt_is_Some_2 (ceze r) (S j) ltac:(lia)) as [x1 Hx1].
    destruct (lookup_lt_is_Some_2 (E s) (S j) ltac:(lia)) as [x2 Hx2].
    destruct (lookup_lt_is_Some_2 (H s) (S j) ltac:(lia)) as [x3 Hx3].
    destruct (lookup_lt_is_Some_2 (H s) j ltac:(lia)) as [x4 Hx4].
    destruct (lookup_lt_is_Some_2 (cezh r) (S j) ltac:(lia)) as [x5 Hx5].
    destruct (Nat.ltb_spec (S (S j)) (length (ceze r))); [|lia].
    destruct (Nat.ltb_spec (S (S j)) (length (E s))); [|lia].
    destruct (Nat.ltb_spec (S (S j)) (length (cezh r))); [|lia].
    destruct (Nat.ltb_spec (S j) (length (H s))); [|lia].
    rewrite Hx1, Hx2, Hx3, Hx4, Hx5. simpl.
    rewrite (entry_lookup _ _ _ Hx1), (entry_lookup _ _ _ Hx2), (entry_lookup _ _ _ Hx3),
      (entry_lookup _ _ _ Hx4), (entry_lookup _ _ _ Hx5).
    reflexivity. }
  unfold Np.setslice. rewrite bound_one, bound_minus_one, Hrhs.
  replace (length (E s) - 1 - Nat.min 1 (length (E s)))%nat
    with (length (E s) - 2)%nat by lia.
  rewrite Nat.eqb_refl.
  destruct (Nat.ltb_spec (Nat.min 1 (length (E s))) (length (E s) - 1)) as [Hlt|Hge];
    f_equal; apply list_eq; intros i; unfold yee_E; rewrite list_lookup_imap.
  - replace (Nat.min 1 (length (E s))) with 1%nat by lia.
    destruct i as [|i].
    + rewrite lookup_app_l by (rewrite length_take; lia).
      rewrite lookup_take_lt by lia. simpl. destruct (E s !! 0%nat); reflexivity.
    + rewrite lookup_app_r by (rewrite length_take; lia).
      rewrite length_take. replace (S i - Nat.min 1 (length (E s)))%nat with i by lia.
      destruct (Nat.ltb_spec (S (S i)) (length (E s))) as [Hi|Hi].
      * rewrite lookup_app_l by lia. rewrite (Hlook i Hi).
        destruct (lookup_lt_is_Some_2 (E s) (S i) ltac:(lia)) as [e He].
        rewrite He. simpl. rewrite (entry_lookup _ _ _ He).
        replace (i - 0)%nat with i by lia. reflexivity.
      * rewrite lookup_app_r by lia. rewrite lookup_drop, Hrhs.
        replace (length (E s) - 1 + (i - (length (E s) - 2)))%nat with (S i) by lia.
        simpl. destruct (E s !! S i); reflexivity.
  - destruct (Nat.ltb_spec 0 i), (Nat.ltb_spec (S i) (length (E s))); simpl;
      try (destruct (E s !! i); reflexivity).
    lia.
Qed.

End Elementwise.

Section StepOrder.
Context `{Platform}.

(** Two continuations that agree on the worlds a method can end in give
    the same program. *)
Lemma bind_cong {A B C} (f : World -> C) (m : M A) (k1 k2 : A -> M B) (w : World) :
  preserves f m ->
  (forall a w', f w' = f w -> k1 a w' = k2 a w') ->
  (m ≫= k1) w = (m ≫= k2) w.
Proof.
  intros Hp Hk. rewrite !bind_unfold.
  destruct (m w) as [w' [a|e]] eqn:Hm; [|reflexivity].
  apply Hk. eapply Hp, Hm.
Qed.

Lemma inject_H_length (r : RunAttrs) (src_ref : ref) :
  preserves (fun w => length (H (self w))) (inject_H r src_ref).
Proof.
  intros w w' res. unfold inject_H.
  destruct (source_objs w !! src_ref) as [src|] eqn:Hsrc.
  2:{ rewrite bind_unfold. unfold deref_source. rewrite Hsrc. intros [= <- <-]. reflexivity. }
  rewrite (run_bind_deref_source _ src) by exact Hsrc.
  repeat (first
    [ mrun_step
    | match goal with
      | |- context [(lift ?x ≫= _) _] =>
          let Hx := fresh "Hx" in destruct x eqn:Hx
      end ]);
    intros [= <- <-]; try reflexivity.
  cbn [self H set_H].
  match goal with
  | Hx : Np.setitem _ _ _ = Ok _ |- _ =>
      unfold Np.setitem in Hx; destruct (Np.index _ _); [|discriminate];
      injection Hx as <-
  end.
  apply length_insert.
Qed.

Lemma op2_frame (r : RunAttrs) (srcs : list ref) :
  preserves frame_H (for_each srcs (inject_H r)).
Proof.
  apply preserves_for_each. intros src_ref w w' res Hw. unfold frame_H.
  rewrite (inject_H_length r src_ref w w' res Hw).
  assert (Hp : preserves (fun w => (E (self w), mu (self w), Sc (self w), dt (self w)))
                 (inject_H r src_ref)) by (unfold inject_H; preserve).
  specialize (Hp w w' res Hw). simpl in Hp. congruence.
Qed.

Lemma for_each_ext {A} (l : list A) (body1 body2 : A -> M unit) (w : World) :
  (forall x w', body1 x w' = body2 x w') ->
  for_each l body1 w = for_each l body2 w.
Proof.
  intros Hb. revert w. induction l as [|x l IH]; intros w; [reflexivity|].
  cbn [for_each]. rewrite !bind_unfold, Hb.
  destruct (body2 x w) as [w' [[]|e]]; [apply IH|reflexivity].
Qed.

Lemma bind_ext_l {A B} (m1 m2 : M A) (k : A -> M B) (w : World) :
  m1 w = m2 w -> (m1 ≫= k) w = (m2 ≫= k) w.
Proof. intros Hm. rewrite !bind_unfold, Hm. reflexivity. Qed.

(** The statements of the two source loops compute operations 2 and 5. *)
Lemma inject_H_spec (r : RunAttrs) (src_ref : ref) (w : World) :
  inject_H r src_ref w = source_decreases_H r src_ref w.
Proof.
  unfold inject_H, source_decreases_H, H_decreased.
  destruct (source_objs w !! src_ref) as [src|] eqn:Hsrc.
  2:{ rewrite !bind_unfold. unfold deref_source. rewrite Hsrc. reflexivity. }
  rewrite !(run_bind_deref_source _ src) by exact Hsrc.
  destruct (Source.index src) as [p|e]; mrun; [|reflexivity]. unfold id.
  destruct (Np.getitem (H (self w)) (p - 1)) as [h|e];
    cbn [mbind res_mbind res_bind]; mrun; [|reflexivity].
  destruct (Np.getitem (mu (self w)) (p - 1)) as [m|e];
    cbn [mbind res_mbind res_bind]; mrun; [|reflexivity].
  destruct (Py.truediv (current_time r) (dt (self w))) as [t|e];
    cbn [mbind res_mbind res_bind]; mrun; [|reflexivity].
  reflexivity.
Qed.

Lemma inject_E_spec (r : RunAttrs) (src_ref : ref) (w : World) :
  inject_E r src_ref w = source_increases_E r src_ref w.
Proof.
  unfold inject_E, source_increases_E, E_increased.
  destruct (source_objs w !! src_ref) as [src|] eqn:Hsrc.
  2:{ rewrite !bind_unfold. unfold deref_source. rewrite Hsrc. reflexivity. }
  rewrite !(run_bind_deref_source _ src) by exact Hsrc.
  destruct (Source.index src) as [p|e]; mrun; [|reflexivity]. unfold id.
  destruct (Np.getitem (E (self w)) p) as [e0|e];
    cbn [mbind res_mbind res_bind]; mrun; [|reflexivity].
  destruct (Np.getitem (eps (self w)) p) as [e1|e];
    cbn [mbind res_mbind res_bind]; mrun; [|reflexivity].
  destruct (Np.getitem (mu (self w)) p) as [m|e];
    cbn [mbind res_mbind res_bind]; mrun; [|reflexivity].
  destruct (Py.truediv (current_time r) (dt (self w))) as [t|e];
    cbn [mbind res_mbind res_bind]; mrun; [|reflexivity].
  reflexivity.
Qed.

Lemma update_left_dt : preserves (fun w => dt (self w)) update_left.
Proof. unfold update_left. preserve. Qed.

Lemma update_right_dt : preserves (fun w => dt (self w)) update_right.
Proof. unfold update_right. preserve. Qed.

Lemma op5_dt (r : RunAttrs) (srcs : list ref) :
  preserves (fun w => dt (self w)) (for_each srcs (inject_E r)).
Proof. unfold inject_E. preserve. Qed.

Lemma sample_probes_dt : preserves (fun w => dt (self w)) sample_probes.
Proof. unfold sample_probes. preserve. Qed.

Lemma yee_E_edges (r : RunAttrs) (s : FDTD) :
  yee_E r s !! 0%nat = E s !! 0%nat /\
  yee_E r s !! (length (E s) - 1)%nat = E s !! (length (E s) - 1)%nat.
Proof.
  unfold yee_E. rewrite !list_lookup_imap. split.
  - simpl. destruct (E s !! 0%nat); reflexivity.
  - destruct (Nat.ltb_spec 0 (length (E s) - 1)),
             (Nat.ltb_spec (S (length (E s) - 1)) (length (E s)));
      simpl; try lia; destruct (E s !! _); reflexivity.
Qed.

Lemma setitem_edge (a a' : Np.array) (i : Z) (v : float) :
  i = 0 \/ i = -1 ->
  Np.setitem a i v = Ok a' ->
  length a' = length a /\
  forall j : nat, (0 < j)%nat -> (S j < length a)%nat -> a' !! j = a !! j.
Proof.
  intros Hi. unfold Np.setitem, Np.index.
  destruct ((0 <=? i) && (i <? Z.of_nat (length a))) eqn:H1;
    [|destruct ((- Z.of_nat (length a) <=? i) && (i <? 0)) eqn:H2; [|discriminate]];
    intros [= <-]; (split; [apply length_insert|]);
    intros j Hj1 Hj2; apply list_lookup_insert_ne; lia.
Qed.

Lemma update_field_edges (E_ H_ E' : Np.array) (b b' : Boundary) :
  update_field E_ H_ b = Ok (E', b') ->
  length E' = length E_ /\
  forall j : nat, (0 < j)%nat -> (S j < length E_)%nat -> E' !! j = E_ !! j.
Proof.
  destruct b as [[]|a|]; cbn [update_field]; [| | |discriminate].
  - destruct (Np.setitem E_ 0 F64.zero) as [E1|] eqn:HE1;
      cbn [mbind res_mbind res_bind]; [|discriminate].
    intros [= <- _]. eapply setitem_edge; [|exact HE1]. auto.
  - destruct (Np.setitem E_ (-1) F64.zero) as [E1|] eqn:HE1;
      cbn [mbind res_mbind res_bind]; [|discriminate].
    intros [= <- _]. eapply setitem_edge; [|exact HE1]. auto.
  - unfold ABCBase.update_field.
    destruct (Np.setitem E_ _ _) as [E1|] eqn:HE1;
      cbn [mbind res_mbind res_bind]; [|discriminate].
    intros [= <- _]. eapply setitem_edge; [|exact HE1].
    unfold ABCBase.edge_index. destruct (ABCBase.edge a); auto.
Qed.

Lemma setitem_first (a a' : Np.array) (v : float) :
  Np.setitem a 0 v = Ok a' ->
  length a' = length a /\ a' !! 0%nat = Some v /\
  forall j : nat, j <> 0%nat -> a' !! j = a !! j.
Proof.
  unfold Np.setitem, Np.index.
  destruct (Z.ltb_spec 0 (Z.of_nat (length a)));
    change (0 <=? 0) with true; cbn [andb];
    [|change (0 <? 0) with false; rewrite andb_false_r; discriminate].
  intros [= <-]. split; [apply length_insert|]. split.
  - apply list_lookup_insert_eq. simpl. lia.
  - intros j Hj. apply list_lookup_insert_ne. simpl. lia.
Qed.

Lemma setitem_last (a a' : Np.array) (v : float) :
  Np.setitem a (-1) v = Ok a' ->
  length a' = length a /\ a' !! (length a - 1)%nat = Some v /\
  forall j : nat, j <> (length a - 1)%nat -> a' !! j = a !! j.
Proof.
  unfold Np.setitem, Np.index.
  change (0 <=? -1) with false. change (-1 <? 0) with true. cbn [andb].
  rewrite andb_true_r.
  destruct (Z.leb_spec (- Z.of_nat (length a)) (-1)); [|discriminate].
  intros [= <-]. split; [apply length_insert|].
  replace (Z.to_nat (-1 + Z.of_nat (length a))) with (length a - 1)%nat by lia.
  split.
  - apply list_lookup_insert_eq. lia.
  - intros j Hj. apply list_lookup_insert_ne. lia.
Qed.

Lemma op4_edges (w w' : World) :
  op4_boundaries w = (w', Ok tt) ->
  length (E (self w')) = length (E (self w)) /\
  forall j : nat, (0 < j)%nat -> (S j < length (E (self w)))%nat ->
                  E (self w') !! j = E (self w) !! j.
Proof.
  unfold op4_boundaries, update_left, update_right. mrun.
  mlift H1; mrun; [|discriminate].
  match goal with p : (Np.array * Boundary)%type |- _ => destruct p as [E1 b1] end. mrun.
  mlift H2; mrun; [|discriminate].
  match goal with p : (Np.array * Boundary)%type |- _ => destruct p as [E2 b2] end. mrun.
  intros [= <-]. cbn [self E set_E set_boundary].
  apply update_field_edges in H1 as [Hl1 He1], H2 as [Hl2 He2].
  split; [congruence|]. intros j Hj1 Hj2.
  rewrite He2 by lia. apply He1; lia.
Qed.

(** [next_iteration] is the seven operations, in their order. *)
Lemma next_iteration_in_order (w : World) (r : RunAttrs) (k : Z) :
  run (self w) = Some r ->
  Py.int_floordiv (PFloat (current_time r)) (dt (self w)) = Ok k ->
  k < time_counts (self w) ->
  shapes_ok r (self w) ->
  next_iteration w = step_in_order r w.
Proof.
  intros Hrun Hk Hlt (HEl & Hmul & Hczl & Hchl).
  unfold next_iteration, step_in_order.
  rewrite (run_bind_run_attrs r) by exact Hrun. mrun. rewrite Hk. mrun.
  destruct (Z.ltb_spec k (time_counts (self w))); [|lia].
  (* operation 1 *)
  destruct (H_update_elementwise (self w) HEl Hmul) as (dE & q & HdE & Hq & HH').
  mrun. rewrite HdE. mrun. rewrite Hq. mrun. rewrite HH'. mrun.
  unfold op1_update_H. mrun.
  (* operation 2 *)
  unfold op2_inject_H. mrun.
  etransitivity;
    [|apply bind_ext_l, for_each_ext; intros; apply inject_H_spec].
  apply (bind_cong frame_H); [apply op2_frame|].
  intros [] w2 Hfr. unfold frame_H in Hfr.
  cbn [self E H mu Sc dt set_H] in Hfr. unfold yee_H in Hfr at 1.
  rewrite length_imap in Hfr. injection Hfr as HE2 Hmu2 HSc2 Hdt2 Hlen2.
  (* operation 3 *)
  destruct (E_update_elementwise r (self w2))
    as (a & dH & b & rhs & Ha & HdH & Hb & Hrhs & HE'); try congruence.
  mrun. rewrite Ha. mrun. rewrite HdH. mrun. rewrite <- HSc2, Hb. mrun.
  rewrite Hrhs. mrun. rewrite HE'. mrun.
  unfold op3_update_E. mrun.
  (* operations 4 to 7 *)
  unfold op4_boundaries, op5_inject_E, op6_probes, op7_advance. mrun.
  apply (bind_cong (fun w => dt (self w))); [apply update_left_dt|].
  intros [] w4 Hd4. mrun.
  apply (bind_cong (fun w => dt (self w))); [apply update_right_dt|].
  intros [] w5 Hd5. mrun.
  etransitivity;
    [|apply bind_ext_l, for_each_ext; intros; apply inject_E_spec].
  apply (bind_cong (fun w => dt (self w))); [apply op5_dt|].
  intros [] w6 Hd6. mrun.
  apply (bind_cong (fun w => dt (self w))); [apply sample_probes_dt|].
  intros [] w7 Hd7. mrun.
  cbn [self dt set_E] in Hd4. do 4 f_equal. congruence.
Qed.


(** Operation 4 is the two [update_field] calls, left then right. *)
Lemma op4_applied (w1 w2 : World) :
  op4_boundaries w1 = (w2, Ok tt) -> boundaries_applied w1 w2.
Proof.
  unfold op4_boundaries, update_left, update_right. mrun.
  mlift H1; mrun; [|discriminate].
  match goal with p : (Np.array * Boundary)%type |- _ => destruct p as [E1 b1] end. mrun.
  mlift H2; mrun; [|discriminate].
  match goal with p : (Np.array * Boundary)%type |- _ => destruct p as [E2 b2] end. mrun.
  intros [= <-]. exists E1, b1, b2. cbn [self E set_E set_boundary].
  split; [exact H1|]. split; [exact H2|]. reflexivity.
Qed.

(** With the default boundaries, operation 4 sets both edge entries to zero. *)
Lemma op4_fixed_edges (w1 w2 : World) :
  boundary (self w1) = Boundaries.mk PECLeft PECRight ->
  op4_boundaries w1 = (w2, Ok tt) ->
  E (self w2) !! 0%nat = Some F64.zero /\
  E (self w2) !! (length (E (self w1)) - 1)%nat = Some F64.zero.
Proof.
  intros Hbd Hop. destruct (op4_applied _ _ Hop) as (E1 & bl & br & H1 & H2 & _).
  rewrite Hbd in H1, H2.
  cbn [Boundaries.left Boundaries.right PECLeft PECRight update_field] in H1, H2.
  destruct (Np.setitem (E (self w1)) 0 F64.zero) as [E1'|] eqn:HE1;
    cbn [mbind res_mbind res_bind] in H1; [|discriminate].
  injection H1 as <- _.
  destruct (Np.setitem E1' (-1) F64.zero) as [E2|] eqn:HE2;
    cbn [mbind res_mbind res_bind] in H2; [|discriminate].
  injection H2 as <- _.
  destruct (setitem_first _ _ _ HE1) as (Hl1 & H10 & _).
  destruct (setitem_last _ _ _ HE2) as (Hl2 & H2n & H2o).
  rewrite Hl1 in H2n, H2o. split; [|exact H2n].
  destruct (Nat.eq_dec 0%nat (length (E (self w1)) - 1)%nat) as [Heq|Hne].
  - rewrite Heq at 1. exact H2n.
  - rewrite H2o by exact Hne. exact H10.
Qed.

(** Operation 6 stores one sample in every probe. *)
Lemma add_data_recorded (E_ H_ : Np.array) (p p' : Probe.t) :
  Probe.add_data E_ H_ p = Ok p' -> sample_recorded E_ H_ p p'.
Proof.
  unfold Probe.add_data, sample_recorded.
  destruct (Np.getitem E_ _) as [e|]; cbn [mbind res_mbind res_bind]; [|discriminate].
  destruct (Np.getitem H_ _) as [h|]; cbn [mbind res_mbind res_bind]; [|discriminate].
  destruct (Nat.ltb_spec (Probe.filled p) (length (Probe.series p))); [|discriminate].
  intros [= <-]. exists e, h. auto.
Qed.

Lemma probes_add_data_recorded (E_ H_ : Np.array) (ps ps' : list Probe.t) :
  probes_add_data E_ H_ ps = (ps', Ok tt) -> Forall2 (sample_recorded E_ H_) ps ps'.
Proof.
  revert ps'. induction ps as [|p ps IH]; intros ps'; cbn [probes_add_data].
  - intros [= <-]. constructor.
  - destruct (Probe.add_data E_ H_ p) as [p1|] eqn:Hp; [|discriminate].
    destruct (probes_add_data E_ H_ ps) as [ps1 res] eqn:Hps.
    intros [= <- ->]. constructor; [apply add_data_recorded, Hp | apply IH; reflexivity].
Qed.

Lemma op6_sampled (w1 w2 : World) :
  op6_probes w1 = (w2, Ok tt) -> probes_sampled w1 w2.
Proof.
  unfold op6_probes, sample_probes, probes_sampled. mrun.
  destruct (probes_add_data _ _ _) as [ps' res] eqn:Hps. mrun.
  destruct res as [[]|e]; mrun; [|discriminate].
  intros [= <-]. cbn [self probes set_probes].
  split; [apply probes_add_data_recorded, Hps | reflexivity].
Qed.

(** What the first five operations leave alone. *)
Lemma before_sampling (r : RunAttrs) (m : M unit) :
  m = op1_update_H \/ m = op2_inject_H r \/ m = op3_update_E r \/
  m = op4_boundaries \/ m = op5_inject_E r ->
  preserves (fun w => (probes (self w), run (self w), dt (self w))) m.
Proof.
  intros [->|[->|[->|[->| ->]]]];
    unfold op1_update_H, op2_inject_H, op3_update_E, op4_boundaries, op5_inject_E,
      source_decreases_H, source_increases_E, update_left, update_right; preserve.
Qed.

(** A completed step, seen from outside: every probe has recorded the
    fields the step ends with, and the current time has grown by [dt]. *)
Lemma step_in_order_end (r : RunAttrs) (w w' : World) :
  run (self w) = Some r ->
  step_in_order r w = (w', Ok true) ->
  Forall2 (sample_recorded (E (self w')) (H (self w')))
    (probes (self w)) (probes (self w')) /\
  run (self w') =
    Some (mkRun (ceze r) (cezh r) (F64.add (current_time r) (dt (self w)))
            (timer_active r)).
Proof.
  intros Hrun. unfold step_in_order.
  rewrite bind_unfold.
  destruct (op1_update_H w) as [w1 [[]|e1]] eqn:H1; [|discriminate].
  apply (before_sampling r) in H1; [|auto]. rewrite bind_unfold.
  destruct (op2_inject_H r w1) as [w2 [[]|e2]] eqn:H2; [|discriminate].
  apply (before_sampling r) in H2; [|auto]. rewrite bind_unfold.
  destruct (op3_update_E r w2) as [w3 [[]|e3]] eqn:H3; [|discriminate].
  apply (before_sampling r) in H3; [|auto]. rewrite bind_unfold.
  destruct (op4_boundaries w3) as [w4 [[]|e4]] eqn:H4; [|discriminate].
  apply (before_sampling r) in H4; [|auto]. rewrite bind_unfold.
  destruct (op5_inject_E r w4) as [w5 [[]|e5]] eqn:H5; [|discriminate].
  apply (before_sampling r) in H5; [|auto 6].
  assert (H05 : (probes (self w5), run (self w5), dt (self w5)) =
                (probes (self w), run (self w), dt (self w))) by congruence.
  injection H05 as Hps5 Hrun5 Hdt5.
  rewrite bind_unfold.
  destruct (op6_probes w5) as [w6 [[]|e6]] eqn:H6; [|discriminate].
  apply op6_sampled in H6 as [Hall ->].
  unfold op7_advance. mrun. intros [= <-].
  cbn [self E H probes run set_run set_probes dt].
  rewrite <- Hps5, Hdt5. split; [exact Hall|reflexivity].
Qed.

(** C1: while [int(current_time // dt)] is below [time_counts], on an
    engine with the array shapes the constructor and [analyze] establish,
    one call of [next_iteration] is the seven operations in this order:
    (1) [H] becomes [H + (E[1:] - E[:-1]) * Sc / (W_0 * mu)] entry by
    entry; (2) every registered source subtracts its term from
    [H[position - 1]]; (3) the interior of [E] becomes
    [ceze * E + (H[1:] - H[:-1]) * Sc * cezh] entry by entry, the two edge
    entries being untouched; (4) the update_field of the left and then of
    the right boundary object run on [E], which change [E] in its two edge
    entries only and, for the default fixed-value boundaries, set both to
    zero; (5) every registered source adds its term to [E[position]];
    (6) every probe stores the pair of [E] and [H] at its position as the
    next entry of its series; (7) the current time grows by [dt].  A call
    that returns has, in every registered probe, recorded the fields the
    step ends with, and has advanced the current time by [dt]. *)
Theorem step_order (w : World) (r : RunAttrs) (k : Z) :
  run (self w) = Some r ->
  Py.int_floordiv (PFloat (current_time r)) (dt (self w)) = Ok k ->
  k < time_counts (self w) ->
  shapes_ok r (self w) ->
  next_iteration w = step_in_order r w /\
  (forall s : FDTD,
      yee_E r s !! 0%nat = E s !! 0%nat /\
      yee_E r s !! (length (E s) - 1)%nat = E s !! (length (E s) - 1)%nat) /\
  (forall w1 w2 : World,
      op4_boundaries w1 = (w2, Ok tt) ->
      length (E (self w2)) = length (E (self w1)) /\
      forall j : nat, (0 < j)%nat -> (S j < length (E (self w1)))%nat ->
                      E (self w2) !! j = E (self w1) !! j) /\
  (forall w1 w2 : World,
      op4_boundaries w1 = (w2, Ok tt) ->
      boundaries_applied w1 w2 /\
      (boundary (self w1) = Boundaries.mk PECLeft PECRight ->
       E (self w2) !! 0%nat = Some F64.zero /\
       E (self w2) !! (length (E (self w1)) - 1)%nat = Some F64.zero)) /\
  (forall w1 w2 : World, op6_probes w1 = (w2, Ok tt) -> probes_sampled w1 w2) /\
  (forall w' : World,
      next_iteration w = (w', Ok true) ->
      Forall2 (sample_recorded (E (self w')) (H (self w')))
        (probes (self w)) (probes (self w')) /\
      run (self w') =
        Some (mkRun (ceze r) (cezh r) (F64.add (current_time r) (dt (self w)))
                (timer_active r))).
Proof.
  intros Hrun Hk Hlt Hsh.
  pose proof (next_iteration_in_order w r k Hrun Hk Hlt Hsh) as Heq.
  split; [exact Heq|]. split; [apply yee_E_edges|]. split; [apply op4_edges|].
  split; [|split].
  - intros w1 w2 Hop. split; [apply op4_applied, Hop|].
    intros Hbd. apply (op4_fixed_edges _ _ Hbd Hop).
  - apply op6_sampled.
  - intros w' Hn. rewrite Heq in Hn. apply (step_in_order_end r w w' Hrun Hn).
Qed.

End StepOrder.

(** One step of the four-cell engine with a source and a probe: it is the
    seven operations, and the probe holds its first sample afterwards. *)
Lemma step_order_witness :
  exists (r : RunAttrs) (w' : World),
    run (self probed_world) = Some r /\
    next_iteration probed_world = step_in_order r probed_world /\
    next_iteration probed_world = (w', Ok true) /\
    Forall2 (sample_recorded (E (self w')) (H (self w')))
      (probes (self probed_world)) (probes (self w')) /\
    Probe.filled <$> probes (self probed_world) = [0%nat] /\
    Probe.filled <$> probes (self w') = [1%nat].
Proof.
  assert (Hn : next_iteration probed_world =
               (exec next_iteration probed_world, Ok true))
    by (vm_compute; reflexivity).
  eexists. exists (exec next_iteration probed_world).
  split; [reflexivity|].
  match goal with
  | |- next_iteration _ = step_in_order ?r _ /\ _ =>
      destruct (step_order probed_world r 0) as (Heq & _ & _ & _ & _ & Hend)
  end.
  - reflexivity.
  - vm_compute. reflexivity.
  - vm_compute. reflexivity.
  - repeat split; reflexivity.
  - split; [exact Heq|]. split; [exact Hn|].
    split; [exact (proj1 (Hend _ Hn))|]. split; vm_compute; reflexivity.
Defined.

(** ** The reachable worlds are well formed *)

Section Invariant.
Context `{Platform}.

Lemma store_ok_mono (lo lo' : gmap ref Layer.t) (so so' : gmap ref Source.t)
    (s s' : FDTD) :
  store_ok (mkWorld lo so s) ->
  (forall r, is_Some (lo !! r) -> is_Some (lo' !! r)) ->
  (forall r, is_Some (so !! r) -> is_Some (so' !! r)) ->
  (forall r, r ∈ layers s' -> r ∈ layers s \/ is_Some (lo' !! r)) ->
  (forall r, r ∈ sources s' -> r ∈ sources s \/ is_Some (so' !! r)) ->
  store_ok (mkWorld lo' so' s').
Proof.
  intros [Hl Hs] Hlo Hso Hls Hss. rewrite Forall_forall in Hl, Hs.
  split; apply Forall_forall; intros r Hr; cbn [layer_objs source_objs self] in *.
  - destruct (Hls r Hr); auto.
  - destruct (Hss r Hr); auto.
Qed.

Lemma shaped_same (s s' : FDTD) :
  (E s', H s', eps s', mu s', sigma s', run s') =
  (E s, H s, eps s, mu s, sigma s, run s) ->
  shaped s -> shaped s'.
Proof. unfold shaped. intros [= -> -> -> -> -> ->]. auto. Qed.

(** A method that leaves the stores, the registrations, the arrays and the
    run attributes alone keeps a world well formed. *)
Lemma frame_keeps {A} (m : M A) :
  preserves (fun w => (layer_objs w, source_objs w, layers (self w), sources (self w),
                       (E (self w), H (self w), eps (self w), mu (self w),
                        sigma (self w), run (self w)))) m ->
  keeps well_formed m.
Proof.
  intros Hp w w' r [Hst Hsh] Hm. specialize (Hp w w' r Hm).
  injection Hp as Hlo Hso Hl Hs Harr.
  destruct w as [lo so s], w' as [lo' so' s']. cbn [layer_objs source_objs self] in *.
  subst lo' so'. split; [|eapply shaped_same; [|exact Hsh]; cbn [self]; congruence].
  eapply store_ok_mono; [exact Hst|auto|auto|rewrite Hl; auto|rewrite Hs; auto].
Qed.

Lemma simple_calls_keep :
  keeps well_formed update_boundary /\
  (forall b, keeps well_formed (set_left_boundary b)) /\
  (forall b, keeps well_formed (set_right_boundary b)) /\
  (forall v, keeps well_formed (add_probes v)).
Proof.
  split; [|split; [|split]]; intros; apply frame_keeps;
    unfold update_boundary, refresh_absorbing, set_left_boundary, set_right_boundary,
           add_probes, append_probe; preserve.
Qed.

Lemma add_source_keeps (source : ref) : keeps well_formed (add_source source).
Proof.
  intros [lo so s] w' res [Hst Hsh]. unfold add_source.
  destruct (so !! source) as [src|] eqn:Hsrc.
  2:{ rewrite bind_unfold. unfold deref_source. cbn [source_objs]. rewrite Hsrc.
      intros [= <- <-]. split; assumption. }
  rewrite (run_bind_deref_source _ src) by exact Hsrc.
  repeat first
    [ mrun_step
    | match goal with |- context [(lift ?x ≫= _) _] => destruct x end ];
    intros [= <- <-];
    (split; [|eapply shaped_same; [|exact Hsh]; reflexivity]);
    (eapply store_ok_mono;
     [ exact Hst | auto | intros r; rewrite ?lookup_alter_is_Some; auto | auto
     | first
         [ solve [auto]
         | cbn [sources set_sources]; intros r;
           rewrite elem_of_app, list_elem_of_singleton, ?lookup_alter_is_Some;
           intros [?| ->]; eauto ] ]).
Qed.

Lemma fill_range_keeps (b e : Z) (x y z : float) :
  keeps well_formed (fill_range b e x y z).
Proof.
  intros [lo so s] w' res [Hst (HE & Hmu & Heps & Hsig & Hco)]. unfold fill_range. mrun.
  intros [= <- <-]. split; [eapply store_ok_mono; [exact Hst|auto..]|].
  unfold shaped. cbn [self E H eps mu sigma run set_eps set_mu set_sigma].
  rewrite !length_setslice_scalar. auto.
Qed.

Lemma keeps_bind {A B} (P : World -> Prop) (m : M A) (k : A -> M B) :
  keeps P m -> (forall a, keeps P (k a)) -> keeps P (m ≫= k).
Proof.
  intros Hm Hk w w' r HP. rewrite bind_unfold.
  destruct (m w) as [w1 [a|e]] eqn:Hmw.
  - intros Hka. eapply Hk; [|exact Hka]. eapply Hm; eauto.
  - intros [= <- <-]. eapply Hm; eauto.
Qed.


Lemma keeps_for_each {A} (P : World -> Prop) (l : list A) (body : A -> M unit) :
  (forall a, keeps P (body a)) -> keeps P (for_each l body).
Proof.
  intros Hb. induction l as [|a l IH]; simpl.
  - intros w w' r HP [= <- <-]. exact HP.
  - apply keeps_bind; [apply Hb | intros _; apply IH].
Qed.

Lemma pop_layer_keeps (i : nat) :
  keeps well_formed
    (ls ← attr layers; ls' ← lift (list_pop i ls); assign (set_layers ls')).
Proof.
  intros [lo so s] w' res [Hst Hsh]. mrun. unfold list_pop.
  destruct (i <? length (layers s))%nat; mrun; intros [= <- <-];
    (split; [|eapply shaped_same; [|exact Hsh]; reflexivity]).
  - eapply store_ok_mono; [exact Hst|auto..].
    cbn [layers set_layers]. intros r Hr. left. eapply list_elem_of_delete_inv, Hr.
  - exact Hst.
Qed.

Ltac keep_step :=
  first
    [ match goal with
      | |- keeps _ (fill_range _ _ _ _ _) => apply fill_range_keeps
      | |- keeps _ (attr layers ≫= _) => apply pop_layer_keeps
      | |- keeps _ (let '(_, _) := ?x in _) => destruct x
      end
    | apply frame_keeps; unfold layer_range; solve [preserve]
    | match goal with
      | |- keeps _ (_ ≫= _) => apply keeps_bind; [|intros ?]
      end ].
Ltac keep := repeat keep_step.

Lemma delete_layer_keeps (name : string) : keeps well_formed (delete_layer name).
Proof.
  assert (Hd : forall rest i, keeps well_formed (delete_from name i rest)).
  { induction rest as [|r rest IH]; intros i; cbn [delete_from]; [keep|].
    apply keeps_bind; [keep|]. intros l.
    destruct (String.eqb _ _); [unfold remove_layer; keep | apply IH]. }
  unfold delete_layer. apply keeps_bind; [keep|]. intros ls.
  apply keeps_bind; [apply Hd | intros ?; keep].
Qed.

Lemma add_layer_keeps (layer : ref) : keeps well_formed (add_layer layer).
Proof.
  intros [lo so s] w' res [Hst Hsh]. unfold add_layer. mrun.
  destruct (lo !! layer) as [L|] eqn:HL.
  2:{ rewrite bind_unfold. unfold deref_layer. cbn [layer_objs]. rewrite HL.
      intros [= <- <-]. split; assumption. }
  rewrite (run_bind_deref_layer _ L) by exact HL. mrun.
  match goal with
  | |- ?m ?w1 = _ -> _ =>
      assert (Hk : keeps well_formed m) by keep;
      intros Hm; apply (Hk _ _ _) in Hm; [exact Hm|]
  end.
  split; [|eapply shaped_same; [|exact Hsh]; reflexivity].
  eapply store_ok_mono;
    [ exact Hst | intros r; rewrite lookup_alter_is_Some; auto | auto | | auto ].
  cbn [layers set_layers]. intros r.
  rewrite elem_of_app, list_elem_of_singleton, lookup_alter_is_Some.
  intros [?| ->]; eauto.
Qed.


Lemma map2_length (f : float -> float -> float) (a b c : Np.array) :
  Np.map2 f a b = Ok c -> length a = length b -> length c = length a.
Proof.
  intros Hc Hl. rewrite (map2_same_length f a b Hl) in Hc. injection Hc as <-.
  rewrite length_zip_with. lia.
Qed.

Lemma coeff_ceze_length (sigma_ cz : Np.array) :
  coeff_ceze sigma_ = Ok cz -> length cz = length sigma_.
Proof.
  unfold coeff_ceze, Np.div, Np.lscalar. intros Hc.
  apply map2_length in Hc; rewrite ?length_map in *; auto.
Qed.

Lemma coeff_cezh_length (eps_ sigma_ ch : Np.array) :
  length eps_ = length sigma_ ->
  coeff_cezh eps_ sigma_ = Ok ch -> length ch = length eps_.
Proof.
  unfold coeff_cezh, Np.mul, Np.lscalar. intros Hl.
  destruct (Np.map2 _ _ _) as [d|] eqn:Hd; cbn [mbind res_mbind res_bind]; [|discriminate].
  intros [= <-]. apply map2_length in Hd; rewrite ?length_map in *; auto.
Qed.

Lemma analyze_keeps : keeps well_formed analyze.
Proof.
  unfold analyze. apply keeps_bind; [apply simple_calls_keep|]. intros _.
  intros [lo so s] w' res [Hst Hsh]. mrun.
  mlift Hcz; mrun; [|intros [= <- <-]; split; assumption].
  mlift Hch; mrun; [|intros [= <- <-]; split; assumption].
  intros [= <- <-]. split; [eapply store_ok_mono; [exact Hst|auto..]|].
  cbn [self] in *. destruct Hsh as (HE & Hmu & Heps & Hsig & _).
  unfold shaped. cbn [E H eps mu sigma run set_run].
  split; [|split; [|split; [|split]]]; try assumption.
  intros r [= <-]. cbn [ceze cezh].
  apply coeff_ceze_length in Hcz. apply coeff_cezh_length in Hch; [|congruence].
  split; congruence.
Qed.

(** *** One step keeps the shapes *)

Lemma setitem_length (a a' : Np.array) (i : Z) (v : float) :
  Np.setitem a i v = Ok a' -> length a' = length a.
Proof.
  unfold Np.setitem. destruct (Np.index _ _); [|discriminate].
  intros [= <-]. apply length_insert.
Qed.

Lemma inject_H_view (r : RunAttrs) (src_ref : ref) : preserves view (inject_H r src_ref).
Proof.
  intros w w' res Hw.
  pose proof (inject_H_length r src_ref w w' res Hw) as Hl.
  assert (Hp : preserves (fun w => (E (self w), eps (self w), mu (self w),
                                    sigma (self w), run (self w)))
                 (inject_H r src_ref)) by (unfold inject_H; preserve).
  specialize (Hp w w' res Hw). cbn beta in Hp, Hl. unfold view, lengths. congruence.
Qed.

Lemma inject_E_view (r : RunAttrs) (src_ref : ref) : preserves view (inject_E r src_ref).
Proof.
  intros w w' res. unfold inject_E.
  destruct (source_objs w !! src_ref) as [src|] eqn:Hsrc.
  2:{ rewrite bind_unfold. unfold deref_source. rewrite Hsrc. intros [= <- <-]. reflexivity. }
  rewrite (run_bind_deref_source _ src) by exact Hsrc.
  repeat (first
    [ mrun_step
    | match goal with
      | |- context [(lift ?x ≫= _) _] =>
          let Hx := fresh "Hx" in destruct x eqn:Hx
      end ]);
    intros [= <- <-]; try reflexivity.
  unfold view, lengths. cbn [self E H eps mu sigma run set_E].
  match goal with
  | Hx : Np.setitem _ _ _ = Ok _ |- _ => rewrite (setitem_length _ _ _ _ Hx)
  end.
  reflexivity.
Qed.

Lemma update_edge_view (m : M unit) :
  m = update_left \/ m = update_right -> preserves view m.
Proof.
  intros Hm w w' res. destruct Hm as [-> | ->]; unfold update_left, update_right; mrun;
    (mlift Hu; mrun; [|intros [= <- <-]; reflexivity]);
    match goal with p : (Np.array * Boundary)%type |- _ => destruct p as [E1 b1] end;
    mrun; intros [= <- <-];
    apply update_field_edges in Hu as [Hl _];
    unfold view, lengths; cbn [self E H eps mu sigma run set_E set_boundary];
    rewrite Hl; reflexivity.
Qed.

Lemma sample_probes_view : preserves view sample_probes.
Proof. unfold sample_probes. preserve. Qed.


Lemma length_setslice start stop (rhs a a' : Np.array) :
  Np.setslice start stop rhs a = Ok a' -> length a' = length a.
Proof.
  unfold Np.setslice.
  pose proof (bound_le (length a) 0 start ltac:(lia)).
  pose proof (bound_le (length a) (length a) stop ltac:(lia)).
  destruct (Nat.eqb_spec (length rhs) (Np.bound (length a) (length a) stop -
                                        Np.bound (length a) 0 start)).
  - destruct (Nat.ltb_spec (Np.bound (length a) 0 start)
                (Np.bound (length a) (length a) stop)); intros [= <-]; [|reflexivity].
    rewrite !length_app, length_take, length_drop. lia.
  - destruct rhs as [|x [|x' rhs]]; try discriminate.
    intros [= <-]. apply length_setslice_scalar.
Qed.

Lemma shaped_step (s s' : FDTD) :
  shaped s -> lengths s' = lengths s ->
  (forall r', run s' = Some r' ->
     exists r, run s = Some r /\ length (ceze r') = length (ceze r) /\
               length (cezh r') = length (cezh r)) ->
  shaped s'.
Proof.
  intros (HE & Hmu & Heps & Hsig & Hco) [= HlE HlH Hleps Hlmu Hlsig] Hr.
  unfold shaped. rewrite HlE, HlH, Hleps, Hlmu, Hlsig.
  split; [|split; [|split; [|split]]]; try assumption.
  intros r' Hr'. destruct (Hr r' Hr') as (r & Hrun & -> & ->). auto.
Qed.

(** Running a statement that preserves the observation [f]. *)
Lemma peel {A B C} (f : World -> C) (P : World -> Prop) (m : M A) (k : A -> M B)
    (w w' : World) (res : Res B) :
  preserves f m ->
  (forall w0, f w0 = f w -> P w0) ->
  (forall a w1, f w1 = f w -> k a w1 = (w', res) -> P w') ->
  (m ≫= k) w = (w', res) -> P w'.
Proof.
  intros Hp Hexit Hk. rewrite bind_unfold.
  destruct (m w) as [w1 [a|e]] eqn:Hm.
  - apply Hk. eapply Hp, Hm.
  - intros [= <- <-]. apply Hexit. eapply Hp, Hm.
Qed.

Lemma next_iteration_shaped : keeps (fun w => shaped (self w)) next_iteration.
Proof.
  intros w w' res Hsh. unfold next_iteration.
  assert (Hexit : forall w0, view w0 = view w -> shaped (self w0)).
  { intros w0 Hv. unfold view in Hv.
    pose proof (f_equal fst Hv) as Hl. pose proof (f_equal snd Hv) as Hr.
    cbn [fst snd] in Hl, Hr.
    apply (shaped_step (self w)); [exact Hsh|exact Hl|].
    intros r'. rewrite Hr. eauto. }
  destruct (run (self w)) as [r|] eqn:Hrun.
  2:{ rewrite bind_unfold. unfold run_attrs. rewrite Hrun. intros [= <- <-]. exact Hsh. }
  rewrite (run_bind_run_attrs r) by exact Hrun. mrun.
  mlift Hk; mrun; [|intros [= <- <-]; exact Hsh].
  match goal with |- context [if ?b then _ else _] => destruct b end.
  2:{ mrun. intros [= <- <-]. apply (shaped_step (self w)); [exact Hsh|reflexivity|].
      cbn [self run set_run]. intros r' [= <-]. exists r. auto. }
  pose proof Hsh as (HE & Hmu & _).
  destruct (H_update_elementwise (self w) HE Hmu) as (dE & q & HdE & Hq & HH').
  mrun. rewrite HdE. mrun. rewrite Hq. mrun. rewrite HH'. mrun.
  match goal with
  | |- (_ ≫= _) ?w1 = _ -> _ => assert (Hv1 : view w1 = view w)
  end.
  { unfold view, lengths, yee_H. cbn [self E H eps mu sigma run set_H].
    rewrite length_imap. reflexivity. }
  apply (peel view (fun w => shaped (self w)));
    [ apply preserves_for_each, inject_H_view
    | intros w0 Hv; apply Hexit; congruence | ].
  intros [] w2 Hv2. mrun.
  assert (Hx2 : forall (res0 : Res bool), (w2, res0) = (w', res) -> shaped (self w'))
    by (intros res0 [= <- <-]; apply Hexit; congruence).
  mlift Ha; mrun; [|apply Hx2].
  mlift HdH; mrun; [|apply Hx2].
  mlift Hb; mrun; [|apply Hx2].
  mlift Hrhs; mrun; [|apply Hx2].
  mlift HE'; mrun; [|apply Hx2].
  match goal with
  | |- (_ ≫= _) ?w3 = _ -> _ => assert (Hv3 : view w3 = view w)
  end.
  { rewrite <- Hv1, <- Hv2. unfold view, lengths.
    cbn [self E H eps mu sigma run set_E].
    rewrite (length_setslice _ _ _ _ _ HE'). reflexivity. }
  apply (peel view (fun w => shaped (self w)));
    [ apply update_edge_view; auto | intros w0 Hv; apply Hexit; congruence | ].
  intros [] w4 Hv4.
  apply (peel view (fun w => shaped (self w)));
    [ apply update_edge_view; auto | intros w0 Hv; apply Hexit; congruence | ].
  intros [] w5 Hv5. mrun.
  apply (peel view (fun w => shaped (self w)));
    [ apply preserves_for_each, inject_E_view
    | intros w0 Hv; apply Hexit; congruence | ].
  intros [] w6 Hv6.
  apply (peel view (fun w => shaped (self w)));
    [ apply sample_probes_view | intros w0 Hv; apply Hexit; congruence | ].
  intros [] w7 Hv7. mrun. intros [= <- <-].
  assert (Hv : view w7 = view w) by congruence. unfold view in Hv.
  pose proof (f_equal fst Hv) as Hl. cbn [fst] in Hl.
  apply (shaped_step (self w)); [exact Hsh|exact Hl|].
  cbn [self run set_run]. intros r' [= <-]. exists r. auto.
Qed.

Lemma next_iteration_keeps : keeps well_formed next_iteration.
Proof.
  intros w w' res [Hst Hsh] Hn. split; [|eapply next_iteration_shaped; eauto].
  assert (Hp : preserves (fun w => (layer_objs w, source_objs w, layers (self w),
                                    sources (self w))) next_iteration).
  { unfold next_iteration, inject_H, inject_E, update_left, update_right, sample_probes.
    preserve. }
  specialize (Hp w w' res Hn). injection Hp as Hlo Hso Hl Hs.
  destruct w as [lo so s], w' as [lo' so' s']. cbn [layer_objs source_objs self] in *.
  subst lo' so'.
  eapply store_ok_mono; [exact Hst|auto|auto|rewrite Hl; auto|rewrite Hs; auto].
Qed.

(** Every reachable world is well formed: the hypotheses [store_ok] and
    [shapes_ok] of the statements above hold of every world that a
    construction and calls of the interface lead to. *)
Theorem reachable_well_formed (w : World) : reachable w -> well_formed w.
Proof.
  induction 1 as [a s t sc st Hi|w c _ IH|w r l _ [Hst Hsh] Hr|w r x _ [Hst Hsh] Hr].
  - destruct (FDTD_init_inv _ _ _ _ _ Hi) as (n & tc & _ & Hn & ->).
    split; [split; apply Forall_nil_2|].
    unfold shaped, empty_world. cbn [self E H eps mu sigma run].
    rewrite !length_replicate.
    split; [|split; [|split; [|split]]]; try lia. intros r [=].
  - unfold exec. destruct (perform c w) as [w' res] eqn:Hc. cbn [fst].
    revert Hc IH.
    assert (Hk : keeps well_formed (perform c)); [|intros Hc IH; eapply Hk; eauto].
    destruct c; cbn [perform];
      auto using analyze_keeps, next_iteration_keeps, add_source_keeps,
        add_layer_keeps, delete_layer_keeps; apply simple_calls_keep.
  - split; [|exact Hsh]. destruct w as [lo so s]. cbn [layer_objs source_objs self] in *.
    eapply store_ok_mono; [exact Hst| |auto..].
    intros r0 Hr0. rewrite lookup_insert_is_Some'. auto.
  - split; [|exact Hsh]. destruct w as [lo so s]. cbn [layer_objs source_objs self] in *.
    eapply store_ok_mono; [exact Hst|auto| |auto..].
    intros r0 Hr0. rewrite lookup_insert_is_Some'. auto.
Qed.


Corollary reachable_shapes_ok (w : World) (r : RunAttrs) :
  reachable w -> run (self w) = Some r -> store_ok w /\ shapes_ok r (self w).
Proof.
  intros Hw Hr. destruct (reachable_well_formed w Hw) as [Hst (HE & Hmu & _ & _ & Hco)].
  destruct (Hco r Hr). unfold shapes_ok. auto.
Qed.

End Invariant.

(** * Further properties of the interface *)

Section InterfaceFrames.
Context `{Platform}.

(** X1: every call of the interface, returning or raising, keeps a world well
    formed. *)
Theorem interface_keeps_well_formed (c : call) (w : World) :
  well_formed w -> well_formed (exec (perform c) w).
Proof.
  intros Hw. unfold exec. destruct (perform c w) as [w' res] eqn:Hc. cbn [fst].
  revert Hw Hc.
  assert (Hk : keeps well_formed (perform c)); [|intros Hw Hc; eapply Hk; eauto].
  destruct c; cbn [perform];
    auto using analyze_keeps, next_iteration_keeps, add_source_keeps,
      add_layer_keeps, delete_layer_keeps; apply simple_calls_keep.
Qed.

(** X2: a call of [next_iteration], whether it returns or raises, changes
    neither the caller's objects nor [eps], [mu], [sigma], the borders, the
    layer list, the sources list, [dx], [dt], [Sc], [time_counts] and the
    grid size. *)
Theorem next_iteration_frame (w : World) :
  let w' := exec next_iteration w in
  layer_objs w' = layer_objs w /\ source_objs w' = source_objs w /\
  eps (self w') = eps (self w) /\ mu (self w') = mu (self w) /\
  sigma (self w') = sigma (self w) /\ borders (self w') = borders (self w) /\
  layers (self w') = layers (self w) /\ sources (self w') = sources (self w) /\
  dx (self w') = dx (self w) /\ dt (self w') = dt (self w) /\
  Sc (self w') = Sc (self w) /\ time_counts (self w') = time_counts (self w) /\
  area_size (self w') = area_size (self w).
Proof.
  assert (Hp : preserves
            (fun w => (layer_objs w, source_objs w, eps (self w), mu (self w),
                       sigma (self w), borders (self w), layers (self w),
                       sources (self w), dx (self w), dt (self w), Sc (self w),
                       time_counts (self w), area_size (self w))) next_iteration).
  { unfold next_iteration, inject_H, inject_E, update_left, update_right, sample_probes.
    preserve. }
  cbv zeta. unfold exec. destruct (next_iteration w) as [w' res] eqn:Hn. cbn [fst].
  specialize (Hp w w' res Hn). cbn beta in Hp.
  injection Hp as -> -> -> -> -> -> -> -> -> -> -> -> ->. repeat split.
Qed.

(** [delete_layer] preserves what the removal of one layer preserves. *)
Lemma delete_layer_preserves {B} (f : World -> B) (name : string) :
  (forall i l, preserves f (remove_layer i l)) -> preserves f (delete_layer name).
Proof.
  intros Hr.
  assert (Hd : forall rest i, preserves f (delete_from name i rest)).
  { induction rest as [|r rest IH]; intros i; cbn [delete_from]; [preserve|].
    apply preserves_bind; [preserve|]. intros l.
    destruct (String.eqb _ _); [apply Hr | apply IH]. }
  unfold delete_layer. apply preserves_bind; [preserve|]. intros ls.
  apply preserves_bind; [apply Hd | intros ?; preserve].
Qed.

(** X3: adding and deleting layers touches the medium arrays, the borders and
    the layer list only. *)
Theorem layer_calls_frame (layer : ref) (name : string) (w : World) :
  let untouched (w : World) :=
    (E (self w), H (self w), run (self w), probes (self w), sources (self w),
     boundary (self w), source_objs w) in
  untouched (exec (add_layer layer) w) = untouched w /\
  untouched (exec (delete_layer name) w) = untouched w.
Proof.
  cbv zeta. split.
  - assert (Hp : preserves
              (fun w => (E (self w), H (self w), run (self w), probes (self w),
                         sources (self w), boundary (self w), source_objs w))
              (add_layer layer))
      by (unfold add_layer, layer_range, fill_range; preserve).
    unfold exec. destruct (add_layer layer w) as [w' res] eqn:Ha.
    exact (Hp w w' res Ha).
  - assert (Hp : preserves
              (fun w => (E (self w), H (self w), run (self w), probes (self w),
                         sources (self w), boundary (self w), source_objs w))
              (delete_layer name)).
    { apply delete_layer_preserves. intros i l.
      unfold remove_layer, layer_range, fill_range. preserve. }
    unfold exec. destruct (delete_layer name w) as [w' res] eqn:Ha.
    exact (Hp w w' res Ha).
Qed.

(** Running a statement that preserves the observation [f], for a
    postcondition on the world and the result. *)
Lemma peel_res {A B C} (f : World -> C) (P : World -> Res B -> Prop) (m : M A)
    (k : A -> M B) (w w' : World) (res : Res B) :
  preserves f m ->
  (forall w0 e, f w0 = f w -> P w0 (Raise e)) ->
  (forall a w1, f w1 = f w -> k a w1 = (w', res) -> P w' res) ->
  (m ≫= k) w = (w', res) -> P w' res.
Proof.
  intros Hp Hexit Hk. rewrite bind_unfold.
  destruct (m w) as [w1 [a|e]] eqn:Hm.
  - apply Hk. eapply Hp, Hm.
  - intros [= <- <-]. apply Hexit. eapply Hp, Hm.
Qed.

(** X4: what a call of [next_iteration] does to the run attributes.  When it
    raises they are as before, so the current time has not advanced although
    fields may have been updated; when it returns, [ceze] and [cezh] are as
    before and either the current time has grown by [dt] (the step count
    was below [time_counts]) or only the timer has been stopped. *)
Theorem next_iteration_run_attrs (w w' : World) (res : Res bool) (r : RunAttrs) :
  run (self w) = Some r ->
  next_iteration w = (w', res) ->
  match res with
  | Raise _ => run (self w') = Some r
  | Ok _ =>
      exists k, Py.int_floordiv (PFloat (current_time r)) (dt (self w)) = Ok k /\
        run (self w') =
          Some (if k <? time_counts (self w)
                then mkRun (ceze r) (cezh r)
                       (F64.add (current_time r) (dt (self w))) (timer_active r)
                else mkRun (ceze r) (cezh r) (current_time r) false)
  end.
Proof.
  intros Hrun. unfold next_iteration.
  rewrite (run_bind_run_attrs r) by exact Hrun. mrun.
  mlift Hk; mrun; [|intros [= <- <-]; exact Hrun].
  match goal with |- context [if ?b then _ else _] => destruct b eqn:Hlt end.
  2:{ mrun. intros [= <- <-]. eexists. split; [reflexivity|]. rewrite Hlt. reflexivity. }
  set (P := fun (w0 : World) (res0 : Res bool) =>
              match res0 with
              | Raise _ => run (self w0) = Some r
              | Ok _ => exists k, Ok a = Ok k /\
                  run (self w0) =
                    Some (if k <? time_counts (self w)
                          then mkRun (ceze r) (cezh r)
                                 (F64.add (current_time r) (dt (self w))) (timer_active r)
                          else mkRun (ceze r) (cezh r) (current_time r) false)
              end).
  assert (Hx : forall w0 (res0 : Res bool) e, run (self w0) = Some r ->
                 (w0, @Raise bool e) = (w', res) -> P w' res).
  { intros w0 res0 e Hr [= <- <-]. exact Hr. }
  mrun. mlift HdE; mrun; [|apply (Hx _ res); exact Hrun].
  mlift Hq; mrun; [|apply (Hx _ res); exact Hrun].
  mlift HH'; mrun; [|apply (Hx _ res); exact Hrun].
  apply (peel_res (fun w => run (self w)) P);
    [ unfold inject_H; preserve | intros w0 e Hr; cbn; rewrite Hr; exact Hrun | ].
  intros [] w2 Hr2. cbn [self run set_H] in Hr2. mrun.
  mlift Ha; mrun; [|apply (Hx _ res); congruence].
  mlift HdH; mrun; [|apply (Hx _ res); congruence].
  mlift Hb; mrun; [|apply (Hx _ res); congruence].
  mlift Hrhs; mrun; [|apply (Hx _ res); congruence].
  mlift HE'; mrun; [|apply (Hx _ res); congruence].
  apply (peel_res (fun w => run (self w)) P);
    [ unfold update_left; preserve | intros w0 e Hr; cbn in *; congruence | ].
  intros [] w4 Hr4. cbn [self run set_E] in Hr4.
  apply (peel_res (fun w => run (self w)) P);
    [ unfold update_right; preserve | intros w0 e Hr; cbn in *; congruence | ].
  intros [] w5 Hr5. mrun.
  apply (peel_res (fun w => run (self w)) P);
    [ unfold inject_E; preserve | intros w0 e Hr; cbn in *; congruence | ].
  intros [] w6 Hr6.
  apply (peel_res (fun w => run (self w)) P);
    [ unfold sample_probes; preserve | intros w0 e Hr; cbn in *; congruence | ].
  intros [] w7 Hr7. mrun. intros [= <- <-]. exists a. split; [reflexivity|].
  rewrite Hlt. reflexivity.
Qed.

End InterfaceFrames.

Section Boundaries.
Context `{Platform}.

Lemma zip_with_map_same {A B C D} (f : B -> C -> D) (g : A -> B) (h : A -> C) (l : list A) :
  zip_with f (map g l) (map h l) = map (fun x => f (g x) (h x)) l.
Proof. induction l as [|x l IH]; simpl; congruence. Qed.

Lemma map_zip_with_r {A B C D} (f : C -> D) (g : A -> B -> C) (l : list A) (k : list B) :
  map f (zip_with g l k) = zip_with (fun x y => f (g x y)) l k.
Proof. revert k. induction l as [|x l IH]; intros [|y k]; simpl; congruence. Qed.

Lemma zip_with_map_r {A B C D} (f : A -> C -> D) (g : B -> C) (l : list A) (k : list B) :
  zip_with f l (map g k) = zip_with (fun x y => f x (g y)) l k.
Proof. revert k. induction l as [|x l IH]; intros [|y k]; simpl; congruence. Qed.

Lemma update_boundary_fixed (w : World) (l r : Edge) :
  boundary (self w) = Boundaries.mk (PEC l) (PEC r) ->
  update_boundary w = (w, Ok true).
Proof.
  intros Hb. unfold update_boundary, refresh_absorbing. mrun. rewrite Hb.
  cbn [Boundaries.left Boundaries.right]. mrun. rewrite Hb.
  cbn [Boundaries.left Boundaries.right]. mrun. rewrite Hb. reflexivity.
Qed.

(** X5: with fixed-value boundaries, [analyze] computes the two coefficient
    arrays entry by entry, sets the current time to zero and starts the
    timer; nothing else changes. *)
Theorem analyze_fixed_boundaries (w : World) (l r : Edge) :
  boundary (self w) = Boundaries.mk (PEC l) (PEC r) ->
  length (eps (self w)) = length (sigma (self w)) ->
  analyze w =
    (mkWorld (layer_objs w) (source_objs w)
       (set_run
          (Some (mkRun
             (map (fun s => F64.div (F64.sub F64.one s) (F64.add F64.one s))
                  (sigma (self w)))
             (zip_with (fun e s => F64.div W_0 (F64.mul e (F64.add F64.one s)))
                       (eps (self w)) (sigma (self w)))
             F64.zero true))
          (self w)),
     Ok true).
Proof.
  intros Hb Hl. unfold analyze.
  rewrite (bind_ok _ _ _ _ _ (update_boundary_fixed w l r Hb)). mrun.
  unfold coeff_ceze, coeff_cezh, Np.div, Np.mul, Np.lscalar.
  rewrite (map2_same_length F64.div) by (rewrite !length_map; reflexivity).
  rewrite (map2_same_length F64.mul) by (rewrite length_map; exact Hl).
  cbn [mbind res_mbind res_bind]. mrun.
  rewrite zip_with_map_same, map_zip_with_r, zip_with_map_r. reflexivity.
Qed.


(** X6: [update_boundary] with two [Boundary] objects: an absorbing one gets the
    material values of its edge cell and the Courant number and recomputes
    its coefficient, a fixed-value one stays as it is. *)
Theorem update_boundary_refreshes (w : World) (e0 m0 e1 m1 : float) :
  is_boundary (Boundaries.left (boundary (self w))) = true ->
  is_boundary (Boundaries.right (boundary (self w))) = true ->
  Np.getitem (eps (self w)) 0 = Ok e0 -> Np.getitem (mu (self w)) 0 = Ok m0 ->
  Np.getitem (eps (self w)) (-1) = Ok e1 -> Np.getitem (mu (self w)) (-1) = Ok m1 ->
  update_boundary w =
    (mkWorld (layer_objs w) (source_objs w)
       (set_boundary
          (Boundaries.mk
             (refreshed e0 m0 (Sc (self w)) (Boundaries.left (boundary (self w))))
             (refreshed e1 m1 (Sc (self w)) (Boundaries.right (boundary (self w)))))
          (self w)),
     Ok true).
Proof.
  intros Hl Hr He0 Hm0 He1 Hm1. destruct w as [lo so s]. cbn [self] in *.
  destruct s as [dx0 n0 Sc0 td0 dt0 tc0 E0 Hf0 eps0 sigma0 mu0 bs0 [bl br] srcs0 ps0 ls0 run0].
  cbn [boundary Boundaries.left Boundaries.right eps mu Sc] in *.
  unfold update_boundary, refresh_absorbing.
  destruct bl as [el|a|], br as [er|b|]; try discriminate;
    repeat first
      [ mrun_step
      | progress cbn [Boundaries.left Boundaries.right is_boundary negb orb]
      | rewrite He0 | rewrite Hm0 | rewrite He1 | rewrite Hm1 ];
    reflexivity.
Qed.

Lemma update_boundary_rejects (w w' : World) (res : Res bool) :
  is_boundary (Boundaries.left (boundary (self w))) = false \/
  is_boundary (Boundaries.right (boundary (self w))) = false ->
  update_boundary w = (w', res) -> exists e, res = Raise e.
Proof.
  destruct w as [lo so s]. cbn [self].
  destruct s as [dx0 n0 Sc0 td0 dt0 tc0 E0 Hf0 eps0 sigma0 mu0 bs0 [bl br] srcs0 ps0 ls0 run0].
  cbn [boundary Boundaries.left Boundaries.right].
  unfold update_boundary, refresh_absorbing.
  intros Hb.
  destruct bl as [el|a|], br as [er|b|];
    try (destruct Hb; discriminate);
    repeat first
      [ mrun_step
      | progress cbn [Boundaries.left Boundaries.right is_boundary negb orb]
      | match goal with |- context [(lift ?x ≫= _) _] => destruct x end ];
    intros [= <- <-]; eauto.
Qed.

Lemma update_boundary_run : preserves (fun w => run (self w)) update_boundary.
Proof. unfold update_boundary, refresh_absorbing. preserve. Qed.

Lemma analyze_rejects (w w' : World) (res : Res bool) :
  is_boundary (Boundaries.left (boundary (self w))) = false \/
  is_boundary (Boundaries.right (boundary (self w))) = false ->
  analyze w = (w', res) ->
  (exists e, res = Raise e) /\ run (self w') = run (self w).
Proof.
  intros Hb. unfold analyze. rewrite bind_unfold.
  destruct (update_boundary w) as [w1 [ok|e]] eqn:Hu.
  - destruct (update_boundary_rejects _ _ _ Hb Hu) as [e [=]].
  - intros [= <- <-]. split; [eauto|]. exact (update_boundary_run _ _ _ Hu).
Qed.

(** X7: the two setters accept any object and return [True]; an object that is
    no [Boundary] is found out by the next [analyze] only, which then raises
    and creates no run attributes. *)
Theorem setters_do_not_validate (b : Boundary) (w : World) :
  (exists w1,
      set_left_boundary b w = (w1, Ok true) /\
      boundary (self w1) = Boundaries.mk b (Boundaries.right (boundary (self w))) /\
      (is_boundary b = false ->
       forall w2 res, analyze w1 = (w2, res) ->
                      (exists e, res = Raise e) /\ run (self w2) = run (self w))) /\
  (exists w1,
      set_right_boundary b w = (w1, Ok true) /\
      boundary (self w1) = Boundaries.mk (Boundaries.left (boundary (self w))) b /\
      (is_boundary b = false ->
       forall w2 res, analyze w1 = (w2, res) ->
                      (exists e, res = Raise e) /\ run (self w2) = run (self w))).
Proof.
  split; eexists; (split; [reflexivity|]); (split; [reflexivity|]);
    intros Hb w2 res Ha; eapply analyze_rejects in Ha; auto.
Qed.

Lemma getitem_raises (a : Np.array) (i : Z) (e : exn) :
  Np.getitem a i = Raise e -> e = IndexError.
Proof.
  unfold Np.getitem. destruct (Np.index _ _); [destruct (_ !! _)|]; congruence.
Qed.

(** X8: on a grid of one cell [mu] is empty: refreshing an absorbing boundary
    fails on [mu[0]] (or [mu[-1]]), so [analyze] raises [IndexError] and
    creates no run attributes. *)
Theorem analyze_one_cell_absorbing (w : World) :
  mu (self w) = [] ->
  (exists a, Boundaries.left (boundary (self w)) = ABC a) \/
  (exists e a, Boundaries.left (boundary (self w)) = PEC e /\
               Boundaries.right (boundary (self w)) = ABC a) ->
  exists w', analyze w = (w', Raise IndexError) /\ run (self w') = run (self w).
Proof.
  intros Hmu Hb.
  assert (Hu : exists w', update_boundary w = (w', Raise IndexError)).
  { destruct w as [lo so s]. cbn [self] in *.
    destruct s as [dx0 n0 Sc0 td0 dt0 tc0 E0 Hf0 eps0 sigma0 mu0 bs0 [bl br] srcs0 ps0 ls0 run0].
    cbn [boundary Boundaries.left Boundaries.right mu] in *. subst mu0.
    unfold update_boundary, refresh_absorbing.
    destruct Hb as [[a ->]|(e & a & -> & ->)];
      repeat first
        [ mrun_step
        | progress cbn [Boundaries.left Boundaries.right]
        | progress change (Np.getitem [] 0) with (@Raise float IndexError)
        | progress change (Np.getitem [] (-1)) with (@Raise float IndexError)
        | match goal with
          | |- context [(lift (Np.getitem eps0 ?i) ≫= _) _] =>
              let He := fresh "He" in
              destruct (Np.getitem eps0 i) as [?|?] eqn:He;
              [|apply getitem_raises in He as ->]
          end ];
      eexists; reflexivity. }
  destruct Hu as [w' Hu]. exists w'. unfold analyze.
  rewrite bind_unfold, Hu. split; [reflexivity|]. exact (update_boundary_run _ _ _ Hu).
Qed.

End Boundaries.

Section Sources.
Context `{Platform}.

Lemma getitem_in_range (a : Np.array) (i : Z) :
  - Z.of_nat (length a) <= i < Z.of_nat (length a) -> exists x, Np.getitem a i = Ok x.
Proof.
  intros Hi. unfold Np.getitem, Np.index.
  destruct (Z.leb_spec 0 i), (Z.ltb_spec i (Z.of_nat (length a))); cbn [andb]; try lia.
  - destruct (lookup_lt_is_Some_2 a (Z.to_nat i) ltac:(lia)) as [x ->]. eauto.
  - destruct (Z.leb_spec (- Z.of_nat (length a)) i), (Z.ltb_spec i 0);
      cbn [andb]; try lia.
    destruct (lookup_lt_is_Some_2 a (Z.to_nat (i + Z.of_nat (length a))) ltac:(lia))
      as [x ->]. eauto.
Qed.

Lemma getitem_out_of_range (a : Np.array) (i : Z) :
  ~ (- Z.of_nat (length a) <= i < Z.of_nat (length a)) ->
  Np.getitem a i = Raise IndexError.
Proof.
  intros Hi. unfold Np.getitem, Np.index.
  destruct (Z.leb_spec 0 i), (Z.ltb_spec i (Z.of_nat (length a))); cbn [andb]; try lia;
    destruct (Z.leb_spec (- Z.of_nat (length a)) i), (Z.ltb_spec i 0);
    cbn [andb]; try lia; reflexivity.
Qed.

(** [add_source] with the three lookups known. *)
Lemma add_source_run (source : ref) (src : Source.t) (i : Z) (w : World) :
  source_objs w !! source = Some src ->
  Py.int_floordiv (Source.position src) (dx (self w)) = Ok i ->
  add_source source w =
    let so1 := alter (Source.set_position (PInt i)) source (source_objs w) in
    match Np.getitem (eps (self w)) i with
    | Raise e => (mkWorld (layer_objs w) so1 (self w), Raise e)
    | Ok e =>
        let so2 := alter (Source.set_eps e) source so1 in
        match Np.getitem (mu (self w)) i with
        | Raise e' => (mkWorld (layer_objs w) so2 (self w), Raise e')
        | Ok m =>
            (mkWorld (layer_objs w)
               (alter (Source.set_dt (dt (self w))) source
                  (alter (Source.set_Sc (Sc (self w))) source
                     (alter (Source.set_mu m) source so2)))
               (set_sources (sources (self w) ++ [source]) (self w)),
             Ok true)
        end
    end.
Proof.
  intros Hsrc Hi. unfold add_source.
  rewrite (run_bind_deref_source _ src) by exact Hsrc. mrun. rewrite Hi. mrun.
  cbv zeta.
  destruct (Np.getitem (eps (self w)) i) as [e|e]; mrun; [|reflexivity].
  destruct (Np.getitem (mu (self w)) i) as [m|e']; mrun; reflexivity.
Qed.

(** X9: the position of a source must be a cell that has an [mu] entry: a grid
    of [N] cells takes the indices from [-(N-1)] to [N-2].  Outside that
    range the call raises [IndexError] with the position of the source
    object already overwritten, and registers nothing. *)
Theorem add_source_bounds (source : ref) (src : Source.t) (i : Z) (w : World) :
  source_objs w !! source = Some src ->
  Py.int_floordiv (Source.position src) (dx (self w)) = Ok i ->
  length (eps (self w)) = S (length (mu (self w))) ->
  let n := Z.of_nat (length (mu (self w))) in
  if (- n <=? i) && (i <? n) then
    exists w', add_source source w = (w', Ok true) /\
               sources (self w') = sources (self w) ++ [source]
  else
    exists w', add_source source w = (w', Raise IndexError) /\
               sources (self w') = sources (self w) /\
               Source.position <$> source_objs w' !! source = Some (PInt i).
Proof.
  intros Hsrc Hi Hl n. rewrite (add_source_run _ _ _ _ Hsrc Hi). cbv zeta.
  destruct (Z.leb_spec (- n) i), (Z.ltb_spec i n); cbn [andb]; subst n.
  - destruct (getitem_in_range (eps (self w)) i ltac:(lia)) as [e ->].
    destruct (getitem_in_range (mu (self w)) i ltac:(lia)) as [m ->].
    eexists. split; reflexivity.
  - destruct (Np.getitem (eps (self w)) i) as [e|e] eqn:He.
    + rewrite (getitem_out_of_range (mu (self w)) i) by lia.
      eexists. split; [reflexivity|]. split; [reflexivity|].
      cbn [source_objs]. rewrite !lookup_alter_eq, Hsrc. reflexivity.
    + apply getitem_raises in He as ->.
      eexists. split; [reflexivity|]. split; [reflexivity|].
      cbn [source_objs]. rewrite !lookup_alter_eq, Hsrc. reflexivity.
  - destruct (Np.getitem (eps (self w)) i) as [e|e] eqn:He.
    + rewrite (getitem_out_of_range (mu (self w)) i) by lia.
      eexists. split; [reflexivity|]. split; [reflexivity|].
      cbn [source_objs]. rewrite !lookup_alter_eq, Hsrc. reflexivity.
    + apply getitem_raises in He as ->.
      eexists. split; [reflexivity|]. split; [reflexivity|].
      cbn [source_objs]. rewrite !lookup_alter_eq, Hsrc. reflexivity.
  - lia.
Qed.

(** X10: registering the same source object twice converts its position twice:
    the second call floor-divides the grid index of the first by [dx]. *)
Theorem add_source_twice (source : ref) (src : Source.t) (w w1 w2 : World) :
  source_objs w !! source = Some src ->
  add_source source w = (w1, Ok true) ->
  add_source source w1 = (w2, Ok true) ->
  exists i j,
    Py.int_floordiv (Source.position src) (dx (self w)) = Ok i /\
    Py.int_floordiv (PInt i) (dx (self w)) = Ok j /\
    Source.position <$> source_objs w2 !! source = Some (PInt j) /\
    sources (self w2) = sources (self w) ++ [source; source].
Proof.
  intros Hsrc H1 H2.
  destruct (Py.int_floordiv (Source.position src) (dx (self w))) as [i|e] eqn:Hi.
  2:{ revert H1. unfold add_source.
      rewrite (run_bind_deref_source _ src) by exact Hsrc. mrun. rewrite Hi. mrun.
      discriminate. }
  rewrite (add_source_run _ _ _ _ Hsrc Hi) in H1. cbv zeta in H1.
  destruct (Np.getitem (eps (self w)) i) as [e|e]; [|discriminate].
  destruct (Np.getitem (mu (self w)) i) as [m|e']; [|discriminate].
  injection H1 as <-.
  match type of H2 with
  | add_source _ (mkWorld _ ?so _) = _ =>
      assert (Hs1 : exists src1, so !! source = Some src1 /\ Source.position src1 = PInt i)
  end.
  { rewrite !lookup_alter_eq, Hsrc. eexists. split; reflexivity. }
  destruct Hs1 as (src1 & Hs1 & Hp1).
  destruct (Py.int_floordiv (PInt i) (dx (self w))) as [j|e2] eqn:Hj.
  2:{ revert H2. unfold add_source.
      rewrite (run_bind_deref_source _ src1) by exact Hs1. mrun.
      rewrite Hp1, Hj. mrun. discriminate. }
  rewrite (add_source_run _ src1 j) in H2; [|exact Hs1|rewrite Hp1; exact Hj].
  cbv zeta in H2. cbn [self eps mu sources set_sources source_objs layer_objs] in H2.
  destruct (Np.getitem (eps (self w)) j) as [e3|e3]; [|discriminate].
  destruct (Np.getitem (mu (self w)) j) as [m3|e3']; [|discriminate].
  injection H2 as <-. exists i, j. repeat split.
  - exact Hj.
  - cbn [source_objs]. rewrite !lookup_alter_eq, Hsrc. reflexivity.
  - cbn [self sources set_sources]. rewrite <- app_assoc. reflexivity.
Qed.

End Sources.

Section Probes.
Context `{Platform}.

Lemma for_each_app {A} (l1 l2 : list A) (body : A -> M unit) (w : World) :
  for_each (l1 ++ l2) body w = (_ ← for_each l1 body; for_each l2 body) w.
Proof.
  revert w. induction l1 as [|x l1 IH]; intros w; cbn [for_each app].
  - reflexivity.
  - rewrite run_bind_assoc, !(bind_unfold (body x)).
    destruct (body x w) as [w1 [[]|e]]; [apply IH|reflexivity].
Qed.

Lemma append_probe_run {B} (n : pynum) (i : Z) (k : unit -> M B) (w : World) :
  Py.int_floordiv n (dx (self w)) = Ok i ->
  (append_probe n ≫= k) w =
    k tt (mkWorld (layer_objs w) (source_objs w)
            (set_probes (probes (self w) ++ [Probe.new i (time_counts (self w))])
                        (self w))).
Proof. intros Hi. unfold append_probe. mrun. rewrite Hi. mrun. reflexivity. Qed.

(** The loop of [add_probes] over numbers that all convert. *)
Lemma append_probes_run (ns : list pynum) (idx : list Z) (w : World) :
  Forall2 (fun n i => Py.int_floordiv n (dx (self w)) = Ok i) ns idx ->
  for_each (PyNum <$> ns)
    (fun v => match v with PyNum n => append_probe n | _ => raise TypeError end) w =
  (mkWorld (layer_objs w) (source_objs w)
     (set_probes (probes (self w) ++
                  ((fun i => Probe.new i (time_counts (self w))) <$> idx)) (self w)),
   Ok tt).
Proof.
  intros Hall. revert idx w Hall. induction ns as [|n ns IH]; intros idx w Hall.
  - apply Forall2_nil_inv_l in Hall as ->. cbn [fmap list_fmap for_each].
    rewrite app_nil_r. destruct w as [lo so []]; reflexivity.
  - apply Forall2_cons_inv_l in Hall as (i & idx' & Hi & Hall & ->).
    cbn [fmap list_fmap for_each]. rewrite (append_probe_run n i) by exact Hi.
    rewrite (IH idx') by exact Hall.
    cbn [self layer_objs source_objs probes time_counts set_probes fmap list_fmap].
    rewrite <- app_assoc. reflexivity.
Qed.

(** X11: a sequence of positions that all convert, ints as well as floats, adds
    one probe for each of them, in order, at [int(position // dx)] whatever
    that index is; an empty sequence adds nothing, and a single float is
    treated as the sequence of that one float. *)
Theorem add_probes_sequence (ns : list pynum) (idx : list Z) (w : World) :
  Forall2 (fun n i => Py.int_floordiv n (dx (self w)) = Ok i) ns idx ->
  let w' := mkWorld (layer_objs w) (source_objs w)
              (set_probes (probes (self w) ++
                           ((fun i => Probe.new i (time_counts (self w))) <$> idx))
                          (self w)) in
  add_probes (PyList (PyNum <$> ns)) w = (w', Ok true) /\
  add_probes (PyTuple (PyNum <$> ns)) w = (w', Ok true) /\
  forall x, ns = [PFloat x] -> add_probes (PyNum (PFloat x)) w = (w', Ok true).
Proof.
  intros Hall. cbv zeta. unfold add_probes.
  split; [|split];
    try (rewrite bind_unfold, (append_probes_run ns idx w Hall); reflexivity).
  intros x ->.
  apply Forall2_cons_inv_l in Hall as (i & idx' & Hi & Hall & ->).
  apply Forall2_nil_inv_l in Hall as ->.
  rewrite (append_probe_run (PFloat x) i) by exact Hi. reflexivity.
Qed.

(** X12: a sequence with an element that does not convert: the probes of the
    elements before it stay added, then the error is raised. *)
Theorem add_probes_no_rollback (ns : list pynum) (idx : list Z) (v : pyval)
    (rest : list pyval) (e : exn) (w : World) :
  Forall2 (fun n i => Py.int_floordiv n (dx (self w)) = Ok i) ns idx ->
  match v with
  | PyNum n => Py.int_floordiv n (dx (self w)) = Raise e
  | _ => e = TypeError
  end ->
  add_probes (PyList ((PyNum <$> ns) ++ v :: rest)) w =
    (mkWorld (layer_objs w) (source_objs w)
       (set_probes (probes (self w) ++
                    ((fun i => Probe.new i (time_counts (self w))) <$> idx))
                   (self w)),
     Raise e).
Proof.
  intros Hall Hv. unfold add_probes.
  rewrite bind_unfold, for_each_app, bind_unfold, (append_probes_run ns idx w Hall).
  cbn [for_each]. destruct v as [n| | | | |]; try (subst e; reflexivity).
  unfold append_probe. mrun. rewrite Hv. reflexivity.
Qed.

End Probes.

Section Layers.
Context `{Platform}.

(** [add_layer] on a live layer object, by the outcome of the two
    conversions of its area. *)
Lemma add_layer_run (layer : ref) (L : Layer.t) (w : World) :
  layer_objs w !! layer = Some L ->
  add_layer layer w =
    let lo := alter (Layer.set_name (layer_name (length (layers (self w))))) layer
                (layer_objs w) in
    let s1 := set_layers (layers (self w) ++ [layer]) (self w) in
    match Py.int_truediv (Layer.area L).1 (dx (self w)) with
    | Raise e => (mkWorld lo (source_objs w) s1, Raise e)
    | Ok b =>
        match Py.int_truediv (Layer.area L).2 (dx (self w)) with
        | Raise e => (mkWorld lo (source_objs w) s1, Raise e)
        | Ok e =>
            (mkWorld lo (source_objs w)
               (set_borders (borders (self w) ++ [(Layer.area L).1; (Layer.area L).2])
                  (set_sigma (Np.setslice_scalar (Some b) (Some e) (Layer.sigma L)
                                (sigma (self w)))
                     (set_mu (Np.setslice_scalar (Some b) (Some e) (Layer.mu L)
                                (mu (self w)))
                        (set_eps (Np.setslice_scalar (Some b) (Some e) (Layer.eps L)
                                    (eps (self w))) s1)))),
             Ok true)
        end
    end.
Proof.
  intros HL. unfold add_layer, layer_range, fill_range.
  mrun. rewrite (run_bind_deref_layer _ L) by exact HL.
  mrun. erewrite run_bind_deref_layer
    by (cbn [layer_objs]; rewrite lookup_alter_eq, HL; reflexivity).
  mrun. cbn [Layer.area Layer.set_name Layer.eps Layer.mu Layer.sigma]. cbv zeta.
  destruct (Py.int_truediv (Layer.area L).1 (dx (self w))) as [b|]; mrun; [|reflexivity].
  destruct (Py.int_truediv (Layer.area L).2 (dx (self w))) as [e|]; mrun; [|reflexivity].
  rewrite <- app_assoc. reflexivity.
Qed.

(** X13: a layer whose area converts is always accepted, wherever the area lies:
    the three slice assignments clip to the grid and cannot raise.  The
    layer gets the name ["Layer" + str(len(layers))], the cells of
    [begin:end] get its material values, and its two area bounds are
    appended to the borders. *)
Theorem add_layer_clips (layer : ref) (L : Layer.t) (b e : Z) (w : World) :
  layer_objs w !! layer = Some L ->
  Py.int_truediv (Layer.area L).1 (dx (self w)) = Ok b ->
  Py.int_truediv (Layer.area L).2 (dx (self w)) = Ok e ->
  exists w',
    add_layer layer w = (w', Ok true) /\
    Layer.name <$> layer_objs w' !! layer =
      Some (layer_name (length (layers (self w)))) /\
    layers (self w') = layers (self w) ++ [layer] /\
    borders (self w') = borders (self w) ++ [(Layer.area L).1; (Layer.area L).2] /\
    filled_with (Some b) (Some e) (Layer.eps L) (eps (self w)) (eps (self w')) /\
    filled_with (Some b) (Some e) (Layer.mu L) (mu (self w)) (mu (self w')) /\
    filled_with (Some b) (Some e) (Layer.sigma L) (sigma (self w)) (sigma (self w')).
Proof.
  intros HL Hb He. rewrite (add_layer_run _ _ _ HL), Hb, He. cbv zeta.
  eexists. split; [reflexivity|].
  cbn [self layer_objs layers borders eps mu sigma set_layers set_borders set_eps
       set_mu set_sigma].
  rewrite lookup_alter_eq, HL.
  repeat split; try reflexivity; apply setslice_scalar_filled_with.
Qed.

(** X14: no rollback: when a conversion of the area raises, the layer has
    already been renamed and appended to the layer list, while the arrays
    and the borders are as before; the borders list then no longer has two
    entries per layer. *)
Theorem add_layer_no_rollback (layer : ref) (L : Layer.t) (e : exn) (w : World) :
  layer_objs w !! layer = Some L ->
  Py.int_truediv (Layer.area L).1 (dx (self w)) = Raise e \/
  (exists b, Py.int_truediv (Layer.area L).1 (dx (self w)) = Ok b /\
             Py.int_truediv (Layer.area L).2 (dx (self w)) = Raise e) ->
  add_layer layer w =
    (mkWorld
       (alter (Layer.set_name (layer_name (length (layers (self w))))) layer (layer_objs w))
       (source_objs w)
       (set_layers (layers (self w) ++ [layer]) (self w)),
     Raise e).
Proof.
  intros HL Hr. rewrite (add_layer_run _ _ _ HL). cbv zeta.
  destruct Hr as [->|(b & -> & ->)]; reflexivity.
Qed.

Lemma delete_app_cons {A} (pre : list A) (x : A) (rest : list A) :
  delete (length pre) (pre ++ x :: rest) = pre ++ rest.
Proof. induction pre as [|y pre IH]; simpl; congruence. Qed.

(** [delete_layer] on the first layer called [name], at index [length pre]. *)
Lemma delete_layer_run (name : string) (pre rest : list ref) (r : ref) (L : Layer.t)
    (w : World) :
  layers (self w) = pre ++ r :: rest ->
  Forall (fun r' => exists l, layer_objs w !! r' = Some l /\ Layer.name l <> name) pre ->
  layer_objs w !! r = Some L -> Layer.name L = name ->
  delete_layer name w = (_ ← remove_layer (length pre) L; mret true) w.
Proof.
  intros Hls Hpre HL Hn. unfold delete_layer. mrun. rewrite Hls.
  rewrite !bind_unfold, (delete_from_skip name pre (r :: rest) 0 w Hpre).
  cbn [delete_from Nat.add]. rewrite (run_bind_deref_layer _ L) by exact HL.
  apply String.eqb_eq in Hn. rewrite Hn. reflexivity.
Qed.

(** X15: [delete_layer] removes the first layer called [name] and no other,
    also when a later layer carries the same name: its index range is reset
    to vacuum, entries [2i+1] and [2i] of the borders are removed, and the
    layer leaves the list. *)
Theorem delete_layer_first_match (name : string) (pre rest : list ref) (r : ref)
    (L : Layer.t) (b e : Z) (w : World) :
  layers (self w) = pre ++ r :: rest ->
  Forall (fun r' => exists l, layer_objs w !! r' = Some l /\ Layer.name l <> name) pre ->
  layer_objs w !! r = Some L -> Layer.name L = name ->
  Py.int_truediv (Layer.area L).1 (dx (self w)) = Ok b ->
  Py.int_truediv (Layer.area L).2 (dx (self w)) = Ok e ->
  (2 * length pre + 1 < length (borders (self w)))%nat ->
  delete_layer name w =
    (mkWorld (layer_objs w) (source_objs w)
       (set_layers (pre ++ rest)
          (set_borders
             (delete (2 * length pre)%nat
                (delete (2 * length pre + 1)%nat (borders (self w))))
             (set_sigma (Np.setslice_scalar (Some b) (Some e) F64.zero (sigma (self w)))
                (set_mu (Np.setslice_scalar (Some b) (Some e) F64.one (mu (self w)))
                   (set_eps (Np.setslice_scalar (Some b) (Some e) F64.one
                               (eps (self w))) (self w)))))),
     Ok true).
Proof.
  intros Hls Hpre HL Hn Hb He Hlen.
  rewrite (delete_layer_run name pre rest r L w Hls Hpre HL Hn).
  unfold remove_layer, layer_range, fill_range. mrun. rewrite Hb. mrun. rewrite He. mrun.
  unfold list_pop.
  destruct (Nat.ltb_spec (2 * length pre + 1) (length (borders (self w)))); [|lia].
  mrun.
  destruct (Nat.ltb_spec (2 * length pre)
              (length (delete (2 * length pre + 1)%nat (borders (self w))))).
  2:{ rewrite length_delete in * by (apply lookup_lt_is_Some_2; lia). lia. }
  mrun. rewrite Hls.
  destruct (Nat.ltb_spec (length pre) (length (pre ++ r :: rest))).
  2:{ rewrite length_app in *. simpl in *. lia. }
  mrun. rewrite delete_app_cons. reflexivity.
Qed.

(** X16: on a borders list that is too short for the matching layer,
    [delete_layer] raises [IndexError] after it has reset the arrays; the
    layer stays registered and the borders are as before. *)
Theorem delete_layer_short_borders (name : string) (pre rest : list ref) (r : ref)
    (L : Layer.t) (b e : Z) (w : World) :
  layers (self w) = pre ++ r :: rest ->
  Forall (fun r' => exists l, layer_objs w !! r' = Some l /\ Layer.name l <> name) pre ->
  layer_objs w !! r = Some L -> Layer.name L = name ->
  Py.int_truediv (Layer.area L).1 (dx (self w)) = Ok b ->
  Py.int_truediv (Layer.area L).2 (dx (self w)) = Ok e ->
  (length (borders (self w)) <= 2 * length pre + 1)%nat ->
  delete_layer name w =
    (mkWorld (layer_objs w) (source_objs w)
       (set_sigma (Np.setslice_scalar (Some b) (Some e) F64.zero (sigma (self w)))
          (set_mu (Np.setslice_scalar (Some b) (Some e) F64.one (mu (self w)))
             (set_eps (Np.setslice_scalar (Some b) (Some e) F64.one
                         (eps (self w))) (self w)))),
     Raise IndexError).
Proof.
  intros Hls Hpre HL Hn Hb He Hlen.
  rewrite (delete_layer_run name pre rest r L w Hls Hpre HL Hn).
  unfold remove_layer, layer_range, fill_range. mrun. rewrite Hb. mrun. rewrite He. mrun.
  unfold list_pop.
  destruct (Nat.ltb_spec (2 * length pre + 1) (length (borders (self w)))); [lia|].
  mrun. reflexivity.
Qed.

End Layers.

Section FreshEngine.
Context `{Platform}.

(** What a successful construction went through. *)
Lemma FDTD_init_divisions (a s t sc : float) (st : FDTD) :
  FDTD_init a s t sc = Ok st ->
  dx st = s /\ dt st = derived_dt s sc /\
  Py.int_floordiv (PFloat a) s = Ok (area_size st) /\
  Py.int_floordiv (PFloat t) (derived_dt s sc) = Ok (time_counts st).
Proof.
  intros Hi.
  destruct (FDTD_init_outcome a s t sc) as [(e & _ & Hr)|[Hv _]]; [congruence|].
  rewrite (FDTD_init_after_validation _ _ _ _ Hv) in Hi.
  destruct (Py.int_floordiv (PFloat a) s) as [n|]; simpl in Hi; [|discriminate].
  destruct (Py.int_floordiv (PFloat t) _) as [tc|]; simpl in Hi; [|discriminate].
  destruct (Np.zeros n); simpl in Hi; [|discriminate].
  destruct (Np.zeros (n - 1)); simpl in Hi; [|discriminate].
  destruct (Np.ones n); simpl in Hi; [|discriminate].
  destruct (Np.ones (n - 1)); simpl in Hi; [|discriminate].
  injection Hi as <-. auto.
Qed.

Lemma int_floordiv_divisor (x : pynum) (d : float) (k : Z) :
  Py.int_floordiv x d = Ok k -> F64.eqb d F64.zero = false.
Proof.
  unfold Py.int_floordiv, Py.floordiv.
  destruct (Py.to_float x); cbn [mbind res_mbind res_bind]; [|discriminate].
  destruct (F64.eqb d F64.zero); [discriminate|reflexivity].
Qed.

(** X17: a constructed engine has a non-zero [dx] and a non-zero [dt]: no later
    division by either of them raises [ZeroDivisionError]. *)
Theorem constructed_divisors (a s t sc : float) (st : FDTD) :
  FDTD_init a s t sc = Ok st ->
  F64.eqb (dx st) F64.zero = false /\ F64.eqb (dt st) F64.zero = false /\
  forall x : float,
    Py.truediv x (dx st) = Ok (F64.div x (dx st)) /\
    Py.truediv x (dt st) = Ok (F64.div x (dt st)) /\
    Py.floordiv (PFloat x) (dx st) = Ok (Py.float_div_mod x (dx st)) /\
    Py.floordiv (PFloat x) (dt st) = Ok (Py.float_div_mod x (dt st)).
Proof.
  intros Hi. destruct (FDTD_init_divisions _ _ _ _ _ Hi) as (-> & -> & Hn & Htc).
  apply int_floordiv_divisor in Hn, Htc.
  split; [exact Hn|]. split; [exact Htc|]. intros x.
  unfold Py.truediv, Py.floordiv. cbn [Py.to_float mbind res_mbind res_bind].
  rewrite Hn, Htc. auto.
Qed.


Lemma float_div_mod_nan_l (d : float) : Py.float_div_mod S754_nan d = S754_nan.
Proof. destruct d as [[]|[]| |[] md ed]; reflexivity. Qed.

Lemma float_div_mod_nan_r (x : float) : Py.float_div_mod x S754_nan = S754_nan.
Proof. destruct x as [[]|[]| |[] mx ex]; reflexivity. Qed.

Lemma int_floordiv_nan (x : pynum) (d : float) (k : Z) :
  x = PFloat S754_nan \/ d = S754_nan -> Py.int_floordiv x d <> Ok k.
Proof.
  unfold Py.int_floordiv, Py.floordiv. intros [->| ->].
  - cbn [Py.to_float mbind res_mbind res_bind].
    destruct (F64.eqb d F64.zero); [discriminate|].
    cbn [mbind res_mbind res_bind]. rewrite float_div_mod_nan_l. discriminate.
  - destruct (Py.to_float x) as [vx|]; cbn [mbind res_mbind res_bind]; [|discriminate].
    change (F64.eqb S754_nan F64.zero) with false. cbn [mbind res_mbind res_bind].
    rewrite float_div_mod_nan_r. discriminate.
Qed.

Lemma derived_dt_nan (s sc : float) :
  s = S754_nan \/ sc = S754_nan -> derived_dt s sc = S754_nan.
Proof.
  unfold derived_dt. intros [->| ->].
  - destruct sc as [?|?| |? ? ?], c as [?|?| |? ? ?]; reflexivity.
  - destruct s as [?|?| |? ? ?], c as [?|?| |? ? ?]; reflexivity.
Qed.

Lemma is_nan_eq (x : float) : F64.is_nan x = true -> x = S754_nan.
Proof. destruct x; (discriminate || reflexivity). Qed.

(** X18: a construction with a NaN among its four arguments never succeeds
    (no validation rule rejects a NaN as such, every comparison with NaN
    being false; the floor divisions of the constructor then fail). *)
Theorem nan_never_constructs (a s t sc : float) (st : FDTD) :
  F64.is_nan a || F64.is_nan s || F64.is_nan t || F64.is_nan sc = true ->
  FDTD_init a s t sc <> Ok st.
Proof.
  intros Hnan Hi.
  destruct (FDTD_init_divisions _ _ _ _ _ Hi) as (_ & _ & Hn & Htc).
  repeat apply orb_prop in Hnan as [Hnan|Hnan]; apply is_nan_eq in Hnan; subst.
  - eapply int_floordiv_nan; [|exact Hn]. auto.
  - eapply int_floordiv_nan; [|exact Hn]. auto.
  - eapply int_floordiv_nan; [|exact Htc]. auto.
  - eapply int_floordiv_nan; [|exact Htc]. right. apply derived_dt_nan. auto.
Qed.

(** X19: a NaN area size passes both rules on the area; what the constructor
    then raises is decided by the other arguments. *)
Theorem nan_area_outcome (s t sc : float) :
  FDTD_init S754_nan s t sc =
    if F64.leb sc F64.zero then Raise ScValueError
    else if F64.leb t F64.zero then Raise TimeDurationError
    else if gtb (derived_dt s sc) t then Raise TimeStepError
    else if F64.eqb s F64.zero then Raise ZeroDivisionError
    else Raise ValueError.
Proof.
  pose proof (validate_init_data_cases S754_nan s t sc) as Hv.
  change (F64.leb S754_nan F64.zero) with false in Hv.
  replace (gtb s S754_nan) with false in Hv by (destruct s; reflexivity).
  destruct (F64.leb sc F64.zero);
    [apply FDTD_init_validation_raises; exact Hv|].
  destruct (F64.leb t F64.zero);
    [apply FDTD_init_validation_raises; exact Hv|].
  destruct (gtb (derived_dt s sc) t);
    [apply FDTD_init_validation_raises; exact Hv|].
  rewrite (FDTD_init_after_validation _ _ _ _ Hv).
  assert (Hn : Py.int_floordiv (PFloat S754_nan) s =
               if F64.eqb s F64.zero then Raise ZeroDivisionError else Raise ValueError).
  { unfold Py.int_floordiv, Py.floordiv. cbn [Py.to_float mbind res_mbind res_bind].
    destruct (F64.eqb s F64.zero); [reflexivity|].
    cbn [mbind res_mbind res_bind]. rewrite float_div_mod_nan_l. reflexivity. }
  rewrite Hn. destruct (F64.eqb s F64.zero); reflexivity.
Qed.


(** X20: a new engine is in the all-zero ground state: once [analyze] has run,
    any number of steps leaves [E] and [H] all-zero. *)
Theorem fresh_engine_stays_zero (a s t sc : float) (st : FDTD) :
  FDTD_init a s t sc = Ok st ->
  F64.is_finite sc = true ->
  usable_divisor (F64.mul W_0 F64.one) = true ->
  F64.is_finite (F64.div W_0 (F64.mul F64.one (F64.add F64.one F64.zero))) = true ->
  stays_zero (exec analyze (empty_world st)).
Proof.
  intros Hi Hsc Hmu Hch0.
  destruct (FDTD_init_inv _ _ _ _ _ Hi) as (n & tc & _ & _ & ->).
  assert (Hz : forall k, all_zero (replicate k F64.zero))
    by (intros k; apply Forall_replicate; reflexivity).
  match goal with |- stays_zero (exec analyze ?w0) => set (w := w0) end.
  assert (Hg : ground_state (exec analyze w) /\ benign_medium (exec analyze w)).
  { unfold exec, analyze.
    rewrite (bind_ok _ _ _ _ _ (update_boundary_fixed w LeftEdge RightEdge eq_refl)).
    subst w. unfold empty_world. mrun.
    assert (Hm : Forall (fun m => usable_divisor (F64.mul W_0 m) = true)
                   (replicate (Z.to_nat (n - 1)) F64.one))
      by (apply Forall_replicate; exact Hmu).
    mlift Hcz; mrun; cbn [fst];
      [|unfold ground_state, benign_medium;
        cbn [self sources sigma boundary E H run Sc mu];
        split; [split; [|split; [|split; [|split; [|split]]]]|split; [|split]];
        auto; discriminate].
    mlift Hch; mrun; cbn [fst];
      [|unfold ground_state, benign_medium;
        cbn [self sources sigma boundary E H run Sc mu];
        split; [split; [|split; [|split; [|split; [|split]]]]|split; [|split]];
        auto; discriminate].
    unfold ground_state, benign_medium.
    cbn [self sources sigma boundary E H run Sc mu set_run].
    split; [split; [|split; [|split; [|split; [|split]]]]|split; [|split]]; auto;
      intros r [= <-]; cbn [ceze cezh]; auto.
    revert Hch. unfold coeff_cezh.
    destruct (Np.mul _ _) as [d|] eqn:Hd; cbn [mbind res_mbind res_bind]; [|discriminate].
    intros [= <-].
    eapply (lscalar_Forall F64.div (fun x => x = F64.mul F64.one (F64.add F64.one F64.zero)));
      [intros x ->; exact Hch0|].
    eapply (map2_Forall F64.mul (fun x => x = F64.one)
              (fun x => x = F64.add F64.one F64.zero)); [| | |exact Hd].
    - intros x y -> ->. reflexivity.
    - apply Forall_replicate. reflexivity.
    - eapply (lscalar_Forall F64.add (fun x => x = F64.zero));
        [intros x ->; reflexivity|]. apply Forall_replicate. reflexivity. }
  destruct Hg as [Hg Hb]. intros k.
  destruct (after_steps_ground k _ Hg Hb) as [(_ & _ & _ & HE & HH & _) _].
  split; assumption.
Qed.

End FreshEngine.

Section Edges.
Context `{Platform}.

Lemma setitem_inner (a a' : Np.array) (i : Z) (v : float) :
  Np.setitem a i v = Ok a' ->
  i <> 0 -> i <> -1 -> i <> Z.of_nat (length a) - 1 -> i <> - Z.of_nat (length a) ->
  length a' = length a /\
  a' !! 0%nat = a !! 0%nat /\
  a' !! (length a - 1)%nat = a !! (length a - 1)%nat.
Proof.
  intros Hs H0' H1' H2' H3'. revert Hs. unfold Np.setitem, Np.index.
  destruct ((0 <=? i) && (i <? Z.of_nat (length a))) eqn:Hin;
    [|destruct ((- Z.of_nat (length a) <=? i) && (i <? 0)) eqn:Hneg; [|discriminate]];
    intros [= <-]; (split; [apply length_insert|]);
    split; apply list_lookup_insert_ne; lia.
Qed.

(** A source that sits on no edge cell leaves the two edge entries of [E]
    alone when it injects. *)
Lemma inject_E_edges (r : RunAttrs) (src_ref : ref) (src : Source.t) (p : Z)
    (w w' : World) :
  source_objs w !! src_ref = Some src -> Source.index src = Ok p ->
  p <> 0 -> p <> -1 ->
  p <> Z.of_nat (length (E (self w))) - 1 -> p <> - Z.of_nat (length (E (self w))) ->
  inject_E r src_ref w = (w', Ok tt) ->
  source_objs w' = source_objs w /\
  length (E (self w')) = length (E (self w)) /\
  E (self w') !! 0%nat = E (self w) !! 0%nat /\
  E (self w') !! (length (E (self w)) - 1)%nat =
    E (self w) !! (length (E (self w)) - 1)%nat.
Proof.
  intros Hsrc Hp H0' H1' H2' H3'. unfold inject_E.
  rewrite (run_bind_deref_source _ src) by exact Hsrc. mrun. rewrite Hp. mrun.
  repeat (first
    [ mrun_step
    | match goal with
      | |- context [(lift ?x ≫= _) _] =>
          let Hx := fresh "Hx" in destruct x eqn:Hx
      end ]);
    intros [= <-].
  cbn [self E set_E source_objs].
  match goal with
  | Hx : Np.setitem _ _ _ = Ok _ |- _ =>
      destruct (setitem_inner _ _ _ _ Hx) as (? & ? & ?); auto
  end.
Qed.

Lemma inject_E_all_edges (r : RunAttrs) (srcs : list ref) (w w' : World) :
  Forall (fun src_ref => exists src p,
            source_objs w !! src_ref = Some src /\ Source.index src = Ok p /\
            p <> 0 /\ p <> -1 /\
            p <> Z.of_nat (length (E (self w))) - 1 /\
            p <> - Z.of_nat (length (E (self w)))) srcs ->
  for_each srcs (inject_E r) w = (w', Ok tt) ->
  length (E (self w')) = length (E (self w)) /\
  E (self w') !! 0%nat = E (self w) !! 0%nat /\
  E (self w') !! (length (E (self w)) - 1)%nat =
    E (self w) !! (length (E (self w)) - 1)%nat.
Proof.
  intros Hall. revert w Hall. induction srcs as [|x srcs IH]; intros w Hall.
  - intros [= <-]. auto.
  - apply Forall_cons in Hall as [(src & p & Hsrc & Hp & Hc0 & Hc1 & Hc2 & Hc3) Hall].
    cbn [for_each]. rewrite bind_unfold.
    destruct (inject_E r x w) as [w1 [[]|e]] eqn:H1; [|discriminate].
    destruct (inject_E_edges r x src p w w1 Hsrc Hp Hc0 Hc1 Hc2 Hc3 H1)
      as (Hso & Hlen & He0 & He1).
    intros Hrest. apply IH in Hrest.
    + rewrite Hlen in Hrest. destruct Hrest as (-> & -> & ->). auto.
    + rewrite Hso, Hlen. exact Hall.
Qed.


(** X21: with the default fixed-value boundaries, a completed step leaves both
    edge entries of [E] at zero, provided no source sits on an edge cell:
    the boundaries are applied after the field update and before the
    sources inject into [E]. *)
Theorem fixed_edges_are_zero (w w' : World) (r : RunAttrs) (k : Z) :
  run (self w) = Some r ->
  Py.int_floordiv (PFloat (current_time r)) (dt (self w)) = Ok k ->
  k < time_counts (self w) ->
  boundary (self w) = Boundaries.mk PECLeft PECRight ->
  Forall (fun src_ref => exists src p,
            source_objs w !! src_ref = Some src /\ Source.index src = Ok p /\
            p <> 0 /\ p <> -1 /\
            p <> Z.of_nat (length (E (self w))) - 1 /\
            p <> - Z.of_nat (length (E (self w)))) (sources (self w)) ->
  next_iteration w = (w', Ok true) ->
  length (E (self w')) = length (E (self w)) /\
  E (self w') !! 0%nat = Some F64.zero /\
  E (self w') !! (length (E (self w)) - 1)%nat = Some F64.zero.
Proof.
  intros Hrun Hk Hlt Hbd Hsrcs. unfold next_iteration.
  rewrite (run_bind_run_attrs r) by exact Hrun. mrun. rewrite Hk. mrun.
  destruct (Z.ltb_spec k (time_counts (self w))); [|lia].
  mrun. mlift HdE; mrun; [|discriminate].
  mlift Hq; mrun; [|discriminate].
  mlift HH'; mrun; [|discriminate].
  assert (Hp2 : preserves (fun w => (E (self w), boundary (self w), source_objs w,
                                     sources (self w)))
                  (for_each (sources (self w)) (inject_H r)))
    by (unfold inject_H; preserve).
  rewrite bind_unfold.
  match goal with
  | |- context [for_each ?l ?b ?w1] =>
      destruct (for_each l b w1) as [w2 [[]|e2]] eqn:H2; [|discriminate]
  end.
  apply Hp2 in H2. cbn [self E boundary source_objs sources set_H] in H2.
  injection H2 as HE2 Hbd2 Hso2 Hsrc2. mrun.
  mlift Ha; mrun; [|discriminate].
  mlift HdH; mrun; [|discriminate].
  mlift Hb; mrun; [|discriminate].
  mlift Hrhs; mrun; [|discriminate].
  mlift HE'; mrun; [|discriminate].
  apply length_setslice in HE'. rewrite HE2 in HE'.
  unfold update_left, update_right. mrun. rewrite Hbd2, Hbd.
  cbn [Boundaries.left Boundaries.right PECLeft PECRight update_field].
  match goal with
  | |- context [Np.setitem ?a 0 F64.zero] =>
      destruct (Np.setitem a 0 F64.zero) as [E1|] eqn:HE1;
      cbn [mbind res_mbind res_bind]; mrun; [|discriminate]
  end.
  cbn [Boundaries.left Boundaries.right PECLeft PECRight update_field].
  match goal with
  | |- context [Np.setitem ?a (-1) F64.zero] =>
      destruct (Np.setitem a (-1) F64.zero) as [E2|] eqn:HE2';
      cbn [mbind res_mbind res_bind]; mrun; [|discriminate]
  end.
  destruct (setitem_first _ _ _ HE1) as (HE1l & HE10 & _).
  destruct (setitem_last _ _ _ HE2') as (HE2l & HE2n & HE2o).
  rewrite HE1l in HE2l, HE2n, HE2o. rewrite HE' in HE1l, HE2l, HE2n, HE2o.
  assert (HE20 : E2 !! 0%nat = Some F64.zero).
  { destruct (Nat.eq_dec 0%nat (length (E (self w)) - 1)%nat) as [Heq|Hne].
    - rewrite Heq at 1. exact HE2n.
    - rewrite HE2o by exact Hne. exact HE10. }
  rewrite bind_unfold.
  match goal with
  | |- context [for_each ?l ?b ?w5] =>
      destruct (for_each l b w5) as [w6 [[]|e6]] eqn:H6; [|discriminate]
  end.
  apply inject_E_all_edges in H6;
    [|cbn [self E set_E set_boundary source_objs]; rewrite Hsrc2, Hso2, HE2l; exact Hsrcs].
  cbn [self E set_E set_boundary] in H6. rewrite HE2l in H6.
  destruct H6 as (H6l & H60 & H6n).
  assert (Hp7 : preserves (fun w => E (self w)) sample_probes)
    by (unfold sample_probes; preserve).
  rewrite bind_unfold.
  destruct (sample_probes w6) as [w7 [[]|e7]] eqn:H7; [|discriminate].
  apply Hp7 in H7. mrun. intros [= <-]. cbn [self E set_run].
  rewrite H7, H6l, H60, H6n. auto.
Qed.

End Edges.

Section Registered.
Context `{Platform}.

Lemma keeps_registered_refl (w : World) : keeps_registered w w.
Proof. split; [reflexivity|lia]. Qed.

Lemma keeps_registered_trans (w1 w2 w3 : World) :
  keeps_registered w1 w2 -> keeps_registered w2 w3 -> keeps_registered w1 w3.
Proof. intros [Hs1 Hp1] [Hs2 Hp2]. split; [etransitivity; eassumption|lia]. Qed.

Lemma advances_bind {A B} (m : M A) (k : A -> M B) :
  advances keeps_registered m -> (forall a, advances keeps_registered (k a)) ->
  advances keeps_registered (m ≫= k).
Proof.
  intros Hm Hk w w' r. rewrite bind_unfold.
  destruct (m w) as [w1 [a|e]] eqn:Hmw.
  - intros Hka. eapply keeps_registered_trans; [eapply Hm, Hmw | eapply Hk, Hka].
  - intros [= <- <-]. eapply Hm, Hmw.
Qed.

Lemma advances_frame {A} (m : M A) :
  preserves (fun w => (sources (self w), probes (self w))) m ->
  advances keeps_registered m.
Proof.
  intros Hp w w' r Hm. specialize (Hp w w' r Hm). injection Hp as Hs Hps.
  split; [rewrite Hs; reflexivity | rewrite Hps; lia].
Qed.

Lemma advances_for_each {A} (l : list A) (body : A -> M unit) :
  (forall a, advances keeps_registered (body a)) ->
  advances keeps_registered (for_each l body).
Proof.
  intros Hb. induction l as [|a l IH]; cbn [for_each].
  - intros w w' r [= <- <-]. apply keeps_registered_refl.
  - apply advances_bind; [apply Hb | intros _; apply IH].
Qed.

Lemma append_probe_advances (n : pynum) : advances keeps_registered (append_probe n).
Proof.
  intros w w' r. unfold append_probe. mrun.
  mlift Hi; mrun; intros [= <- <-]; [|apply keeps_registered_refl].
  split; cbn [self sources probes set_probes]; [reflexivity|].
  rewrite length_app. lia.
Qed.

Lemma probes_add_data_length (E_ H_ : Np.array) (ps : list Probe.t) :
  length (probes_add_data E_ H_ ps).1 = length ps.
Proof.
  induction ps as [|p ps IH]; cbn [probes_add_data]; [reflexivity|].
  destruct (Probe.add_data E_ H_ p); [|reflexivity].
  destruct (probes_add_data E_ H_ ps) as [ps' r]. cbn [fst length] in *. congruence.
Qed.

Lemma sample_probes_advances : advances keeps_registered sample_probes.
Proof.
  intros w w' r. unfold sample_probes. mrun.
  pose proof (probes_add_data_length (E (self w)) (H (self w)) (probes (self w))) as Hl.
  destruct (probes_add_data _ _ _) as [ps' res]. cbn [fst] in Hl. mrun.
  destruct res; mrun; intros [= <- <-]; split;
    cbn [self sources probes set_probes]; first [reflexivity | lia].
Qed.

Lemma add_source_advances (source : ref) : advances keeps_registered (add_source source).
Proof.
  intros w w' res. unfold add_source.
  destruct (source_objs w !! source) as [src|] eqn:Hsrc.
  2:{ rewrite bind_unfold. unfold deref_source. rewrite Hsrc.
      intros [= <- <-]. apply keeps_registered_refl. }
  rewrite (run_bind_deref_source _ src) by exact Hsrc.
  repeat first
    [ mrun_step
    | match goal with |- context [(lift ?x ≫= _) _] => destruct x end ];
    intros [= <- <-]; split; cbn [self sources probes set_sources];
    first [reflexivity | lia | apply prefix_app_r; reflexivity].
Qed.

Ltac advance_step :=
  first
    [ match goal with
      | |- advances _ sample_probes => apply sample_probes_advances
      | |- advances _ (append_probe _) => apply append_probe_advances
      | |- advances _ (for_each _ _) => apply advances_for_each; intros ?
      | |- advances _ (match ?x with _ => _ end) => destruct x
      end
    | apply advances_frame;
      unfold inject_H, inject_E, update_left, update_right, update_boundary,
             refresh_absorbing, layer_range, fill_range;
      solve [preserve]
    | match goal with
      | |- advances _ (_ ≫= _) => apply advances_bind; [|intros ?]
      end ].

(** X22: no call of the interface unregisters a source or a probe. *)
Theorem nothing_unregisters (c : call) (w : World) :
  keeps_registered w (exec (perform c) w).
Proof.
  unfold exec. destruct (perform c w) as [w' res] eqn:Hc. cbn [fst]. revert Hc.
  assert (Ha : advances keeps_registered (perform c)); [|apply Ha].
  destruct c; cbn [perform].
  - unfold analyze. repeat advance_step.
  - unfold next_iteration. repeat advance_step.
  - repeat advance_step.
  - unfold set_left_boundary. repeat advance_step.
  - unfold set_right_boundary. repeat advance_step.
  - unfold add_probes. repeat advance_step.
  - apply add_source_advances.
  - unfold add_layer. repeat advance_step.
  - apply advances_frame, delete_layer_preserves. intros i l.
    unfold remove_layer, layer_range, fill_range. preserve.
Qed.

(** X23: no call of the interface changes the step sizes, the Courant number,
    the duration or the grid size the engine was constructed with. *)
Theorem configuration_is_fixed (c : call) (w : World) :
  let w' := exec (perform c) w in
  dx (self w') = dx (self w) /\ dt (self w') = dt (self w) /\
  Sc (self w') = Sc (self w) /\ time_duration (self w') = time_duration (self w) /\
  time_counts (self w') = time_counts (self w) /\
  area_size (self w') = area_size (self w).
Proof.
  cbv zeta. unfold exec. destruct (perform c w) as [w' res] eqn:Hc. cbn [fst].
  assert (Hp : preserves (fun w => (dx (self w), dt (self w), Sc (self w),
                                    time_duration (self w), time_counts (self w),
                                    area_size (self w))) (perform c)).
  { destruct c; cbn [perform];
      try (unfold analyze, next_iteration, inject_H, inject_E, update_left,
             update_right, sample_probes, update_boundary, refresh_absorbing,
             set_left_boundary, set_right_boundary, add_probes, append_probe,
             add_source, add_layer, layer_range, fill_range; solve [preserve]).
    apply delete_layer_preserves. intros i l.
    unfold remove_layer, layer_range, fill_range. preserve. }
  specialize (Hp w w' res Hc). cbn beta in Hp.
  injection Hp as -> -> -> -> -> ->. repeat split.
Qed.

(** X24: only [analyze] creates the run attributes: after any other call on an
    engine that has not been analyzed, a step still raises
    [AttributeError]. *)
Theorem run_needs_analyze (c : call) (w : World) :
  c <> CallAnalyze -> run (self w) = None ->
  let w' := exec (perform c) w in
  run (self w') = None /\ next_iteration w' = (w', Raise AttributeError).
Proof.
  intros Hc Hr. cbv zeta.
  assert (Hn : forall w0, run (self w0) = None ->
                 next_iteration w0 = (w0, Raise AttributeError)).
  { intros w0 H0'. unfold next_iteration. rewrite bind_unfold. unfold run_attrs.
    rewrite H0'. reflexivity. }
  assert (Hrun : run (self (exec (perform c) w)) = None); [|split; auto].
  unfold exec. destruct (perform c w) as [w' res] eqn:Hp. cbn [fst].
  destruct c; cbn [perform] in Hp; try contradiction.
  - rewrite (Hn w Hr) in Hp. injection Hp as <- _. exact Hr.
  - rewrite <- Hr. revert Hp. apply update_boundary_run.
  - injection Hp as <- _. exact Hr.
  - injection Hp as <- _. exact Hr.
  - rewrite <- Hr. revert Hp.
    assert (Hq : preserves (fun w => run (self w)) (add_probes v))
      by (unfold add_probes, append_probe; preserve). apply Hq.
  - rewrite <- Hr. revert Hp.
    assert (Hq : preserves (fun w => run (self w)) (add_source r))
      by (unfold add_source; preserve). apply Hq.
  - rewrite <- Hr. revert Hp.
    assert (Hq : preserves (fun w => run (self w)) (add_layer r))
      by (unfold add_layer, layer_range, fill_range; preserve). apply Hq.
  - rewrite <- Hr. revert Hp.
    assert (Hq : preserves (fun w => run (self w)) (delete_layer name)).
    { apply delete_layer_preserves. intros i l.
      unfold remove_layer, layer_range, fill_range. preserve. }
    apply Hq.
Qed.

End Registered.

(** ** The further properties at work on the concrete engines *)

Lemma interface_keeps_well_formed_witness :
  well_formed (exec (perform (CallAddLayer 0%nat)) fresh_world).
Proof.
  apply interface_keeps_well_formed.
  split; [split; apply Forall_nil_2|].
  split; [|split; [|split; [|split]]]; try reflexivity. intros r [=].
Defined.

Lemma next_iteration_run_attrs_witness :
  exists r w',
    run (self started_world) = Some r /\
    next_iteration started_world = (w', Ok true) /\
    exists k,
      Py.int_floordiv (PFloat (current_time r)) (dt (self started_world)) = Ok k /\
      run (self w') =
        Some (if k <? time_counts (self started_world)
              then mkRun (ceze r) (cezh r)
                     (F64.add (current_time r) (dt (self started_world)))
                     (timer_active r)
              else mkRun (ceze r) (cezh r) (current_time r) false).
Proof.
  eexists. eexists. split; [reflexivity|]. split; [vm_compute; reflexivity|].
  apply (next_iteration_run_attrs started_world _ (Ok true) _ eq_refl).
  vm_compute. reflexivity.
Defined.

Lemma analyze_fixed_boundaries_witness :
  exists w', analyze fresh_world = (w', Ok true) /\
             option_map current_time (run (self w')) = Some F64.zero.
Proof.
  eexists. split;
    [apply (analyze_fixed_boundaries fresh_world LeftEdge RightEdge); reflexivity
    |reflexivity].
Defined.

Lemma update_boundary_refreshes_witness :
  exists w', update_boundary sponge_world = (w', Ok true) /\
             Boundaries.left (boundary (self w')) =
               refreshed F64.one F64.one (Sc (self sponge_world)) (ABC sponge).
Proof.
  eexists. split;
    [apply (update_boundary_refreshes sponge_world F64.one F64.one F64.one F64.one);
     reflexivity
    |reflexivity].
Defined.

Lemma analyze_one_cell_absorbing_witness :
  exists w', analyze one_cell_world = (w', Raise IndexError) /\
             run (self w') = run (self one_cell_world).
Proof.
  apply analyze_one_cell_absorbing; [reflexivity|].
  left. exists sponge. reflexivity.
Defined.

Lemma add_source_bounds_witness :
  exists w', add_source 0%nat fresh_world = (w', Ok true) /\
             sources (self w') = sources (self fresh_world) ++ [0%nat].
Proof.
  apply (add_source_bounds 0%nat beacon 1 fresh_world);
    [reflexivity | vm_compute; reflexivity | reflexivity].
Defined.

Lemma add_source_twice_witness :
  exists w1 w2 i j,
    add_source 0%nat coarse_world = (w1, Ok true) /\
    add_source 0%nat w1 = (w2, Ok true) /\
    Py.int_floordiv (Source.position rover) (dx (self coarse_world)) = Ok i /\
    Py.int_floordiv (PInt i) (dx (self coarse_world)) = Ok j /\
    Source.position <$> source_objs w2 !! 0%nat = Some (PInt j) /\
    sources (self w2) = sources (self coarse_world) ++ [0%nat; 0%nat].
Proof.
  assert (H1 : add_source 0%nat coarse_world =
               (exec (add_source 0%nat) coarse_world, Ok true))
    by (vm_compute; reflexivity).
  assert (H2 : add_source 0%nat (exec (add_source 0%nat) coarse_world) =
               (exec (add_source 0%nat) (exec (add_source 0%nat) coarse_world), Ok true))
    by (vm_compute; reflexivity).
  destruct (add_source_twice 0%nat rover coarse_world _ _ eq_refl H1 H2)
    as (i & j & Hi & Hj & Hp & Hs).
  exists (exec (add_source 0%nat) coarse_world),
         (exec (add_source 0%nat) (exec (add_source 0%nat) coarse_world)), i, j.
  auto 10.
Defined.

Lemma add_probes_sequence_witness :
  exists w', add_probes (PyList [PyNum (PFloat lit_0_7); PyNum (PInt 1)]) fresh_world
             = (w', Ok true) /\
             Probe.position <$> probes (self w') = [2; 4].
Proof.
  destruct (add_probes_sequence [PFloat lit_0_7; PInt 1] [2; 4] fresh_world)
    as (Hl & _ & _).
  { constructor; [vm_compute; reflexivity|].
    constructor; [vm_compute; reflexivity|]. constructor. }
  eexists. split; [exact Hl|reflexivity].
Defined.

Lemma add_probes_no_rollback_witness :
  exists w', add_probes (PyList [PyNum (PFloat lit_0_7); PyStr "x"; PyNum (PInt 1)])
               fresh_world = (w', Raise TypeError) /\
             Probe.position <$> probes (self w') = [2].
Proof.
  eexists. split;
    [refine (add_probes_no_rollback [PFloat lit_0_7] [2] (PyStr "x")
               [PyNum (PInt 1)] TypeError fresh_world _ eq_refl);
     constructor; [vm_compute; reflexivity|constructor]
    |reflexivity].
Defined.

Lemma add_layer_clips_witness :
  exists w', add_layer 1%nat fresh_world = (w', Ok true) /\
             layers (self w') = layers (self fresh_world) ++ [1%nat].
Proof.
  destruct (add_layer_clips 1%nat cover 0 2 fresh_world)
    as (w' & Ha & _ & Hl & _); [reflexivity|vm_compute; reflexivity..|].
  exists w'. auto.
Defined.

Lemma add_layer_no_rollback_witness :
  exists w', add_layer 0%nat broken_world = (w', Raise ValueError) /\
             layers (self w') = [0%nat] /\ borders (self w') = [].
Proof.
  eexists. split;
    [apply (add_layer_no_rollback 0%nat broken ValueError broken_world);
     [reflexivity|left; vm_compute; reflexivity]
    |split; reflexivity].
Defined.

Lemma delete_layer_first_match_witness :
  exists w', delete_layer "Layer0" slab_world = (w', Ok true) /\
             layers (self w') = [] /\ borders (self w') = [].
Proof.
  eexists. split;
    [apply (delete_layer_first_match "Layer0" [] [] 0%nat
              (Layer.set_name "Layer0" slab) 0 4 slab_world);
     first [reflexivity | apply Forall_nil_2 | vm_compute; reflexivity
           | vm_compute; lia]
    |split; reflexivity].
Defined.

Lemma delete_layer_short_borders_witness :
  exists w', delete_layer "Layer1" skewed_world = (w', Raise IndexError) /\
             layers (self w') = layers (self skewed_world).
Proof.
  eexists. split;
    [apply (delete_layer_short_borders "Layer1" [0%nat] [] 1%nat
              (Layer.set_name "Layer1" slab) 0 4 skewed_world);
     first [ reflexivity | vm_compute; reflexivity | vm_compute; lia
           | apply Forall_singleton; exists (Layer.set_name "Layer0" broken);
             split; [reflexivity|discriminate] ]
    |reflexivity].
Defined.

Lemma constructed_divisors_witness :
  F64.eqb (dx four_cells) F64.zero = false /\ F64.eqb (dt four_cells) F64.zero = false.
Proof.
  destruct (constructed_divisors F64.one (F64.dec 1 4) (F64.dec 1 100000000) F64.one
              four_cells) as (Hdx & Hdt & _); [vm_compute; reflexivity|].
  split; assumption.
Defined.

Lemma nan_never_constructs_witness :
  FDTD_init F64.one S754_nan F64.one F64.one <> Ok four_cells.
Proof. apply nan_never_constructs. reflexivity. Defined.

Lemma fresh_engine_stays_zero_witness :
  stays_zero (exec analyze (empty_world four_cells)).
Proof.
  apply (fresh_engine_stays_zero F64.one (F64.dec 1 4) (F64.dec 1 100000000) F64.one);
    vm_compute; reflexivity.
Defined.

Lemma fixed_edges_are_zero_witness :
  exists w', next_iteration started_world = (w', Ok true) /\
             E (self w') !! 0%nat = Some F64.zero /\
             E (self w') !! 3%nat = Some F64.zero.
Proof.
  assert (Hn : next_iteration started_world =
               (exec next_iteration started_world, Ok true))
    by (vm_compute; reflexivity).
  exists (exec next_iteration started_world). split; [exact Hn|].
  eapply (fixed_edges_are_zero started_world _ _ 0); [reflexivity| | | | |exact Hn].
  - vm_compute. reflexivity.
  - vm_compute. reflexivity.
  - reflexivity.
  - apply Forall_singleton. eexists. exists 1.
    split; [vm_compute; reflexivity|]. split; [reflexivity|].
    repeat split; vm_compute; discriminate.
Defined.

Lemma run_needs_analyze_witness :
  next_iteration (exec (perform (CallAddSource 0%nat)) fresh_world) =
    (exec (perform (CallAddSource 0%nat)) fresh_world, Raise AttributeError).
Proof. apply (run_needs_analyze (CallAddSource 0%nat) fresh_world); [discriminate|reflexivity]. Defined.
